(** * Voting-rule tabulation of the arrow-voting-simulator (package [uvpd])

    A shallow embedding of [uvpd/rules.py] (Plurality, Borda, Condorcet and
    instant-runoff tabulation), of the ballot sampler of [uvpd/preference.py]
    and of the progressive loop of [uvpd/engine.py], together with the
    properties the specification states about them; and, with further
    properties read off the code, of the recorder of [uvpd/recorder.py],
    of the statistics of [uvpd/stats.py] and of the generation commands
    of [uvpd/cli.py].

    Conventions of the embedding:
    - a candidate id is a [nat] (the arrays hold ids, never a negative
      number); a preference array of shape (n, 5) is a list of rows, each
      row a list of candidate ids, most preferred first;
    - NumPy integer arrays are lists over [Z] and boolean arrays lists
      over [bool].  A value written to an [int32] cell or converted to
      [int8] is range-checked; the [int64] tallies are sums of at most
      as many ones as an array has rows and are left unbounded, and so
      is the memory a list takes;
    - every operation that can raise in Python returns a [result];
    - the [aux] dictionary of a [RuleResult] is a finite map from strings;
    - [while True] is a loop with an explicit iteration budget;
    - what the program takes from outside (random draws, the state a
      seeded generator starts in, the clock, the content of freshly
      allocated memory) is a parameter; so are
      floating-point division and [scipy.stats.chisquare] in the
      statistics, whose own exceptions are kept in a type of their own. *)

From stdpp Require Import numbers strings pretty gmap list.

Local Open Scope Z_scope.

(** ** Exceptions *)

Inductive exn : Set :=
  | IndexError
  | ValueError
  | OverflowError
  | AssertionError.

(** The outcome of running a piece of the program: it returns a value, it
    raises, or a [while True] in it used up its iteration budget without
    leaving the loop. *)
Inductive result (A : Type) : Type :=
  | Ok (a : A)
  | Raise (e : exn)
  | Unfinished.

Arguments Ok {A} a.
Arguments Raise {A} e.
Arguments Unfinished {A}.

#[global] Instance result_ret : MRet result := λ A a, Ok a.

#[global] Instance result_bind : MBind result :=
  λ A B f m,
    match m with
    | Ok a => f a
    | Raise e => Raise e
    | Unfinished => Unfinished
    end.

(** Looking up an index that must exist: Python raises [IndexError]. *)
Definition getitem {A} (l : list A) (i : nat) : result A :=
  match l !! i with
  | Some x => Ok x
  | None => Raise IndexError
  end.

(** A [for] loop threading a state through its iterations; an exception
    in the body leaves the loop. *)
Fixpoint for_loop {S A} (body : S → A → result S) (s : S) (l : list A)
  : result S :=
  match l with
  | [] => Ok s
  | x :: l' => s' ← body s x; for_loop body s' l'
  end.

(** ** The NumPy operations the rules use *)

Module np.

Definition zeros (n : nat) : list Z := replicate n 0.

(** One more occurrence of [v]. *)
Definition tally (out : list Z) (v : nat) : list Z := alter Z.succ v out.

(** [np.bincount(x, minlength=m)]: one bin per value up to the largest
    one, at least [m] bins; each occurrence adds one to its bin. *)
Definition bincount (x : list nat) (minlength : nat) : list Z :=
  let bins := match x with
              | [] => minlength
              | _ :: _ => (minlength `max` S (max_list x))%nat
              end in
  foldl tally (zeros bins) x.

Definition sum (a : list Z) : Z := foldr Z.add 0 a.

(** [a.max()] and [a.min()] raise [ValueError] on an empty array. *)
Definition amax (a : list Z) : result Z :=
  match a with
  | [] => Raise ValueError
  | x :: a' => Ok (foldl Z.max x a')
  end.

Definition amin (a : list Z) : result Z :=
  match a with
  | [] => Raise ValueError
  | x :: a' => Ok (foldl Z.min x a')
  end.

(** [np.argmax(a)]: the index of the first occurrence of the maximum. *)
Definition argmax (a : list Z) : result nat :=
  m ← amax a;
  match list_find (λ x, x = m) a with
  | Some (i, _) => Ok i
  | None => Raise ValueError
  end.

(** [a == v], element by element. *)
Definition eq_scalar (a : list Z) (v : Z) : list bool :=
  (λ x, bool_decide (x = v)) <$> a.

(** [np.flatnonzero(mask)]: the indices holding [True], ascending. *)
Definition flatnonzero (mask : list bool) : list nat :=
  filter (λ i, mask !! i = Some true) (seq 0 (length mask)).

(** [a[mask]] for a boolean mask of the same shape. *)
Definition mask_select (a : list Z) (mask : list bool) : result (list Z) :=
  if decide (length a = length mask)
  then Ok (snd <$> filter (λ p, p.1 = true) (zip mask a))
  else Raise IndexError.

(** [a * k] for a scalar [k]. *)
Definition scale (a : list Z) (k : Z) : list Z := (λ x, x * k) <$> a.

(** [a += b] for one-dimensional arrays; a bincount result has at least
    five bins, so shapes that differ do not broadcast. *)
Definition iadd (a b : list Z) : result (list Z) :=
  if decide (length a = length b)
  then Ok (zip_with Z.add a b)
  else Raise ValueError.

(** [a < b], element by element. *)
Definition less (a b : list Z) : list bool :=
  zip_with (λ x y, bool_decide (x < y)) a b.

(** Number of [True] cells: [mask.sum()]. *)
Definition count_true (mask : list bool) : nat :=
  length (filter (λ b, b = true) mask).

(** Storing a Python integer into an [int32] cell.  NumPy 2 raises
    [OverflowError] outside the range (NumPy 1 wrapped around); within
    the range the value is kept. *)
Definition int32 (z : Z) : result Z :=
  if decide (- 2 ^ 31 ≤ z < 2 ^ 31) then Ok z else Raise OverflowError.

(** [np.array(rows, dtype=np.int8)] on rows of non-negative Python
    integers: NumPy 2 raises [OverflowError] for one above 127. *)
Definition array_int8 (rows : list (list nat)) : result (list (list nat)) :=
  if decide (Forall (Forall (λ v, v ≤ 127)%nat) rows)
  then Ok rows else Raise OverflowError.

End np.

(** ** rules.py *)

(** [Candidate = int], 0..4. *)
Abbreviation Candidate := nat (only parsing).

(** [PreferenceArray]: shape (n, 5), rows are permutations of 0..4. *)
Abbreviation PreferenceArray := (list (list Candidate)) (only parsing).

(** [preferences[:, pos]]; a row without that column cannot be part of an
    array of shape (n, 5) and is treated as an [IndexError]. *)
Definition column (preferences : PreferenceArray) (pos : nat)
  : result (list Candidate) :=
  mapM (λ row, getitem row pos) preferences.

(** The values stored in an [aux] dictionary. *)
Inductive aux_value : Type :=
  | AInt (z : Z)
  | ABool (b : bool)
  | AInts (l : list Z)
  | ACands (l : list Candidate)
  | AMatrix (m : list (list Z)).

Record RuleResult : Type := mkRuleResult {
  winner : option Candidate;
  aux : gmap string aux_value
}.

(** Deterministic: lower index wins (A < B < C < D < E).  Python's [min]
    raises [ValueError] on an empty sequence. *)
Definition _alphabetical_tiebreak (candidates : list Candidate)
  : result Candidate :=
  match candidates with
  | [] => Raise ValueError
  | c :: cs => Ok (foldl Nat.min c cs)
  end.

Module PluralityRule.

Definition compute (preferences : PreferenceArray) : result RuleResult :=
  first_choices ← column preferences 0;
  let counts := np.bincount first_choices 5 in
  max_count ← np.amax counts;
  let tied := np.flatnonzero (np.eq_scalar counts max_count) in
  winner ← _alphabetical_tiebreak tied;
  mret (mkRuleResult (Some winner)
          {[ "counts"%string := AInts counts;
             "tie"%string := ABool (bool_decide (1 < length tied)%nat) ]}).

End PluralityRule.

Module BordaRule.

Definition position_points : list Z := [4; 3; 2; 1; 0].

(** One pass of the loop over positions. *)
Definition add_position (preferences : PreferenceArray)
    (scores : list Z) (pos : nat) : result (list Z) :=
  cands_at_pos ← column preferences pos;
  points ← getitem position_points pos;
  let counts := np.bincount cands_at_pos 5 in
  np.iadd scores (np.scale counts points).

Definition compute (preferences : PreferenceArray) : result RuleResult :=
  let n := length preferences in
  scores ← for_loop (add_position preferences) (np.zeros 5) (seq 0 5);
  max_score ← np.amax scores;
  let tied := np.flatnonzero (np.eq_scalar scores max_score) in
  winner ← _alphabetical_tiebreak tied;
  let total_points := np.sum scores in
  mret (mkRuleResult (Some winner)
          {[ "scores"%string := AInts scores;
             "total_points"%string := AInt total_points;
             "expected_total_points"%string := AInt (Z.of_nat n * 10);
             "tie"%string := ABool (bool_decide (1 < length tied)%nat) ]}).

End BordaRule.

Module CondorcetRule.

Section Compute.

(** [np.empty] allocates without initialising: a cell that is never
    written keeps an arbitrary [int8]. *)
Variable uninitialised : nat → nat → Z.

(** [for pos, cand in enumerate(preferences[row]): ranks[row, cand] = pos] *)
Fixpoint fill_ranks (pos : nat) (row : list Candidate) (ranks_row : list Z)
  : result (list Z) :=
  match row with
  | [] => Ok ranks_row
  | cand :: rest =>
      if decide (cand < length ranks_row)%nat
      then fill_ranks (S pos) rest (<[cand := Z.of_nat pos]> ranks_row)
      else Raise IndexError
  end.

(** [ranks[row, candidate]] = position rank (0 best), row after row. *)
Fixpoint build_ranks (row : nat) (preferences : PreferenceArray)
  : result (list (list Z)) :=
  match preferences with
  | [] => Ok []
  | p :: rest =>
      r ← fill_ranks 0 p (uninitialised row <$> seq 0 5);
      rs ← build_ranks (S row) rest;
      mret (r :: rs)
  end.

(** [ranks[:, a]]; every row of [ranks] has five cells. *)
Definition rank_column (ranks : list (list Z)) (a : nat) : list Z :=
  (λ r, r !!! a) <$> ranks.

(** [int(np.sum(ranks[:, a] < ranks[:, b]))] *)
Definition count_less (ranks : list (list Z)) (a b : nat) : Z :=
  Z.of_nat (np.count_true (np.less (rank_column ranks a) (rank_column ranks b))).

(** [wins[a, b] = v] on the 5 x 5 [int32] matrix. *)
Definition set_cell (wins : list (list Z)) (a b : nat) (v : Z)
  : result (list (list Z)) :=
  v32 ← np.int32 v;
  mret (alter (λ row, <[b := v32]> row) a wins).

Definition build_wins (ranks : list (list Z)) : result (list (list Z)) :=
  for_loop (λ wins a,
    for_loop (λ wins b,
      if decide (a = b) then mret wins
      else set_cell wins a b (count_less ranks a b))
      wins (seq 0 5))
    (replicate 5 (np.zeros 5)) (seq 0 5).

(** [all(wins[a, b] > (n - wins[a, b]) for b in range(5) if b != a)] *)
Definition beats_every_other (n : Z) (wins : list (list Z)) (a : nat) : bool :=
  forallb (λ b, bool_decide ((wins !!! a) !!! b > n - (wins !!! a) !!! b))
          (filter (λ b, b ≠ a) (seq 0 5)).

Definition compute (preferences : PreferenceArray) : result RuleResult :=
  let n := Z.of_nat (length preferences) in
  ranks ← build_ranks 0 preferences;
  wins ← build_wins ranks;
  let beats_all := filter (λ a, beats_every_other n wins a = true) (seq 0 5) in
  let winner := if decide (length beats_all = 1%nat)
                then head beats_all else None in
  mret (mkRuleResult winner {[ "wins"%string := AMatrix wins ]}).

End Compute.

End CondorcetRule.

Module IRVRule.

(** The variables the loop updates. *)
Record state : Type := mkState {
  active : list bool;
  elimination_order : list Candidate
}.

(** The scan of one ballot: the first candidate still active, if any. *)
Fixpoint top_choice (active : list bool) (row : list Candidate)
  : result (option Candidate) :=
  match row with
  | [] => Ok None
  | cand :: rest =>
      a ← getitem active cand;
      if a : bool then mret (Some cand) else top_choice active rest
  end.

(** First choice among the active candidates, for each ballot that has one. *)
Fixpoint first_choices (active : list bool) (preferences : PreferenceArray)
  : result (list Candidate) :=
  match preferences with
  | [] => Ok []
  | row :: rest =>
      top ← top_choice active row;
      fc ← first_choices active rest;
      mret (match top with Some c => c :: fc | None => fc end)
  end.

(** What one pass through the body of [while True] does. *)
Inductive step : Type :=
  | Return (r : RuleResult)
  | Continue (st : state).

Definition iteration (preferences : PreferenceArray) (st : state)
  : result step :=
  first_choices ← first_choices (active st) preferences;
  match first_choices with
  | [] =>
      mret (Return (mkRuleResult None
        {[ "elimination_order"%string := ACands (elimination_order st) ]}))
  | _ :: _ =>
      let counts := np.bincount first_choices 5 in
      let total_active_votes := np.sum counts in
      if decide (total_active_votes = 0) then
        mret (Return (mkRuleResult None
          {[ "elimination_order"%string := ACands (elimination_order st) ]}))
      else
        max_count ← np.amax counts;
        if decide (max_count * 2 > total_active_votes) then
          winner ← np.argmax counts;
          mret (Return (mkRuleResult (Some winner)
            {[ "counts"%string := AInts counts;
               "elimination_order"%string := ACands (elimination_order st) ]}))
        else
          active_counts ← np.mask_select counts (active st);
          min_count ← np.amin active_counts;
          let cands_min :=
            filter (λ c, active st !! c = Some true ∧ counts !! c = Some min_count)
                   (seq 0 5) in
          elim ← _alphabetical_tiebreak cands_min;
          let active' := <[elim := false]> (active st) in
          let elimination_order' := elimination_order st ++ [elim] in
          if decide (np.count_true active' = 1%nat) then
            winner ← getitem (np.flatnonzero active') 0;
            mret (Return (mkRuleResult (Some winner)
              {[ "counts"%string := AInts counts;
                 "elimination_order"%string := ACands elimination_order' ]}))
          else
            mret (Continue (mkState active' elimination_order'))
  end.

(** [while True] with a budget of [fuel] iterations. *)
Fixpoint loop (fuel : nat) (preferences : PreferenceArray) (st : state)
  : result RuleResult :=
  match fuel with
  | O => Unfinished
  | S fuel' =>
      s ← iteration preferences st;
      match s with
      | Return r => mret r
      | Continue st' => loop fuel' preferences st'
      end
  end.

Definition initial : state := mkState (replicate 5 true) [].

Definition compute (fuel : nat) (preferences : PreferenceArray)
  : result RuleResult :=
  loop fuel preferences initial.

End IRVRule.

(** ** preference.py *)

Module CandidateSet.

Record t : Type := mk { labels : list string }.

(** [CandidateSet()]: the default labels. *)
Definition default : t :=
  mk ["A"; "B"; "C"; "D"; "E"]%string.

Definition size (self : t) : nat := length (labels self).

End CandidateSet.

Module itertools.

(** Every way of taking one element out of a list, in order. *)
Fixpoint picks {A} (l : list A) : list (A * list A) :=
  match l with
  | [] => []
  | x :: l' => (x, l') :: ((λ p, (p.1, x :: p.2)) <$> picks l')
  end.

(** The [r]-length permutations, in lexicographic order of positions. *)
Fixpoint permutations_r {A} (r : nat) (l : list A) : list (list A) :=
  match r with
  | O => [[]]
  | S r' => p ← picks l; (cons p.1) <$> permutations_r r' p.2
  end.

(** [itertools.permutations(iterable)] *)
Definition permutations {A} (l : list A) : list (list A) :=
  permutations_r (length l) l.

End itertools.

Module PreferenceGenerator.

Section Generator.

(** The state of a [np.random.Generator], and
    [rng.integers(low=0, high=high, size=size, endpoint=False)]. *)
Variable Rng : Type.
Variable integers : Rng → nat → nat → list nat * Rng.

Record t : Type := mk {
  candidates : CandidateSet.t;
  rng : Rng;
  _perms : list (list Candidate)
}.

(** The list of all [n]! tuples is built first, then converted to
    an [int8] array, and only then is its shape compared with
    (120, 5).  (The memory the list takes is not bounded here.) *)
Definition _generate_all_permutations (n : nat)
  : result (list (list Candidate)) :=
  perms ← np.array_int8 (itertools.permutations (seq 0 n));
  if decide (length perms = 120%nat ∧ Forall (λ p, length p = 5%nat) perms)
  then Ok perms
  else Raise AssertionError.

(** [__init__] *)
Definition init (rng : Rng) (candidates : CandidateSet.t) : result t :=
  if decide (CandidateSet.size candidates ≠ 5%nat) then Raise ValueError
  else
    perms ← _generate_all_permutations (CandidateSet.size candidates);
    mret (mk candidates rng perms).

(** [sample]: the rows of [_perms] at the drawn indices, and the
    generator with its advanced random state. *)
Definition sample (self : t) (num_voters : nat)
  : result (list (list Candidate) * t) :=
  let '(idx, rng') := integers (rng self) (length (_perms self)) num_voters in
  rows ← mapM (getitem (_perms self)) idx;
  mret (rows, mk (candidates self) rng' (_perms self)).

End Generator.

Arguments mk {Rng} _ _ _.
Arguments candidates {Rng} _.
Arguments rng {Rng} _.
Arguments _perms {Rng} _.
Arguments init {Rng} _ _.
Arguments sample {Rng} _ _ _.

End PreferenceGenerator.

(** ** recorder.py *)

Module DataRecorder.

Section Recorder.

(** A step record as the engine hands it over. *)
Variable Record_ : Type.

(** What a run file is made of: the brackets of the JSON array, the
    serialised records and the separators between them. *)
Inductive chunk : Type :=
  | OpenArray
  | Dumped (record : Record_)
  | Separator
  | CloseArray.

(** The run files under [data/raw] are kept by run id; a file is
    the list of the chunks written to it. *)
Definition start_run (fs : gmap nat (list chunk)) (run_id : nat)
  : gmap nat (list chunk) :=
  <[run_id := [OpenArray]]> fs.

Definition append_step (fs : gmap nat (list chunk)) (run_id : nat)
    (record : Record_) (is_last : bool) : gmap nat (list chunk) :=
  <[run_id := default [] (fs !! run_id) ++
              Dumped record :: (if is_last then [] else [Separator])]> fs.

Definition end_run (fs : gmap nat (list chunk)) (run_id : nat)
  : gmap nat (list chunk) :=
  <[run_id := default [] (fs !! run_id) ++ [CloseArray]]> fs.

(** The records a run file holds, in order. *)
Definition records (content : list chunk) : list Record_ :=
  omap (λ c, match c with Dumped r => Some r | _ => None end) content.

End Recorder.

Arguments OpenArray {Record_}.
Arguments Dumped {Record_} _.
Arguments Separator {Record_}.
Arguments CloseArray {Record_}.
Arguments start_run {Record_} _ _.
Arguments append_step {Record_} _ _ _ _.
Arguments end_run {Record_} _ _.
Arguments records {Record_} _.

End DataRecorder.

(** ** engine.py *)

Module ProgressiveSimulator.

Record SimulationConfig : Type := mkConfig {
  runs : nat;
  max_voters : nat;
  seed : option Z;
  progress : bool;
  resume : bool
}.

Section Simulator.

(** The outside world: the random generator, the wall clock (the
    k-th reading of [time.time()]), what the k-th [np.empty] finds in
    memory, and the iteration budget given to each [while True]. *)
Variable Rng : Type.
Variable integers : Rng → nat → nat → list nat * Rng.
Variable Timestamp : Type.
Variable time_time : nat → Timestamp.
Variable np_empty : nat → nat → nat → Z.
Variable fuel : nat.

Record StepRecord : Type := mkStepRecord {
  run_id : nat;
  step : nat;
  timestamp : Timestamp;
  voter_preferences : list (list Candidate);
  winners : gmap string (option string)
}.

(** The simulator object, with the counters of the clock readings and
    of the allocations made so far.  [self.rng] is the generator that
    [self.pref_gen] draws from; it is kept there. *)
Record t : Type := mk {
  config : SimulationConfig;
  recorder : gmap nat (list (DataRecorder.chunk StepRecord));
  pref_gen : PreferenceGenerator.t Rng;
  clock : nat;
  allocations : nat
}.

(** [labels[w] if w is not None else None] *)
Definition label_of (labels : list string) (w : option Candidate)
  : result (option string) :=
  match w with
  | Some c => l ← getitem labels c; mret (Some l)
  | None => mret None
  end.

Definition _compute_winners (allocation : nat) (prefs : PreferenceArray)
  : result (gmap string (option string)) :=
  pl ← PluralityRule.compute prefs;
  bd ← BordaRule.compute prefs;
  cd ← CondorcetRule.compute (np_empty allocation) prefs;
  ir ← IRVRule.compute fuel prefs;
  let labels := CandidateSet.labels CandidateSet.default in
  plurality ← label_of labels (winner pl);
  borda ← label_of labels (winner bd);
  condorcet ← label_of labels (winner cd);
  irv ← label_of labels (winner ir);
  mret ({[ "plurality"%string := plurality;
           "borda"%string := borda;
           "condorcet"%string := condorcet;
           "irv"%string := irv ]} : gmap string (option string)).

(** The body of the loop over steps; the loop carries the simulator
    and [prefs_all]. *)
Definition run_step (run : nat) (s : t * list (list Candidate)) (step : nat)
  : result (t * list (list Candidate)) :=
  let '(self, prefs_all) := s in
  '(new_pref, pref_gen') ← PreferenceGenerator.sample integers (pref_gen self) 1;
  let prefs_all := prefs_all ++ new_pref in
  winners ← _compute_winners (allocations self) prefs_all;
  let record := mkStepRecord run step (time_time (clock self)) prefs_all winners in
  let is_last := bool_decide (step = max_voters (config self)) in
  mret (mk (config self)
           (DataRecorder.append_step (recorder self) run record is_last)
           pref_gen' (S (clock self)) (S (allocations self)),
        prefs_all).

Definition _run_single (self : t) (run : nat) : result t :=
  let self := mk (config self) (DataRecorder.start_run (recorder self) run)
                 (pref_gen self) (S (clock self)) (allocations self) in
  '(self, _) ← for_loop (run_step run) (self, [])
                        (seq 1 (max_voters (config self)));
  mret (mk (config self) (DataRecorder.end_run (recorder self) run)
           (pref_gen self) (clock self) (allocations self)).

(** [__init__], given the run files already on disk and the state
    [np.random.default_rng(config.seed)] starts in. *)
Definition init (config : SimulationConfig)
    (files : gmap nat (list (DataRecorder.chunk StepRecord))) (rng : Rng)
  : result t :=
  pref_gen ← PreferenceGenerator.init rng CandidateSet.default;
  mret (mk config files pref_gen 0 0).

Definition _run_exists (self : t) (run : nat) : bool :=
  bool_decide (is_Some (recorder self !! run)).

Definition run (self : t) : result t :=
  for_loop (λ self run,
              if resume (config self) && _run_exists self run
              then mret self
              else _run_single self run)
           self (seq 1 (runs (config self))).

End Simulator.

Arguments mkStepRecord {Timestamp} _ _ _ _ _.
Arguments run_id {Timestamp} _.
Arguments step {Timestamp} _.
Arguments timestamp {Timestamp} _.
Arguments voter_preferences {Timestamp} _.
Arguments winners {Timestamp} _.
Arguments mk {Rng Timestamp} _ _ _ _ _.
Arguments config {Rng Timestamp} _.
Arguments recorder {Rng Timestamp} _.
Arguments pref_gen {Rng Timestamp} _.
Arguments clock {Rng Timestamp} _.
Arguments allocations {Rng Timestamp} _.
Arguments init {Rng Timestamp} _ _ _.
Arguments run_step {Rng} _ {Timestamp} _ _ _ _ _ _.
Arguments _run_single {Rng} _ {Timestamp} _ _ _ _ _.
Arguments _run_exists {Rng Timestamp} _ _.
Arguments run {Rng} _ {Timestamp} _ _ _ _.

End ProgressiveSimulator.
(** ** preference.py: the uniformity report *)

Module UniformityReport.

Section Report.

(** The outside world: the random generator, floating-point
    division and [scipy.stats.chisquare] (statistic and p-value, or
    the exception it raises). *)
Variable Rng : Type.
Variable integers : Rng → nat → nat → list nat * Rng.
Variable float : Type.
Variable truediv : Z → Z → float.
Variable chisquare : list Z → list float → result (float * float).

(** The values of the report. *)
Inductive value : Type :=
  | VInt (z : Z)
  | VInts (l : list Z)
  | VFloat (x : float).

(** [PreferenceGenerator.validate_uniformity].  [rng.integers]
    refuses an empty range with a [ValueError], so the division
    that follows is by the size of a table that is not empty.  The
    report comes with the generator as the call leaves it. *)
Definition validate_uniformity (self : PreferenceGenerator.t Rng)
    (num_samples : nat)
  : result (gmap string value * PreferenceGenerator.t Rng) :=
  let size := length (PreferenceGenerator._perms self) in
  if decide (size = 0%nat) then Raise ValueError
  else
    let '(idx, rng') :=
      integers (PreferenceGenerator.rng self) size num_samples in
    let counts := np.bincount idx size in
    let expected :=
      replicate size (truediv (Z.of_nat num_samples) (Z.of_nat size)) in
    '(chi_stat, p_value) ← chisquare counts expected;
    expected0 ← getitem expected 0;
    mret ({[ "num_samples"%string := VInt (Z.of_nat num_samples);
             "counts"%string := VInts counts;
             "expected_per_perm"%string := VFloat expected0;
             "chi_square_stat"%string := VFloat chi_stat;
             "p_value"%string := VFloat p_value ]},
          PreferenceGenerator.mk (PreferenceGenerator.candidates self) rng'
            (PreferenceGenerator._perms self)).

End Report.

Arguments VInt {float} _.
Arguments VInts {float} _.
Arguments VFloat {float} _.
Arguments validate_uniformity {Rng} _ {float} _ _ _ _.

End UniformityReport.
(** ** stats.py *)

Module stats.

(** The exceptions the aggregate statistics can raise. *)
Inductive error : Set :=
  | KeyError
  | ZeroDivisionError
  | IndexError.

(** What a call of a statistic ends in. *)
Inductive outcome (A : Type) : Type :=
  | Returned (a : A)
  | Raised (e : error).

Arguments Returned {A} a.
Arguments Raised {A} e.

#[global] Instance outcome_ret : MRet outcome := λ A a, Returned a.

#[global] Instance outcome_bind : MBind outcome :=
  λ A B f m,
    match m with
    | Returned a => f a
    | Raised e => Raised e
    end.

(** A [for] loop threading a state through its iterations. *)
Fixpoint for_each {S A} (body : S → A → outcome S) (s : S) (l : list A)
  : outcome S :=
  match l with
  | [] => Returned s
  | x :: l' => s' ← body s x; for_each body s' l'
  end.

(** [d[key]] on a dictionary. *)
Definition dict_getitem {V} (d : gmap string V) (key : string) : outcome V :=
  match d !! key with
  | Some v => Returned v
  | None => Raised KeyError
  end.

(** An index into a one-dimensional array of [n] cells: a negative
    index counts from the end. *)
Definition np_index (n : nat) (i : Z) : outcome nat :=
  if decide (0 ≤ i < Z.of_nat n) then Returned (Z.to_nat i)
  else if decide (- Z.of_nat n ≤ i < 0) then Returned (Z.to_nat (Z.of_nat n + i))
  else Raised IndexError.

(** [a[i] += 1] *)
Definition increment (a : list Z) (i : Z) : outcome (list Z) :=
  k ← np_index (length a) i;
  mret (alter Z.succ k a).

Module AggregateAnalyzer.

Section Analyzer.

(** The run files are read back as the arrays of records the
    engine dumped, in the order of their names.  Floating-point
    division and the literal [0.0] are parameters. *)
Context {Timestamp : Type}.
Variable float : Type.
Variable truediv : Z → Z → float.
Variable zero : float.

(** *** condorcet_rate_by_step *)

(** [if data: max_step = max(max_step, int(data[-1]["step"]))] *)
Definition last_step (max_step : Z)
    (data : list (ProgressiveSimulator.StepRecord Timestamp)) : Z :=
  match last data with
  | Some rec => max_step `max` Z.of_nat (ProgressiveSimulator.step rec)
  | None => max_step
  end.

(** The body of the loop over the records of a file. *)
Definition rate_step (max_step : Z) (s : list Z * list Z)
    (rec : ProgressiveSimulator.StepRecord Timestamp)
  : outcome (list Z * list Z) :=
  let '(counts, totals) := s in
  let step := Z.of_nat (ProgressiveSimulator.step rec) - 1 in
  if decide (max_step ≤ step) then mret (counts, totals)
  else
    let cd := ProgressiveSimulator.winners rec !! "condorcet"%string ≫= id in
    totals ← increment totals step;
    counts ← (if cd is Some _ then increment counts step else mret counts);
    mret (counts, totals).

Definition condorcet_rate_by_step
    (files : list (list (ProgressiveSimulator.StepRecord Timestamp)))
  : outcome (gmap Z float) :=
  match files with
  | [] => mret ∅
  | _ :: _ =>
      let max_step := foldl last_step 0 files in
      if decide (max_step = 0) then mret ∅
      else
        let n := Z.to_nat max_step in
        '(counts, totals) ←
          for_each (for_each (rate_step max_step))
                   (np.zeros n, np.zeros n) files;
        mret (list_to_map
                ((λ i, (Z.of_nat i + 1,
                        if decide (totals !!! i = 0) then zero
                        else truediv (counts !!! i) (totals !!! i)))
                   <$> seq 0 n))
  end.

(** *** rule_agreement_frequency *)

Record agreement : Type := mkAgreement {
  agree_any : Z;
  agree_all : Z;
  total : Z
}.

(** The body of the loop over the records of a file. *)
Definition agreement_step (st : agreement)
    (rec : ProgressiveSimulator.StepRecord Timestamp)
  : outcome agreement :=
  let wins := ProgressiveSimulator.winners rec in
  plurality ← dict_getitem wins "plurality";
  borda ← dict_getitem wins "borda";
  irv ← dict_getitem wins "irv";
  condorcet ← dict_getitem wins "condorcet";
  let vals := [plurality; borda; irv; condorcet] in
  let vals_nonnull := omap id vals in
  let distinct := length (remove_dups vals_nonnull) in
  mret (mkAgreement
          (if decide (distinct ≤ 3)%nat
           then agree_any st + 1 else agree_any st)
          (if decide (distinct = 1 ∧ 2 ≤ length vals_nonnull)%nat
           then agree_all st + 1 else agree_all st)
          (total st + 1)).

(** The loop over the files, with the [return] in its body, and
    the [return] after it. *)
Fixpoint agreement_files (st : agreement)
    (files : list (list (ProgressiveSimulator.StepRecord Timestamp)))
  : outcome (gmap string float) :=
  match files with
  | [] =>
      if decide (total st = 0) then Raised ZeroDivisionError
      else mret {[ "agree_any"%string := truediv (agree_any st) (total st);
                   "agree_all"%string := truediv (agree_all st) (total st) ]}
  | data :: rest =>
      st' ← for_each agreement_step st data;
      if decide (total st' = 0)
      then mret {[ "agree_any"%string := zero; "agree_all"%string := zero ]}
      else agreement_files st' rest
  end.

Definition rule_agreement_frequency
    (files : list (list (ProgressiveSimulator.StepRecord Timestamp)))
  : outcome (gmap string float) :=
  agreement_files (mkAgreement 0 0 0) files.

(** *** winner_volatility *)

Record volatility : Type := mkVolatility {
  changes : Z;
  total_transitions : Z
}.

(** [tuple(rec["winners"][k] for k in (...))] *)
Definition winners_tuple
    (rec : ProgressiveSimulator.StepRecord Timestamp)
  : outcome (list (option string)) :=
  mapM (dict_getitem (ProgressiveSimulator.winners rec))
       ["plurality"; "borda"; "condorcet"; "irv"]%string.

(** The body of the loop over the records of a file; [prev] is
    carried along. *)
Definition volatility_step
    (s : volatility * option (list (option string)))
    (rec : ProgressiveSimulator.StepRecord Timestamp)
  : outcome (volatility * option (list (option string))) :=
  let '(st, prev) := s in
  curr ← winners_tuple rec;
  let changes :=
    match prev with
    | Some p => if decide (curr ≠ p) then changes st + 1 else changes st
    | None => changes st
    end in
  mret (mkVolatility changes (total_transitions st + 1), Some curr).

(** The body of the loop over the files; its closing
    [if total_transitions == 0: continue] changes nothing. *)
Definition volatility_file (st : volatility)
    (data : list (ProgressiveSimulator.StepRecord Timestamp))
  : outcome volatility :=
  '(st', _) ← for_each volatility_step (st, None) data;
  mret st'.

(** [max(total_transitions, 1.0)] is [1.0] only when there was no
    record at all; dividing by it is dividing by one. *)
Definition winner_volatility
    (files : list (list (ProgressiveSimulator.StepRecord Timestamp)))
  : outcome (gmap string float) :=
  st ← for_each volatility_file (mkVolatility 0 0) files;
  mret {[ "avg_changes_per_run"%string :=
            truediv (changes st) (total_transitions st `max` 1) ]}.

End Analyzer.

Arguments condorcet_rate_by_step {Timestamp float} _ _ _.
Arguments agreement_files {Timestamp float} _ _ _ _.
Arguments rule_agreement_frequency {Timestamp float} _ _ _.
Arguments winner_volatility {Timestamp float} _ _.

End AggregateAnalyzer.

Module RandomnessValidator.

Section Validator.

(** The outside world: the random generator, floating-point
    division, [scipy.stats.chisquare] (statistic and p-value, or
    the exception it raises), and what [np.empty] finds in
    memory. *)
Variable Rng : Type.
Variable integers : Rng → nat → nat → list nat * Rng.
Variable float : Type.
Variable truediv : Z → Z → float.
Variable chisquare : list Z → list float → result (float * float).
Variable uninitialised : nat → nat → Z.

(** The values of a report: integers and floats. *)
Inductive report_value : Type :=
  | RInt (z : Z)
  | RFloat (x : float).

(** The generator [gen.rng] is advanced in place: the report comes
    with the generator as the call leaves it. *)
Definition uniform_distribution_test (gen : PreferenceGenerator.t Rng)
    (total_samples : nat)
  : result (gmap string report_value * PreferenceGenerator.t Rng) :=
  let '(idx, rng') :=
    integers (PreferenceGenerator.rng gen) 120 total_samples in
  let counts := np.bincount idx 120 in
  let expected := replicate 120 (truediv (Z.of_nat total_samples) 120) in
  '(chi, p) ← chisquare counts expected;
  min ← np.amin counts;
  max ← np.amax counts;
  expected0 ← getitem expected 0;
  mret ({[ "total_samples"%string := RInt (Z.of_nat total_samples);
           "min"%string := RInt min;
           "max"%string := RInt max;
           "expected"%string := RFloat expected0;
           "p_value"%string := RFloat p ]},
        PreferenceGenerator.mk (PreferenceGenerator.candidates gen) rng'
          (PreferenceGenerator._perms gen)).

Record balance_entry : Type := mkBalance {
  a_over_b : Z;
  b_over_a : Z;
  ratio_a : float
}.

(** The body of the loop over [b]. *)
Definition balance_step (ranks : list (list Z)) (total_samples : nat)
    (a : nat) (balance : gmap string balance_entry) (b : nat)
  : outcome (gmap string balance_entry) :=
  let ab := CondorcetRule.count_less ranks a b in
  let ba := Z.of_nat total_samples - ab in
  if decide (total_samples = 0%nat) then Raised ZeroDivisionError
  else
    let ratio := truediv ab (Z.of_nat total_samples) in
    mret (<[(pretty a +:+ "-" +:+ pretty b)%string :=
              mkBalance ab ba ratio]> balance).

(** Drawing the ballots and filling [ranks] can raise as in the
    rules; the loops over the pairs can only divide by zero. *)
Definition pairwise_balance_test (gen : PreferenceGenerator.t Rng)
    (total_samples : nat)
  : result (outcome (gmap string balance_entry) *
            PreferenceGenerator.t Rng) :=
  '(prefs, gen') ← PreferenceGenerator.sample integers gen total_samples;
  ranks ← CondorcetRule.build_ranks uninitialised 0 prefs;
  mret (for_each (λ balance a,
                    for_each (balance_step ranks total_samples a) balance
                             (seq (a + 1) (5 - (a + 1))))
                 ∅ (seq 0 5),
        gen').

End Validator.

Arguments RInt {float} _.
Arguments RFloat {float} _.
Arguments mkBalance {float} _ _ _.
Arguments a_over_b {float} _.
Arguments b_over_a {float} _.
Arguments ratio_a {float} _.
Arguments balance_step {float} _ _ _ _ _ _.
Arguments uniform_distribution_test {Rng} _ {float} _ _ _ _.
Arguments pairwise_balance_test {Rng} _ {float} _ _ _ _.

End RandomnessValidator.

End stats.
(** ** cli.py *)

Module cli.

Section Commands.

(** The outside world, as for the simulator, and the state a
    generator seeded with [seed] starts in.  [--seed] is parsed with
    [type=int]: any integer, or [None] when the option is absent. *)
Variable Rng : Type.
Variable integers : Rng → nat → nat → list nat * Rng.
Variable Timestamp : Type.
Variable time_time : nat → Timestamp.
Variable np_empty : nat → nat → nat → Z.
Variable fuel : nat.
Variable seeded : option Z → Rng.

(** [np.random.default_rng(seed)]: a negative seed is refused with
    [ValueError]. *)
Definition default_rng (seed : option Z) : result Rng :=
  match seed with
  | Some s => if decide (s < 0) then Raise ValueError else Ok (seeded seed)
  | None => Ok (seeded None)
  end.

(** [ProgressiveSimulator(config, root)], given the run files found
    under [root]; [__init__] seeds its generator from the
    configuration. *)
Definition simulator (config : ProgressiveSimulator.SimulationConfig)
    (files : gmap nat (list (DataRecorder.chunk
                               (ProgressiveSimulator.StepRecord Timestamp))))
  : result (ProgressiveSimulator.t Rng Timestamp) :=
  rng ← default_rng (ProgressiveSimulator.seed config);
  ProgressiveSimulator.init config files rng.

(** The commands return the simulator as they leave it and what
    they have printed. *)
Definition cmd_small (seed : option Z)
    (files : gmap nat (list (DataRecorder.chunk
                               (ProgressiveSimulator.StepRecord Timestamp))))
  : result (ProgressiveSimulator.t Rng Timestamp * list string) :=
  sim ← simulator (ProgressiveSimulator.mkConfig 10 50 seed true true) files;
  sim ← ProgressiveSimulator.run integers time_time np_empty fuel sim;
  mret (sim, ["Small-scale test complete."%string]).

Definition cmd_full (seed : option Z)
    (files : gmap nat (list (DataRecorder.chunk
                               (ProgressiveSimulator.StepRecord Timestamp))))
  : result (ProgressiveSimulator.t Rng Timestamp * list string) :=
  sim ← simulator (ProgressiveSimulator.mkConfig 1000 500 seed true true)
                  files;
  sim ← ProgressiveSimulator.run integers time_time np_empty fuel sim;
  mret (sim, ["Full generation complete."%string]).

End Commands.

Arguments default_rng {Rng} _ _.
Arguments simulator {Rng Timestamp} _ _ _.
Arguments cmd_small {Rng} _ {Timestamp} _ _ _ _ _ _.
Arguments cmd_full {Rng} _ {Timestamp} _ _ _ _ _ _.

End cli.

(** * The vocabulary of the specification *)

(** ** Ballots and tallies *)

(** A ballot ranks each of the five candidates exactly once. *)
Definition is_ballot (row : list Candidate) : Prop := row ≡ₚ seq 0 5.

(** In-domain input: every row of the array is a ballot. *)
Definition in_domain (preferences : PreferenceArray) : Prop :=
  Forall is_ballot preferences.

#[global] Instance is_ballot_dec row : Decision (is_ballot row).
Proof. unfold is_ballot. apply _. Defined.

#[global] Instance in_domain_dec preferences : Decision (in_domain preferences).
Proof. unfold in_domain. apply _. Defined.

(** Number of occurrences of [c] in [x]. *)
Definition occurrences (c : nat) (x : list nat) : Z :=
  Z.of_nat (length (filter (λ v, v = c) x)).

(** Position of the first occurrence of [c] in a ballot. *)
Fixpoint position (c : Candidate) (row : list Candidate) : option nat :=
  match row with
  | [] => None
  | x :: rest => if decide (x = c) then Some 0%nat else S <$> position c rest
  end.

(** Number of ballots that rank [c] at position [pos]. *)
Definition ranked_at (pos : nat) (c : Candidate) (preferences : PreferenceArray) : Z :=
  Z.of_nat (length (filter (λ row, row !! pos = Some c) preferences)).

(** Number of ballots whose most preferred candidate is [c]. *)
Definition first_place_count (preferences : PreferenceArray) (c : Candidate) : Z :=
  ranked_at 0 c preferences.

(** Points a ballot gives to [c]: K-1-p for the position p it ranks [c] at. *)
Definition borda_points (row : list Candidate) (c : Candidate) : Z :=
  match position c row with
  | Some p => 4 - Z.of_nat p
  | None => 0
  end.

(** Borda score of [c]: the points of all ballots added up. *)
Definition borda_score (preferences : PreferenceArray) (c : Candidate) : Z :=
  np.sum ((λ row, borda_points row c) <$> preferences).

(** [w] is the smallest candidate id among those that maximise [f]. *)
Definition least_maximiser (f : Candidate → Z) (w : Candidate) : Prop :=
  (w < 5)%nat ∧
  (∀ c, (c < 5)%nat → f c ≤ f w) ∧
  (∀ c, (c < 5)%nat → f c = f w → (w ≤ c)%nat).

(** Points added to [c] by the positions in [l]. *)
Definition points_at (preferences : PreferenceArray) (c : Candidate)
    (l : list nat) : Z :=
  np.sum ((λ pos, (4 - Z.of_nat pos) * ranked_at pos c preferences) <$> l).

(** ** Pairwise contests *)

(** The ballot ranks [a] strictly above [b]. *)
Definition prefers (row : list Candidate) (a b : Candidate) : Prop :=
  match position a row, position b row with
  | Some i, Some j => (i < j)%nat
  | _, _ => False
  end.

#[global] Instance prefers_dec row a b : Decision (prefers row a b).
Proof. unfold prefers. destruct (position a row), (position b row); apply _. Defined.

(** Number of ballots ranking [a] strictly above [b]. *)
Definition preferring (preferences : PreferenceArray) (a b : Candidate) : Z :=
  Z.of_nat (length (filter (λ row, prefers row a b) preferences)).

(** [a] wins every pairwise contest by a strict majority. *)
Definition beats_all_others (preferences : PreferenceArray) (a : Candidate) : Prop :=
  (a < 5)%nat ∧
  ∀ b, (b < 5)%nat → b ≠ a → preferring preferences b a < preferring preferences a b.

(** The pairwise matrix, cell by cell. *)
Definition pairwise_matrix (f : Candidate → Candidate → Z) : list (list Z) :=
  (λ a, (λ b, if decide (a = b) then 0 else f a b) <$> seq 0 5) <$> seq 0 5.

(** A row of [ranks] holds, for every candidate, its position on the ballot. *)
Definition ranks_of (row : list Candidate) (r : list Z) : Prop :=
  length r = 5%nat ∧
  ∀ c, (c < 5)%nat → ∃ p, position c row = Some p ∧ r !! c = Some (Z.of_nat p).

(** Cell [(a, b)] of a matrix. *)
Definition cell (wins : list (list Z)) (a b : nat) : Z := (wins !!! a) !!! b.

(** ** Rounds of the runoff *)

(** The [active] array once the candidates in [eliminated] are out. *)
Definition active_after (eliminated : list Candidate) : list bool :=
  (λ c, bool_decide (c ∉ eliminated)) <$> seq 0 5.

(** A ballot's top choice among the active candidates. *)
Definition top_active (active : list bool) (row : list Candidate)
  : option Candidate :=
  snd <$> list_find (λ c, active !! c = Some true) row.

(** The count vector of a round: for each candidate, the number of ballots
    whose top active choice it is. *)
Definition round_counts (active : list bool) (preferences : PreferenceArray)
  : list Z :=
  (λ c, Z.of_nat (length (filter (λ row, top_active active row = Some c)
                                 preferences))) <$> seq 0 5.

(** The loop head: [active] is what is left after the eliminations so
    far, and at least two candidates are still active. *)
Record irv_inv (st : IRVRule.state) : Prop := mk_irv_inv {
  inv_active : IRVRule.active st = active_after (IRVRule.elimination_order st);
  inv_NoDup : NoDup (IRVRule.elimination_order st);
  inv_range : ∀ c, c ∈ IRVRule.elimination_order st → (c < 5)%nat;
  inv_length : (length (IRVRule.elimination_order st) ≤ 3)%nat
}.

(** The loop heads reached from a loop head by going round the loop. *)
Inductive rounds (preferences : PreferenceArray)
  : IRVRule.state → IRVRule.state → Prop :=
  | rounds_here st : rounds preferences st st
  | rounds_next st st' st'' :
      IRVRule.iteration preferences st = Ok (IRVRule.Continue st') →
      rounds preferences st' st'' →
      rounds preferences st st''.

(** What the loop entered at [st0] returns.  [final] is the loop head of
    the round that returns, the final round: it returns by exhaustion,
    or a winner with a strict majority of that round's counts, or the
    winner left standing once that round has eliminated [e]. *)
Definition irv_post (preferences : PreferenceArray) (st0 : IRVRule.state)
    (r : RuleResult) : Prop :=
  ∃ final,
    rounds preferences st0 final ∧ irv_inv final ∧
    IRVRule.iteration preferences final = Ok (IRVRule.Return r) ∧
    let E := IRVRule.elimination_order final in
    let counts := round_counts (IRVRule.active final) preferences in
    ((preferences = [] ∧ final = st0 ∧
      r = mkRuleResult None {[ "elimination_order"%string := ACands E ]}) ∨
     (preferences ≠ [] ∧
      ∃ w m, (w < 5)%nat ∧ (w ∉ E) ∧
             counts !! w = Some m ∧ m * 2 > np.sum counts ∧
             r = mkRuleResult (Some w)
                   {[ "counts"%string := AInts counts;
                      "elimination_order"%string := ACands E ]}) ∨
     (preferences ≠ [] ∧
      ∃ w e, (w < 5)%nat ∧ (w ∉ E) ∧ w ≠ e ∧ (e < 5)%nat ∧ (e ∉ E) ∧
             length E = 3%nat ∧
             r = mkRuleResult (Some w)
                   {[ "counts"%string := AInts counts;
                      "elimination_order"%string := ACands (E ++ [e]) ]})).

(** The union of the winner and the eliminated candidates is the full
    candidate set: what C4 states of every returned winner. *)
Definition covers_all_candidates (w : Candidate) (E : list Candidate) : Prop :=
  ∀ c, (c < 5)%nat → c ∈ w :: E.

(** [E] is the complete elimination order for the array [active]: it
    lists, once each, exactly the candidates that [active] marks as
    eliminated. *)
Definition complete_order (active : list bool) (E : list Candidate) : Prop :=
  NoDup E ∧ ∀ c, (c < 5)%nat → c ∈ E ↔ active !! c = Some false.

(** ** Step records *)

(** How a winner is rendered: the display label of the candidate, or
    nothing when the winner is absent. *)
Definition display (w : option Candidate) : option string :=
  c ← w; CandidateSet.labels CandidateSet.default !! c.

(** [m] is the winners map of the ballot set [prefs]: each of the four
    rules applied to the whole of [prefs], its winner (one of the five
    candidates, when there is one) rendered. *)
Definition winners_of (uninitialised : nat → nat → Z) (fuel : nat)
    (prefs : PreferenceArray) (m : gmap string (option string)) : Prop :=
  ∃ pl bd cd ir,
    PluralityRule.compute prefs = Ok pl ∧
    BordaRule.compute prefs = Ok bd ∧
    CondorcetRule.compute uninitialised prefs = Ok cd ∧
    IRVRule.compute fuel prefs = Ok ir ∧
    Forall (λ r, ∀ c, winner r = Some c → (c < 5)%nat) [pl; bd; cd; ir] ∧
    m = {[ "plurality"%string := display (winner pl);
           "borda"%string := display (winner bd);
           "condorcet"%string := display (winner cd);
           "irv"%string := display (winner ir) ]}.

(** The ballot set of the step before the one recorded at index [k]. *)
Definition previous_ballots {Timestamp}
    (recs : list (ProgressiveSimulator.StepRecord Timestamp)) (k : nat)
  : PreferenceArray :=
  match k with
  | O => []
  | S k' => from_option ProgressiveSimulator.voter_preferences [] (recs !! k')
  end.

(** The generator holds the 120 rankings of the five candidates, as
    [PreferenceGenerator.__init__] leaves it. *)
Definition generator_ready {Rng} (g : PreferenceGenerator.t Rng) : Prop :=
  PreferenceGenerator._perms g = itertools.permutations (seq 0 5).

(** What [rng.integers(0, high, size)] promises: [size] draws below [high]. *)
Definition draws_in_range {Rng} (integers : Rng → nat → nat → list nat * Rng)
  : Prop :=
  ∀ g high size, (0 < high)%nat →
    length (integers g high size).1 = size ∧
    Forall (λ i, i < high)%nat (integers g high size).1.

(** What a run records at index [k], that is at step [k + 1]: the step
    index is the number of ballots in the snapshot, the snapshot is the
    previous one with one more ballot, and the winners map is that of the
    whole snapshot. *)
Definition step_record_ok {Timestamp} (np_empty : nat → nat → nat → Z)
    (fuel run : nat) (recs : list (ProgressiveSimulator.StepRecord Timestamp))
    (k : nat) (rec : ProgressiveSimulator.StepRecord Timestamp) : Prop :=
  ProgressiveSimulator.run_id rec = run ∧
  ProgressiveSimulator.step rec = S k ∧
  length (ProgressiveSimulator.voter_preferences rec) = S k ∧
  in_domain (ProgressiveSimulator.voter_preferences rec) ∧
  (∃ b, is_ballot b ∧
        ProgressiveSimulator.voter_preferences rec =
          previous_ballots recs k ++ [b]) ∧
  (∃ allocation,
     winners_of (np_empty allocation) fuel
       (ProgressiveSimulator.voter_preferences rec)
       (ProgressiveSimulator.winners rec)).

(** The loop of [_run_single] after [k] steps. *)
Definition run_inv {Rng Timestamp} (np_empty : nat → nat → nat → Z)
    (fuel run : nat) (cfg : ProgressiveSimulator.SimulationConfig)
    (s : ProgressiveSimulator.t Rng Timestamp * PreferenceArray) (k : nat)
  : Prop :=
  ProgressiveSimulator.config s.1 = cfg ∧
  generator_ready (ProgressiveSimulator.pref_gen s.1) ∧
  length s.2 = k ∧ in_domain s.2 ∧
  ∃ content,
    ProgressiveSimulator.recorder s.1 !! run = Some content ∧
    length (DataRecorder.records content) = k ∧
    previous_ballots (DataRecorder.records content) k = s.2 ∧
    ∀ i rec, DataRecorder.records content !! i = Some rec →
             step_record_ok np_empty fuel run (DataRecorder.records content) i rec.

(** A generator for the examples: it counts up, modulo the bound. *)
Definition counting_integers (g high size : nat) : list nat * nat :=
  ((λ i, (g + 37 * i) `mod` high)%nat <$> seq 0 size, (g + 53 * size)%nat).

(** A simulator for the examples: three voters per run, seed state 7,
    nothing on disk yet. *)
Definition example_config : ProgressiveSimulator.SimulationConfig :=
  ProgressiveSimulator.mkConfig 2 3 (Some 7) false true.

Definition example_simulator : ProgressiveSimulator.t nat nat :=
  ProgressiveSimulator.mk example_config ∅
    (PreferenceGenerator.mk CandidateSet.default 7%nat
       (itertools.permutations (seq 0 5)))
    0 0.

(** ** Ballot sets used to exercise the theorems *)

(** The single ballot A > B > C > D > E. *)
Definition one_ballot : PreferenceArray := [[0; 1; 2; 3; 4]]%nat.

(** As many copies of the ballot A > B > C > D > E as an [int32] cell
    cannot count: 2^31 of them. *)
Definition overflowing_ballots : PreferenceArray :=
  replicate (Z.to_nat (2 ^ 31)) [0; 1; 2; 3; 4]%nat.

(** A first, B first, C first; A is second on the other two. *)
Definition three_ballots : PreferenceArray :=
  [[0; 1; 2; 3; 4]; [1; 0; 2; 3; 4]; [2; 0; 1; 3; 4]]%nat.

(** B and C tie for first place; every round of the runoff eliminates. *)
Definition tied_ballots : PreferenceArray :=
  [[1; 0; 2; 3; 4]; [2; 1; 0; 3; 4]]%nat.

(** Every candidate is ranked once at every position: a five-way tie
    under Plurality and under Borda. *)
Definition rotated_ballots : PreferenceArray :=
  [[0; 1; 2; 3; 4]; [1; 2; 3; 4; 0]; [2; 3; 4; 0; 1];
   [3; 4; 0; 1; 2]; [4; 0; 1; 2; 3]]%nat.

(** Memory left behind by an earlier allocation. *)
Definition stale_memory : nat → nat → Z := λ row col, Z.of_nat (row + col) - 7.

(** ** Reading what a rule returned *)

(** What a rule returned, if it returned. *)
Definition returned_winner (r : result RuleResult) : option (option Candidate) :=
  match r with
  | Ok r => Some (winner r)
  | _ => None
  end.

(** What is stored under [key] in the [aux] of what a rule returned. *)
Definition returned_aux (key : string) (r : result RuleResult) : option aux_value :=
  match r with
  | Ok r => aux r !! key
  | _ => None
  end.
(** ** Outcomes compared *)

(** Two outcomes that agree up to the order of the list returned. *)
Definition same_up_to_order {A} (r r' : result (list A)) : Prop :=
  match r, r' with
  | Ok l, Ok l' => l ≡ₚ l'
  | Raise e, Raise e' => e = e'
  | Unfinished, Unfinished => True
  | _, _ => False
  end.

(** ** Run files *)

(** The chunks between the brackets of a run file: the records, with a
    separator after each one but the last. *)
Fixpoint array_body {R} (recs : list R) : list (DataRecorder.chunk R) :=
  match recs with
  | [] => []
  | r :: rest =>
      DataRecorder.Dumped r ::
      match rest with
      | [] => []
      | _ :: _ => DataRecorder.Separator :: array_body rest
      end
  end.

(** A complete run file: a JSON array of the records. *)
Definition json_array {R} (recs : list R) : list (DataRecorder.chunk R) :=
  DataRecorder.OpenArray :: array_body recs ++ [DataRecorder.CloseArray].

(** One of the five display labels. *)
Definition is_label (l : string) : Prop :=
  l ∈ CandidateSet.labels CandidateSet.default.

(** ** Reading the records back *)

(** The rules a record names a winner for. *)
Definition rule_keys : list string :=
  ["plurality"; "borda"; "irv"; "condorcet"]%string.

(** The record has an entry, a label or null, for each of the rules. *)
Definition complete {Timestamp}
    (rec : ProgressiveSimulator.StepRecord Timestamp) : Prop :=
  Forall (λ key, is_Some (ProgressiveSimulator.winners rec !! key)) rule_keys.

(** The winner a record names for a rule, if it names one. *)
Definition recorded {Timestamp}
    (rec : ProgressiveSimulator.StepRecord Timestamp) (key : string)
  : option string :=
  ProgressiveSimulator.winners rec !! key ≫= id.

Definition rule_winners {Timestamp}
    (rec : ProgressiveSimulator.StepRecord Timestamp) : list (option string) :=
  recorded rec <$> rule_keys.

(** The four rules do not name four different winners: two of them
    agree, or one of them names none. *)
Definition some_agreement {Timestamp}
    (rec : ProgressiveSimulator.StepRecord Timestamp) : Prop :=
  ¬ (NoDup (rule_winners rec) ∧ Forall is_Some (rule_winners rec)).

(** At least two rules name a winner, and all that name one name the
    same. *)
Definition full_agreement {Timestamp}
    (rec : ProgressiveSimulator.StepRecord Timestamp) : Prop :=
  let named := omap id (rule_winners rec) in
  (2 ≤ length named)%nat ∧ Forall (λ x, Forall (eq x) named) named.

#[global] Instance some_agreement_dec {Timestamp}
  (rec : ProgressiveSimulator.StepRecord Timestamp) :
  Decision (some_agreement rec).
Proof. unfold some_agreement. apply _. Defined.

#[global] Instance full_agreement_dec {Timestamp}
  (rec : ProgressiveSimulator.StepRecord Timestamp) :
  Decision (full_agreement rec).
Proof. unfold full_agreement. apply _. Defined.

(** Number of steps of a run at which the winners differ from those of
    the step before. *)
Fixpoint changes_in {Timestamp}
    (data : list (ProgressiveSimulator.StepRecord Timestamp)) : Z :=
  match data with
  | [] => 0
  | rec :: rest =>
      match rest with
      | [] => 0
      | next :: _ =>
          (if decide (rule_winners next = rule_winners rec) then 0 else 1) +
          changes_in rest
      end
  end.

(** The records of step [k]. *)
Definition at_step {Timestamp} (k : Z)
    (recs : list (ProgressiveSimulator.StepRecord Timestamp))
  : list (ProgressiveSimulator.StepRecord Timestamp) :=
  filter (λ rec, Z.of_nat (ProgressiveSimulator.step rec) = k) recs.

(** The record names a Condorcet winner. *)
Definition has_condorcet {Timestamp}
    (rec : ProgressiveSimulator.StepRecord Timestamp) : Prop :=
  is_Some (recorded rec "condorcet").

(** The step numbers the non-empty files end with. *)
Definition final_steps {Timestamp}
    (files : list (list (ProgressiveSimulator.StepRecord Timestamp)))
  : list nat :=
  omap (λ data, ProgressiveSimulator.step <$> last data) files.

(** ** Records used to exercise the statistics *)

(** A record of step [step] with the given winners, in the order
    Plurality, Borda, runoff, Condorcet. *)
Definition sample_record (step : nat) (p b i c : option string)
  : ProgressiveSimulator.StepRecord nat :=
  ProgressiveSimulator.mkStepRecord 1 step 0%nat []
    {[ "plurality"%string := p; "borda"%string := b;
       "irv"%string := i; "condorcet"%string := c ]}.

(** Three steps of a run: a cycle without a Condorcet winner between
    two steps on which all the rules agree. *)
Definition sample_run : list (ProgressiveSimulator.StepRecord nat) :=
  [ sample_record 1 (Some "A") (Some "A") (Some "A") (Some "A");
    sample_record 2 (Some "A") (Some "B") (Some "C") None;
    sample_record 3 (Some "B") (Some "B") (Some "B") (Some "B") ]%string.

(** The division of two integers, kept as a fraction. *)
Definition fraction (a b : Z) : Z * Z := (a, b).

(** ** Candidates the runoff cannot elect *)

(** After the eliminations [E], the candidate [b] is out, or the top
    active choice of every ballot is a candidate ranked above [b]. *)
Definition shielded (preferences : PreferenceArray) (b : Candidate)
    (E : list Candidate) : Prop :=
  b ∈ E ∨
  ∀ row, row ∈ preferences →
    ∃ t, top_active (active_after E) row = Some t ∧ prefers row t b.

(** ** Seeds *)

(** A seed that [np.random.default_rng] refuses. *)
Definition negative_seed (seed : option Z) : Prop :=
  match seed with
  | Some s => s < 0
  | None => False
  end.

(** * Properties *)

(** ** Facts about the result monad and the array operations *)

Lemma result_bind_Ok {A B} (a : A) (f : A → result B) : Ok a ≫= f = f a.
Proof. reflexivity. Qed.

Lemma result_ret_Ok {A} (a : A) : mret a = Ok a.
Proof. reflexivity. Qed.

(** Run the binds whose left side is already a value. *)
Ltac run := repeat (rewrite ?result_bind_Ok, ?result_ret_Ok; cbv beta zeta).

Lemma getitem_Ok {A} (l : list A) i x : getitem l i = Ok x ↔ l !! i = Some x.
Proof. unfold getitem. destruct (l !! i); naive_solver. Qed.

Lemma occurrences_cons c v x :
  occurrences c (v :: x) = (if decide (v = c) then 1 else 0) + occurrences c x.
Proof.
  unfold occurrences. rewrite filter_cons.
  destruct (decide (v = c)); simpl; lia.
Qed.

Section Bincount.

Lemma tally_length x out : length (foldl np.tally out x) = length out.
Proof.
  revert out. induction x as [|v x IH]; intros out; [done|].
  simpl. rewrite IH. apply length_alter.
Qed.

Lemma tally_lookup x out c :
  foldl np.tally out x !! c = (λ z, z + occurrences c x) <$> out !! c.
Proof.
  revert out. induction x as [|v x IH]; intros out.
  - simpl. destruct (out !! c); simpl; f_equal. unfold occurrences. simpl. lia.
  - simpl. rewrite IH, occurrences_cons. unfold np.tally at 1.
    rewrite list_lookup_alter.
    destruct (decide (v = c)) as [->|Hne].
    + destruct (out !! c); simpl; f_equal. lia.
    + destruct (out !! c); simpl; f_equal.
Qed.

Lemma sum_alter_succ out v :
  (v < length out)%nat → np.sum (alter Z.succ v out) = np.sum out + 1.
Proof.
  unfold np.sum.
  revert v. induction out as [|z out IH]; intros v Hv; simpl in *; [lia|].
  destruct v as [|v]; simpl; [lia|].
  specialize (IH v ltac:(lia)). unfold alter in IH. lia.
Qed.

Lemma tally_sum x out :
  Forall (λ v, v < length out)%nat x →
  np.sum (foldl np.tally out x) = np.sum out + Z.of_nat (length x).
Proof.
  revert out. induction x as [|v x IH]; intros out Hx; simpl; [lia|].
  inversion Hx as [|? ? Hv Hx']; subst.
  rewrite IH by (unfold np.tally; rewrite length_alter; done).
  unfold np.tally at 1. rewrite sum_alter_succ by done. lia.
Qed.

Lemma sum_zeros n : np.sum (np.zeros n) = 0.
Proof. induction n; simpl; [done|]. unfold np.zeros in IHn. lia. Qed.

Lemma max_list_bound (x : list nat) :
  Forall (λ v, v ≤ max_list x)%nat x.
Proof.
  induction x as [|v x IH]; constructor; simpl; [lia|].
  eapply Forall_impl; [exact IH|]. simpl. lia.
Qed.

(** The bins cover every value, so every element is counted once. *)
Lemma bincount_sum x m : np.sum (np.bincount x m) = Z.of_nat (length x).
Proof.
  unfold np.bincount. rewrite tally_sum.
  - rewrite sum_zeros. lia.
  - unfold np.zeros. rewrite length_replicate.
    destruct x as [|v x]; [constructor|].
    eapply Forall_impl; [apply max_list_bound|]. simpl. lia.
Qed.

(** When every value is below [m], there are exactly [m] bins. *)
Lemma bincount_length x m :
  Forall (λ v, v < m)%nat x → length (np.bincount x m) = m.
Proof.
  intros Hx. unfold np.bincount.
  rewrite tally_length. unfold np.zeros. rewrite length_replicate.
  destruct x as [|v x]; [done|].
  assert (max_list (v :: x) < m)%nat as Hmax; [|lia].
  inversion Hx as [|? ? Hv Hx']; subst. clear Hx.
  simpl. induction Hx'; simpl in *; lia.
Qed.

Lemma bincount_lookup x m c :
  Forall (λ v, v < m)%nat x → (c < m)%nat →
  np.bincount x m !! c = Some (occurrences c x).
Proof.
  intros Hx Hc. pose proof (bincount_length x m Hx) as Hlen.
  unfold np.bincount in *.
  rewrite tally_length in Hlen.
  rewrite tally_lookup.
  set (bins := match x with [] => m | _ :: _ => _ end) in *.
  destruct (lookup_lt_is_Some_2 (np.zeros bins) c) as [z Hz];
    [by rewrite Hlen|].
  rewrite Hz. simpl. f_equal.
  apply lookup_replicate in Hz as [-> _]. lia.
Qed.

End Bincount.

Section Extremes.

Lemma foldl_max_spec (a : list Z) (x : Z) :
  (foldl Z.max x a = x ∨ foldl Z.max x a ∈ a) ∧
  x ≤ foldl Z.max x a ∧ ∀ y, y ∈ a → y ≤ foldl Z.max x a.
Proof.
  revert x. induction a as [|z a IH]; intros x; simpl.
  - split; [by left|]. split; [lia|]. intros y Hy. by apply elem_of_nil in Hy.
  - destruct (IH (x `max` z)) as ([Heq|Hin] & Hle & Hall).
    + split; [|split; [lia|]].
      * rewrite Heq. destruct (Z.max_spec x z) as [[_ ->]|[_ ->]];
          [right; left | by left].
      * intros y [->|Hy]%elem_of_cons; [lia | by apply Hall].
    + split; [by right; right|]. split; [lia|].
      intros y [->|Hy]%elem_of_cons; [lia | by apply Hall].
Qed.

Lemma foldl_min_spec (a : list Z) (x : Z) :
  (foldl Z.min x a = x ∨ foldl Z.min x a ∈ a) ∧
  foldl Z.min x a ≤ x ∧ ∀ y, y ∈ a → foldl Z.min x a ≤ y.
Proof.
  revert x. induction a as [|z a IH]; intros x; simpl.
  - split; [by left|]. split; [lia|]. intros y Hy. by apply elem_of_nil in Hy.
  - destruct (IH (x `min` z)) as ([Heq|Hin] & Hle & Hall).
    + split; [|split; [lia|]].
      * rewrite Heq. destruct (Z.min_spec x z) as [[_ ->]|[_ ->]];
          [by left | right; left].
      * intros y [->|Hy]%elem_of_cons; [lia | by apply Hall].
    + split; [by right; right|]. split; [lia|].
      intros y [->|Hy]%elem_of_cons; [lia | by apply Hall].
Qed.

Lemma amax_Ok (a : list Z) m :
  np.amax a = Ok m → m ∈ a ∧ ∀ y, y ∈ a → y ≤ m.
Proof.
  destruct a as [|x a]; [done|]. simpl. intros [= <-].
  destruct (foldl_max_spec a x) as ([->|Hin] & Hle & Hall).
  - split; [by left|]. intros y [->|Hy]%elem_of_cons; [lia | by apply Hall].
  - split; [by right|]. intros y [->|Hy]%elem_of_cons; [lia | by apply Hall].
Qed.

Lemma amin_Ok (a : list Z) m :
  np.amin a = Ok m → m ∈ a ∧ ∀ y, y ∈ a → m ≤ y.
Proof.
  destruct a as [|x a]; [done|]. simpl. intros [= <-].
  destruct (foldl_min_spec a x) as ([->|Hin] & Hle & Hall).
  - split; [by left|]. intros y [->|Hy]%elem_of_cons; [lia | by apply Hall].
  - split; [by right|]. intros y [->|Hy]%elem_of_cons; [lia | by apply Hall].
Qed.

Lemma amax_total (a : list Z) : a ≠ [] → ∃ m, np.amax a = Ok m.
Proof. destruct a; [done|]. simpl. eauto. Qed.

Lemma amin_total (a : list Z) : a ≠ [] → ∃ m, np.amin a = Ok m.
Proof. destruct a; [done|]. simpl. eauto. Qed.

Lemma foldl_nat_min_spec (l : list nat) (c : nat) :
  (foldl Nat.min c l = c ∨ foldl Nat.min c l ∈ l) ∧
  (foldl Nat.min c l ≤ c)%nat ∧ ∀ y, y ∈ l → (foldl Nat.min c l ≤ y)%nat.
Proof.
  revert c. induction l as [|z l IH]; intros c; simpl.
  - split; [by left|]. split; [lia|]. intros y Hy. by apply elem_of_nil in Hy.
  - destruct (IH (c `min` z)%nat) as ([Heq|Hin] & Hle & Hall).
    + split; [|split; [lia|]].
      * rewrite Heq. destruct (Nat.min_spec c z) as [[_ ->]|[_ ->]];
          [by left | right; left].
      * intros y [->|Hy]%elem_of_cons; [lia | by apply Hall].
    + split; [by right; right|]. split; [lia|].
      intros y [->|Hy]%elem_of_cons; [lia | by apply Hall].
Qed.

(** The tie-break returns the least of the tied candidates. *)
Lemma tiebreak_Ok (l : list Candidate) w :
  _alphabetical_tiebreak l = Ok w → w ∈ l ∧ ∀ c, c ∈ l → (w ≤ c)%nat.
Proof.
  destruct l as [|x l]; [done|]. simpl. intros [= <-].
  destruct (foldl_nat_min_spec l x) as ([Heq|Hin] & Hle & Hall).
  - split; [rewrite Heq; by left|].
    intros y [->|Hy]%elem_of_cons; [lia | by apply Hall].
  - split; [by right|]. intros y [->|Hy]%elem_of_cons; [lia | by apply Hall].
Qed.

Lemma tiebreak_total (l : list Candidate) :
  l ≠ [] → ∃ w, _alphabetical_tiebreak l = Ok w.
Proof. destruct l; [done|]. simpl. eauto. Qed.

Lemma elem_of_flatnonzero (mask : list bool) i :
  i ∈ np.flatnonzero mask ↔ mask !! i = Some true.
Proof.
  unfold np.flatnonzero. rewrite list_elem_of_filter, elem_of_seq.
  split; [by intros [? _]|]. intros H. split; [done|].
  apply lookup_lt_Some in H. lia.
Qed.

Lemma eq_scalar_lookup (a : list Z) v i :
  np.eq_scalar a v !! i = Some true ↔ a !! i = Some v.
Proof.
  unfold np.eq_scalar. rewrite list_lookup_fmap.
  destruct (a !! i) as [x|]; simpl; [|naive_solver].
  split.
  - intros [= H%bool_decide_eq_true]. by subst.
  - intros [= ->]. f_equal. by apply bool_decide_eq_true.
Qed.

(** Maximum, ties and tie-break together, as Plurality and Borda use
    them: the chosen index holds the maximum and is the least such. *)
Lemma select_first_max (a : list Z) :
  a ≠ [] →
  ∃ m w,
    np.amax a = Ok m ∧
    _alphabetical_tiebreak (np.flatnonzero (np.eq_scalar a m)) = Ok w ∧
    a !! w = Some m ∧
    ∀ i x, a !! i = Some x → x ≤ m ∧ (x = m → (w ≤ i)%nat).
Proof.
  intros Ha. destruct (amax_total a Ha) as [m Hm].
  destruct (amax_Ok a m Hm) as [Hin Hmax].
  apply list_elem_of_lookup in Hin as [j Hj].
  destruct (tiebreak_total (np.flatnonzero (np.eq_scalar a m))) as [w Hw].
  { intros Hnil. assert (j ∈ np.flatnonzero (np.eq_scalar a m)) as Hjin
      by by apply elem_of_flatnonzero, eq_scalar_lookup.
    rewrite Hnil in Hjin. by apply elem_of_nil in Hjin. }
  exists m, w. split; [done|]. split; [done|].
  destruct (tiebreak_Ok _ _ Hw) as [Hwin Hleast].
  apply elem_of_flatnonzero, eq_scalar_lookup in Hwin.
  split; [done|]. intros i x Hi. split.
  - apply Hmax. apply list_elem_of_lookup. eauto.
  - intros ->. apply Hleast. by apply elem_of_flatnonzero, eq_scalar_lookup.
Qed.

End Extremes.

(** ** Ballots and columns *)

Section Ballots.

Lemma is_ballot_length row : is_ballot row → length row = 5%nat.
Proof. unfold is_ballot. intros H. by rewrite H. Qed.

Lemma is_ballot_NoDup row : is_ballot row → NoDup row.
Proof. unfold is_ballot. intros H. rewrite H. apply NoDup_seq. Qed.

Lemma is_ballot_elem_of row c : is_ballot row → c ∈ row ↔ (c < 5)%nat.
Proof. unfold is_ballot. intros H. rewrite H, elem_of_seq. lia. Qed.

Lemma is_ballot_lookup row pos :
  is_ballot row → (pos < 5)%nat → ∃ c, row !! pos = Some c ∧ (c < 5)%nat.
Proof.
  intros H Hpos. destruct (lookup_lt_is_Some_2 row pos) as [c Hc].
  { by rewrite (is_ballot_length row H). }
  exists c. split; [done|]. apply (is_ballot_elem_of row c H).
  apply list_elem_of_lookup. eauto.
Qed.

Lemma is_ballot_inv row :
  is_ballot row →
  ∃ x0 x1 x2 x3 x4, row = [x0; x1; x2; x3; x4] ∧ NoDup [x0; x1; x2; x3; x4].
Proof.
  intros H. pose proof (is_ballot_length row H) as Hlen.
  pose proof (is_ballot_NoDup row H) as Hnd.
  destruct row as [|x0 [|x1 [|x2 [|x3 [|x4 [|? ?]]]]]]; try done.
  by exists x0, x1, x2, x3, x4.
Qed.

Lemma ranked_at_cons pos c row preferences :
  ranked_at pos c (row :: preferences) =
  (if decide (row !! pos = Some c) then 1 else 0) + ranked_at pos c preferences.
Proof.
  unfold ranked_at. rewrite filter_cons.
  destruct (decide (row !! pos = Some c)); simpl; lia.
Qed.

(** [preferences[:, pos]] of an in-domain array: the candidates the
    ballots rank at [pos], all of them below 5. *)
Lemma column_Ok preferences pos :
  in_domain preferences → (pos < 5)%nat →
  ∃ col, column preferences pos = Ok col ∧
         length col = length preferences ∧
         Forall (λ v, v < 5)%nat col ∧
         ∀ c, occurrences c col = ranked_at pos c preferences.
Proof.
  intros Hdom Hpos. unfold column.
  induction Hdom as [|row preferences Hrow Hdom IH].
  - exists []. simpl. by repeat split.
  - destruct IH as (col & Hcol & Hlen & Hlt & Hocc).
    destruct (is_ballot_lookup row pos Hrow Hpos) as (v & Hv & Hv5).
    exists (v :: col). cbn.
    rewrite (proj2 (getitem_Ok row pos v) Hv). cbn. rewrite Hcol. cbn.
    repeat split; [by rewrite Hlen | by constructor |].
    intros c. rewrite occurrences_cons, ranked_at_cons, Hocc, Hv.
    destruct (decide (v = c)) as [->|Hne].
    + by rewrite decide_True.
    + rewrite decide_False; [done | congruence].
Qed.

End Ballots.

(** ** Plurality and Borda *)

Section PluralityBorda.

(** A tally of five cells that holds [f c] at every index [c]: picking
    the first maximum picks the least maximiser of [f]. *)
Lemma select_least_maximiser (a : list Z) (f : Candidate → Z) :
  length a = 5%nat →
  (∀ c, (c < 5)%nat → a !! c = Some (f c)) →
  ∃ m w,
    np.amax a = Ok m ∧
    _alphabetical_tiebreak (np.flatnonzero (np.eq_scalar a m)) = Ok w ∧
    least_maximiser f w.
Proof.
  intros Hlen Hf.
  destruct (select_first_max a) as (m & w & Hm & Hw & Hwm & Hall).
  { intros ->. done. }
  exists m, w. split; [done|]. split; [done|].
  assert (w < 5)%nat as Hw5 by (apply lookup_lt_Some in Hwm; lia).
  assert (f w = m) as Hfw by (rewrite (Hf w Hw5) in Hwm; congruence).
  split; [done|]. split.
  - intros c Hc. rewrite Hfw. by apply (Hall c), Hf.
  - intros c Hc Heq. apply (Hall c (f c)); [by apply Hf | congruence].
Qed.

Lemma plurality_Ok preferences :
  in_domain preferences →
  ∃ r w, PluralityRule.compute preferences = Ok r ∧
         winner r = Some w ∧
         least_maximiser (first_place_count preferences) w.
Proof.
  intros Hdom. unfold PluralityRule.compute.
  destruct (column_Ok preferences 0 Hdom) as (col & -> & Hlen & Hlt & Hocc);
    [lia|].
  run.
  destruct (select_least_maximiser (np.bincount col 5)
              (first_place_count preferences))
    as (m & w & Hm & Hw & Hleast).
  { by apply bincount_length. }
  { intros c Hc. rewrite bincount_lookup by done. by rewrite Hocc. }
  rewrite Hm. run. rewrite Hw. run. eauto.
Qed.

Lemma sum_zip_add (a b : list Z) :
  length a = length b → np.sum (zip_with Z.add a b) = np.sum a + np.sum b.
Proof.
  unfold np.sum. revert b.
  induction a as [|x a IH]; intros [|y b] Hlen; simpl in *; try lia.
  rewrite IH by lia. lia.
Qed.

Lemma sum_scale (a : list Z) k : np.sum (np.scale a k) = k * np.sum a.
Proof.
  unfold np.sum, np.scale. induction a as [|x a IH]; [cbn; lia|].
  rewrite fmap_cons. cbn [foldr]. rewrite IH. lia.
Qed.

Lemma position_points_lookup pos :
  (pos < 5)%nat →
  BordaRule.position_points !! pos = Some (4 - Z.of_nat pos).
Proof.
  intros Hpos.
  do 5 (destruct pos as [|pos]; [reflexivity|]). lia.
Qed.

Lemma add_position_Ok preferences scores pos :
  in_domain preferences → (pos < 5)%nat → length scores = 5%nat →
  ∃ scores',
    BordaRule.add_position preferences scores pos = Ok scores' ∧
    length scores' = 5%nat ∧
    np.sum scores' =
      np.sum scores + (4 - Z.of_nat pos) * Z.of_nat (length preferences) ∧
    ∀ c s, scores !! c = Some s →
      scores' !! c = Some (s + (4 - Z.of_nat pos) * ranked_at pos c preferences).
Proof.
  intros Hdom Hpos Hlen. unfold BordaRule.add_position.
  destruct (column_Ok preferences pos Hdom Hpos)
    as (col & -> & Hcol & Hlt & Hocc).
  run. rewrite (proj2 (getitem_Ok _ _ _) (position_points_lookup pos Hpos)).
  run. unfold np.iadd.
  pose proof (bincount_length col 5 Hlt) as Hbins.
  assert (length (np.scale (np.bincount col 5) (4 - Z.of_nat pos)) = 5%nat)
    as Hscaled by (unfold np.scale; by rewrite length_fmap).
  rewrite decide_True by congruence.
  eexists. split; [done|]. split; [|split].
  - rewrite length_zip_with. lia.
  - rewrite sum_zip_add by congruence.
    rewrite sum_scale, bincount_sum, Hcol. done.
  - intros c s Hs. rewrite lookup_zip_with, Hs. cbn.
    assert (c < 5)%nat as Hc by (apply lookup_lt_Some in Hs; lia).
    unfold np.scale. rewrite list_lookup_fmap, bincount_lookup by done.
    cbn. rewrite Hocc. f_equal. lia.
Qed.

Lemma borda_loop_Ok preferences l : ∀ scores,
  in_domain preferences → Forall (λ pos, pos < 5)%nat l →
  length scores = 5%nat →
  ∃ scores',
    for_loop (BordaRule.add_position preferences) scores l = Ok scores' ∧
    length scores' = 5%nat ∧
    np.sum scores' =
      np.sum scores +
      np.sum ((λ pos, 4 - Z.of_nat pos) <$> l) * Z.of_nat (length preferences) ∧
    ∀ c s, scores !! c = Some s →
      scores' !! c = Some (s + points_at preferences c l).
Proof.
  induction l as [|pos l IH]; intros scores Hdom Hl Hlen.
  - exists scores. cbn. split; [done|]. split; [done|]. split; [lia|].
    intros c s ->. f_equal. unfold points_at. cbn. lia.
  - inversion Hl as [|? ? Hpos Hl']; subst.
    destruct (add_position_Ok preferences scores pos Hdom Hpos Hlen)
      as (scores1 & H1 & Hlen1 & Hsum1 & Hlook1).
    destruct (IH scores1 Hdom Hl' Hlen1)
      as (scores' & H' & Hlen' & Hsum' & Hlook').
    exists scores'. cbn [for_loop]. rewrite H1. run.
    split; [done|]. split; [done|].
    split.
    + rewrite Hsum', Hsum1. unfold np.sum. cbn. lia.
    + intros c s Hs. rewrite (Hlook' c _ (Hlook1 c s Hs)).
      f_equal. unfold points_at, np.sum. cbn. lia.
Qed.

(** On one ballot, the positions holding [c] add up to its Borda points. *)
Lemma borda_points_row row c :
  is_ballot row →
  np.sum ((λ pos, (4 - Z.of_nat pos) * (if decide (row !! pos = Some c) then 1 else 0))
            <$> seq 0 5) = borda_points row c.
Proof.
  intros (x0 & x1 & x2 & x3 & x4 & -> & Hnd)%is_ballot_inv.
  unfold borda_points. cbn.
  repeat match goal with
         | H : NoDup (_ :: _) |- _ =>
             apply list.NoDup_cons in H as [? ?]
         end.
  repeat match goal with
         | H : _ ∉ _ :: _ |- _ => apply not_elem_of_cons in H as [? ?]
         end.
  repeat (case_decide; simplify_eq; cbn); try done.
Qed.

Lemma borda_score_cons row preferences c :
  borda_score (row :: preferences) c =
  borda_points row c + borda_score preferences c.
Proof. reflexivity. Qed.

Lemma points_at_borda_score preferences c :
  in_domain preferences →
  points_at preferences c (seq 0 5) = borda_score preferences c.
Proof.
  intros Hdom. induction Hdom as [|row preferences Hrow Hdom IH].
  - reflexivity.
  - rewrite borda_score_cons, <- IH, <- (borda_points_row row c Hrow).
    unfold points_at, np.sum. cbn [seq fmap list_fmap foldr].
    rewrite !ranked_at_cons. lia.
Qed.

Lemma borda_Ok preferences :
  in_domain preferences →
  ∃ r w scores,
    BordaRule.compute preferences = Ok r ∧
    winner r = Some w ∧
    least_maximiser (borda_score preferences) w ∧
    aux r !! "scores"%string = Some (AInts scores) ∧
    np.sum scores = Z.of_nat (length preferences) * 10 ∧
    aux r !! "total_points"%string =
      Some (AInt (Z.of_nat (length preferences) * 10)) ∧
    aux r !! "expected_total_points"%string =
      Some (AInt (Z.of_nat (length preferences) * 10)).
Proof.
  intros Hdom. unfold BordaRule.compute.
  destruct (borda_loop_Ok preferences (seq 0 5) (np.zeros 5) Hdom)
    as (scores & -> & Hlen & Hsum & Hlook).
  { apply list.Forall_forall. intros pos Hpos%elem_of_seq. lia. }
  { reflexivity. }
  cbn in Hsum.
  assert (np.sum scores = Z.of_nat (length preferences) * 10) as Htotal
    by (rewrite Hsum; lia).
  destruct (select_least_maximiser scores (borda_score preferences) Hlen)
    as (m & w & Hm & Hw & Hleast).
  { intros c Hc. rewrite <- points_at_borda_score by done.
    rewrite (Hlook c 0); [f_equal; lia|].
    apply lookup_replicate. split; [done | lia]. }
  run. rewrite Hm. run. rewrite Hw. run.
  eexists _, w, scores. split; [reflexivity|]. cbn [winner aux].
  split; [done|]. split; [done|].
  rewrite Htotal. by simplify_map_eq.
Qed.

End PluralityBorda.

(** ** Condorcet *)

Section Condorcet.

Lemma position_elem_of c row : c ∈ row → ∃ p, position c row = Some p.
Proof.
  induction row as [|x row IH]; [by intros ?%elem_of_nil|].
  intros Hin. simpl. destruct (decide (x = c)); [eauto|].
  apply elem_of_cons in Hin as [->|Hin]; [done|].
  destruct (IH Hin) as [p ->]. simpl. eauto.
Qed.

Lemma position_lookup c row p : position c row = Some p → row !! p = Some c.
Proof.
  revert p. induction row as [|x row IH]; intros p; [done|].
  simpl. destruct (decide (x = c)) as [->|Hne].
  - by intros [= <-].
  - destruct (position c row) as [q|]; [|done].
    simpl. intros [= <-]. by apply IH.
Qed.

Lemma fill_ranks_Ok row : ∀ pos r0,
  NoDup row → Forall (λ c, c < length r0)%nat row →
  ∃ r, CondorcetRule.fill_ranks pos row r0 = Ok r ∧
       length r = length r0 ∧
       ∀ c, (c ∈ row →
               ∃ p, position c row = Some p ∧
                    r !! c = Some (Z.of_nat (pos + p))) ∧
            (c ∉ row → r !! c = r0 !! c).
Proof.
  induction row as [|x row IH]; intros pos r0 Hnd Hlt.
  - exists r0. split; [done|]. split; [done|]. intros c.
    split; [by intros ?%elem_of_nil | done].
  - apply list.NoDup_cons in Hnd as [Hx Hnd].
    inversion Hlt as [|? ? Hx0 Hlt']; subst.
    destruct (IH (S pos) (<[x := Z.of_nat pos]> r0) Hnd)
      as (r & Hr & Hlen & Hall).
    { by rewrite length_insert. }
    exists r. cbn [CondorcetRule.fill_ranks]. rewrite decide_True by done.
    split; [done|]. split; [by rewrite Hlen, length_insert|].
    intros c. split.
    + intros [->|Hin]%elem_of_cons.
      * exists 0%nat. simpl. rewrite decide_True by done.
        split; [done|].
        rewrite (proj2 (Hall x) Hx), list_lookup_insert_eq by done.
        f_equal. lia.
      * destruct (proj1 (Hall c) Hin) as (p & Hp & Hrc).
        exists (S p). simpl.
        rewrite decide_False by (intros ->; done).
        rewrite Hp. split; [done|]. rewrite Hrc. f_equal. lia.
    + intros Hnin. apply not_elem_of_cons in Hnin as [Hne Hnin].
      rewrite (proj2 (Hall c) Hnin). by apply list_lookup_insert_ne.
Qed.

Lemma fill_ranks_ballot row r0 :
  is_ballot row → length r0 = 5%nat →
  ∃ r, CondorcetRule.fill_ranks 0 row r0 = Ok r ∧ ranks_of row r.
Proof.
  intros Hrow Hlen.
  destruct (fill_ranks_Ok row 0 r0) as (r & Hr & Hlen' & Hall).
  { by apply is_ballot_NoDup. }
  { apply list.Forall_forall. intros c Hc.
    apply (is_ballot_elem_of row c Hrow) in Hc. lia. }
  exists r. split; [done|]. split; [congruence|].
  intros c Hc. apply (is_ballot_elem_of row c Hrow) in Hc.
  destruct (proj1 (Hall c) Hc) as (p & Hp & Hrc). eauto.
Qed.

Lemma build_ranks_Ok uninitialised preferences : ∀ k,
  in_domain preferences →
  ∃ ranks, CondorcetRule.build_ranks uninitialised k preferences = Ok ranks ∧
           Forall2 ranks_of preferences ranks.
Proof.
  induction preferences as [|row preferences IH]; intros k Hdom.
  - exists []. by split.
  - inversion Hdom as [|? ? Hrow Hdom']; subst.
    destruct (fill_ranks_ballot row (uninitialised k <$> seq 0 5) Hrow)
      as (r & Hr & Hranks); [done|].
    destruct (IH (S k) Hdom') as (ranks & Hrs & Hall).
    exists (r :: ranks). cbn [CondorcetRule.build_ranks].
    rewrite Hr. run. rewrite Hrs. run. split; [done|]. by constructor.
Qed.

Lemma count_less_cons r ranks a b :
  CondorcetRule.count_less (r :: ranks) a b =
  (if decide (r !!! a < r !!! b) then 1 else 0) +
  CondorcetRule.count_less ranks a b.
Proof.
  unfold CondorcetRule.count_less, CondorcetRule.rank_column, np.less,
    np.count_true.
  rewrite !fmap_cons. cbn [zip_with]. rewrite filter_cons.
  destruct (decide (r !!! a < r !!! b)) as [Hlt|Hge].
  - rewrite bool_decide_eq_true_2 by done.
    rewrite decide_True by done. cbn [length]. lia.
  - rewrite bool_decide_eq_false_2 by done.
    rewrite decide_False by done. lia.
Qed.

Lemma preferring_cons row preferences a b :
  preferring (row :: preferences) a b =
  (if decide (prefers row a b) then 1 else 0) + preferring preferences a b.
Proof.
  unfold preferring. rewrite filter_cons.
  destruct (decide (prefers row a b)); cbn [length]; lia.
Qed.

Lemma ranks_of_prefers row r a b :
  ranks_of row r → (a < 5)%nat → (b < 5)%nat →
  r !!! a < r !!! b ↔ prefers row a b.
Proof.
  intros [Hlen Hall] Ha Hb.
  destruct (Hall a Ha) as (pa & Hpa & Hra).
  destruct (Hall b Hb) as (pb & Hpb & Hrb).
  rewrite (list_lookup_total_correct _ _ _ Hra).
  rewrite (list_lookup_total_correct _ _ _ Hrb).
  unfold prefers. rewrite Hpa, Hpb. lia.
Qed.

(** What the code counts from [ranks] is the number of ballots that
    rank [a] above [b]. *)
Lemma count_less_preferring preferences ranks a b :
  Forall2 ranks_of preferences ranks → (a < 5)%nat → (b < 5)%nat →
  CondorcetRule.count_less ranks a b = preferring preferences a b.
Proof.
  intros Hall Ha Hb. induction Hall as [|row r preferences ranks Hr Hall IH].
  - reflexivity.
  - rewrite count_less_cons, preferring_cons, IH.
    pose proof (ranks_of_prefers row r a b Hr Ha Hb) as Hiff.
    destruct (decide (r !!! a < r !!! b)), (decide (prefers row a b));
      tauto || lia.
Qed.

(** On a ballot, of two distinct candidates exactly one is above the other. *)
Lemma prefers_total row a b :
  is_ballot row → (a < 5)%nat → (b < 5)%nat → a ≠ b →
  (prefers row a b ∧ ¬ prefers row b a) ∨ (prefers row b a ∧ ¬ prefers row a b).
Proof.
  intros Hrow Ha Hb Hne.
  destruct (position_elem_of a row) as [pa Hpa];
    [by apply (is_ballot_elem_of row a Hrow)|].
  destruct (position_elem_of b row) as [pb Hpb];
    [by apply (is_ballot_elem_of row b Hrow)|].
  unfold prefers. rewrite Hpa, Hpb.
  assert (pa ≠ pb) as Hp.
  { intros ->. apply position_lookup in Hpa, Hpb. congruence. }
  lia.
Qed.

(** Every ballot counts for exactly one side of a pairwise contest. *)
Lemma preferring_complement preferences a b :
  in_domain preferences → (a < 5)%nat → (b < 5)%nat → a ≠ b →
  preferring preferences a b + preferring preferences b a =
  Z.of_nat (length preferences).
Proof.
  intros Hdom Ha Hb Hne.
  induction Hdom as [|row preferences Hrow Hdom IH]; [reflexivity|].
  rewrite !preferring_cons. cbn [length].
  destruct (prefers_total row a b Hrow Ha Hb Hne) as [[H1 H2]|[H1 H2]];
    destruct (decide (prefers row a b)), (decide (prefers row b a));
    try tauto; lia.
Qed.

End Condorcet.

Section CondorcetCompute.

Lemma set_cell_Ok wins a b v :
  - 2 ^ 31 ≤ v < 2 ^ 31 →
  CondorcetRule.set_cell wins a b v = Ok (alter (λ row, <[b := v]> row) a wins).
Proof.
  intros Hv. unfold CondorcetRule.set_cell, np.int32.
  by rewrite decide_True.
Qed.

(** The double loop fills every off-diagonal cell with its count. *)
Lemma build_wins_Ok ranks :
  (∀ a b, - 2 ^ 31 ≤ CondorcetRule.count_less ranks a b < 2 ^ 31) →
  CondorcetRule.build_wins ranks =
  Ok (pairwise_matrix (CondorcetRule.count_less ranks)).
Proof.
  intros Hrange. unfold CondorcetRule.build_wins.
  generalize dependent (CondorcetRule.count_less ranks). intros f Hrange.
  cbn [for_loop seq].
  repeat first
    [ rewrite decide_True by done
    | rewrite decide_False by done
    | rewrite set_cell_Ok by apply Hrange
    | progress run ].
  reflexivity.
Qed.

Lemma beats_every_other_spec n f a :
  (a < 5)%nat →
  CondorcetRule.beats_every_other n (pairwise_matrix f) a = true ↔
  ∀ b, (b < 5)%nat → b ≠ a → f a b > n - f a b.
Proof.
  intros Ha. unfold CondorcetRule.beats_every_other.
  rewrite forallb_forall. setoid_rewrite <- list_elem_of_In.
  setoid_rewrite list_elem_of_filter. setoid_rewrite elem_of_seq.
  setoid_rewrite bool_decide_eq_true.
  split.
  - intros H b Hb Hne.
    specialize (H b ltac:(split; [done | lia])).
    do 5 (destruct a as [|a]; [do 5 (destruct b as [|b]; [try done|]); lia|]).
    lia.
  - intros H b [Hne [_ Hb]]. specialize (H b ltac:(lia) Hne).
    do 5 (destruct a as [|a]; [do 5 (destruct b as [|b]; [try done|]); lia|]).
    lia.
Qed.

(** A filter that at most one element passes. *)
Lemma filter_at_most_one (P : nat → Prop) `{!∀ x, Decision (P x)} (l : list nat) :
  NoDup l →
  (∀ x y, x ∈ l → y ∈ l → P x → P y → x = y) →
  filter P l = [] ∨ ∃ a, filter P l = [a].
Proof.
  intros Hnd Huniq.
  destruct (filter P l) as [|a [|a' k]] eqn:Hf; [by left | by right; eauto |].
  exfalso.
  assert (NoDup (filter P l)) as Hnd' by by apply list.NoDup_filter.
  assert (a ∈ filter P l) as [Pa Ha]%list_elem_of_filter
    by (rewrite Hf; left).
  assert (a' ∈ filter P l) as [Pa' Ha']%list_elem_of_filter
    by (rewrite Hf; right; left).
  rewrite Hf in Hnd'. apply list.NoDup_cons in Hnd' as [Hnin _].
  apply Hnin. rewrite (Huniq a a' Ha Ha' Pa Pa'). left.
Qed.

Lemma pairwise_matrix_ext f g :
  (∀ a b, (a < 5)%nat → (b < 5)%nat → a ≠ b → f a b = g a b) →
  pairwise_matrix f = pairwise_matrix g.
Proof.
  intros Hfg. unfold pairwise_matrix.
  apply list_fmap_ext. intros i a [-> Ha]%lookup_seq.
  apply list_fmap_ext. intros j b [-> Hb]%lookup_seq.
  case_decide; [done|]. apply Hfg; lia.
Qed.

Lemma count_less_bounds ranks a b :
  0 ≤ CondorcetRule.count_less ranks a b ≤ Z.of_nat (length ranks).
Proof.
  induction ranks as [|r ranks IH]; [done|].
  rewrite count_less_cons. cbn [length].
  destruct (decide (r !!! a < r !!! b)); lia.
Qed.

(** Within an in-domain array, the code's majority test is the
    comparison of the two sides of the contest. *)
Lemma majority_test preferences a b :
  in_domain preferences → (a < 5)%nat → (b < 5)%nat → b ≠ a →
  preferring preferences a b >
    Z.of_nat (length preferences) - preferring preferences a b ↔
  preferring preferences b a < preferring preferences a b.
Proof.
  intros Hdom Ha Hb Hne.
  pose proof (preferring_complement preferences a b Hdom Ha Hb) as Hsum.
  specialize (Hsum ltac:(congruence)). lia.
Qed.

Lemma beats_all_others_unique preferences a a' :
  beats_all_others preferences a → beats_all_others preferences a' → a = a'.
Proof.
  intros [Ha Hall] [Ha' Hall'].
  destruct (decide (a = a')) as [|Hne]; [done|]. exfalso.
  specialize (Hall a' Ha' ltac:(congruence)).
  specialize (Hall' a Ha Hne). lia.
Qed.

Lemma condorcet_Ok uninitialised preferences :
  in_domain preferences → Z.of_nat (length preferences) < 2 ^ 31 →
  ∃ r,
    CondorcetRule.compute uninitialised preferences = Ok r ∧
    aux r !! "wins"%string =
      Some (AMatrix (pairwise_matrix (preferring preferences))) ∧
    (∀ a, winner r = Some a ↔ beats_all_others preferences a) ∧
    (winner r = None ↔ ∀ a, ¬ beats_all_others preferences a).
Proof.
  intros Hdom Hn. unfold CondorcetRule.compute.
  destruct (build_ranks_Ok uninitialised preferences 0 Hdom)
    as (ranks & -> & Hranks).
  run.
  assert (length ranks = length preferences) as Hlen
    by (symmetry; by eapply Forall2_length).
  rewrite build_wins_Ok; cycle 1.
  { intros a b. pose proof (count_less_bounds ranks a b). lia. }
  run.
  rewrite (pairwise_matrix_ext _ (preferring preferences)); cycle 1.
  { intros a b Ha Hb _. by apply count_less_preferring. }
  set (n := Z.of_nat (length preferences)).
  set (wins := pairwise_matrix (preferring preferences)).
  set (test := λ a, CondorcetRule.beats_every_other n wins a = true).
  assert (∀ a, a ∈ filter test (seq 0 5) ↔ beats_all_others preferences a)
    as Hfilter.
  { intros a. rewrite list_elem_of_filter, elem_of_seq. unfold test.
    split.
    - intros [Htest [_ Ha]]. split; [lia|]. intros b Hb Hne.
      apply majority_test; [done | lia | done | done |].
      revert b Hb Hne. apply beats_every_other_spec; [lia | done].
    - intros [Ha Hall]. split; [|lia].
      apply beats_every_other_spec; [done|]. intros b Hb Hne.
      apply majority_test; auto. }
  destruct (filter_at_most_one test (seq 0 5)) as [Hnil|[a Hone]].
  { apply NoDup_seq. }
  { intros x y Hx Hy Px Py.
    apply (beats_all_others_unique preferences); apply Hfilter;
      by apply list_elem_of_filter. }
  - rewrite Hnil in *. eexists. split; [reflexivity|]. cbn [winner aux].
    split; [by simplify_map_eq|]. cbn [length].
    rewrite decide_False by done.
    assert (∀ a, ¬ beats_all_others preferences a) as Hnone.
    { intros a Ha%Hfilter. by apply elem_of_nil in Ha. }
    split; [|done]. intros a. split; [done|]. intros Ha. by apply Hnone in Ha.
  - rewrite Hone in *. eexists. split; [reflexivity|]. cbn [winner aux].
    split; [by simplify_map_eq|]. cbn [length head].
    rewrite decide_True by done.
    assert (beats_all_others preferences a) as Ha
      by (apply Hfilter; left).
    split.
    + intros a'. split; [by intros [= <-]|].
      intros Ha'. f_equal. by eapply beats_all_others_unique.
    + split; [done|]. intros Hnone. by apply Hnone in Ha.
Qed.

End CondorcetCompute.

(** ** Instant runoff *)

Section IRVBasics.

Lemma count_true_cons b mask :
  np.count_true (b :: mask) =
  ((if b then 1 else 0) + np.count_true mask)%nat.
Proof.
  unfold np.count_true. rewrite filter_cons. by destruct b.
Qed.

Lemma count_true_insert_false mask : ∀ e,
  mask !! e = Some true →
  (np.count_true (<[e := false]> mask) + 1 = np.count_true mask)%nat.
Proof.
  induction mask as [|b mask IH]; intros e He; [done|].
  destruct e as [|e]; simpl in He.
  - injection He as ->.
    change (<[0%nat := false]> (true :: mask)) with (false :: mask).
    rewrite !count_true_cons. lia.
  - change (<[S e := false]> (b :: mask)) with (b :: <[e := false]> mask).
    rewrite !count_true_cons. specialize (IH e He). lia.
Qed.

Lemma count_true_pos mask :
  (0 < np.count_true mask)%nat → ∃ i, mask !! i = Some true.
Proof.
  induction mask as [|b mask IH]; [unfold np.count_true; simpl; lia|].
  rewrite count_true_cons. destruct b.
  - intros _. by exists 0%nat.
  - intros [i Hi]%IH. by exists (S i).
Qed.

Lemma active_after_length E : length (active_after E) = 5%nat.
Proof. reflexivity. Qed.

Lemma active_after_lookup E c :
  (c < 5)%nat → active_after E !! c = Some (bool_decide (c ∉ E)).
Proof.
  intros Hc. unfold active_after.
  by rewrite list_lookup_fmap, lookup_seq_lt.
Qed.

Lemma active_after_true E c :
  active_after E !! c = Some true ↔ (c < 5)%nat ∧ c ∉ E.
Proof.
  split.
  - intros H. assert (c < 5)%nat as Hc
      by (apply lookup_lt_Some in H; by rewrite active_after_length in H).
    rewrite active_after_lookup in H by done.
    injection H as H%bool_decide_eq_true. done.
  - intros [Hc HE]. rewrite active_after_lookup by done.
    f_equal. by apply bool_decide_eq_true.
Qed.

Lemma active_after_snoc E e :
  active_after (E ++ [e]) = <[e := false]> (active_after E).
Proof.
  apply list_eq. intros c.
  destruct (decide (c < 5)%nat) as [Hc|Hc].
  - rewrite list_lookup_insert, active_after_length, !active_after_lookup
      by done.
    case_decide as Hec.
    + destruct Hec as [-> _]. f_equal. apply bool_decide_eq_false.
      intros Hn. apply Hn, elem_of_app. right. left.
    + f_equal. apply bool_decide_ext. rewrite not_elem_of_app.
      split; [tauto|]. intros Hn. split; [done|].
      intros ->%list_elem_of_singleton. apply Hec. done.
  - rewrite !lookup_ge_None_2;
      rewrite ?length_insert, ?active_after_length; try done; lia.
Qed.

Lemma active_after_count E :
  NoDup E → (∀ c, c ∈ E → (c < 5)%nat) →
  (np.count_true (active_after E) + length E = 5)%nat.
Proof.
  induction E as [|e E IH] using rev_ind; intros Hnd Hlt; [reflexivity|].
  apply NoDup_app in Hnd as (Hnd & Hdisj & _).
  rewrite active_after_snoc, length_app. cbn [length].
  pose proof (count_true_insert_false (active_after E) e) as Hcount.
  rewrite active_after_true in Hcount.
  specialize (Hcount ltac:(split;
    [apply Hlt, elem_of_app; right; left
    | intros Hin; apply (Hdisj e Hin); left])).
  specialize (IH Hnd ltac:(intros c Hc; apply Hlt, elem_of_app; by left)).
  lia.
Qed.

(** The scan of a ballot stops at its top active choice. *)
Lemma top_choice_Ok active row :
  Forall (λ c, c < length active)%nat row →
  IRVRule.top_choice active row = Ok (top_active active row).
Proof.
  unfold top_active. induction row as [|c row IH]; intros Hlt; [done|].
  inversion Hlt as [|? ? Hc Hlt']; subst.
  destruct (lookup_lt_is_Some_2 active c Hc) as [b Hb].
  cbn [IRVRule.top_choice list_find].
  rewrite (proj2 (getitem_Ok active c b) Hb). run.
  destruct b.
  - by rewrite decide_True.
  - rewrite decide_False by congruence. rewrite (IH Hlt').
    by destruct (list_find _ row) as [[i x]|].
Qed.

Lemma top_active_Some active row c :
  top_active active row = Some c → c ∈ row ∧ active !! c = Some true.
Proof.
  unfold top_active.
  destruct (list_find _ row) as [[i x]|] eqn:Hfind; [|done].
  intros [= <-]. apply list_find_Some in Hfind as (Hi & Hx & _).
  split; [|done]. apply list_elem_of_lookup. eauto.
Qed.

Lemma top_active_is_Some active row c :
  c ∈ row → active !! c = Some true → is_Some (top_active active row).
Proof.
  intros Hin Hc. unfold top_active.
  destruct (list_find (λ c, active !! c = Some true) row) as [p|] eqn:Hfind;
    [by eexists|].
  exfalso. eapply list_find_None in Hfind.
  by eapply (proj1 (list.Forall_forall _ _) Hfind c Hin).
Qed.

End IRVBasics.

Ltac run_in H :=
  repeat (rewrite ?result_bind_Ok, ?result_ret_Ok in H; cbv beta zeta in H).

Section IRVRound.

Lemma first_choices_Ok active preferences :
  Forall (Forall (λ c, c < length active)%nat) preferences →
  IRVRule.first_choices active preferences =
  Ok (omap (top_active active) preferences).
Proof.
  induction 1 as [|row preferences Hrow Hall IH]; [done|].
  cbn [IRVRule.first_choices omap list_omap].
  rewrite top_choice_Ok by done. run. rewrite IH. run.
  by destruct (top_active active row).
Qed.

Lemma occurrences_top_active active preferences c :
  occurrences c (omap (top_active active) preferences) =
  Z.of_nat (length (filter (λ row, top_active active row = Some c) preferences)).
Proof.
  induction preferences as [|row preferences IH]; [done|].
  cbn [omap list_omap]. rewrite filter_cons.
  destruct (top_active active row) as [x|] eqn:Hx.
  - rewrite occurrences_cons, IH.
    destruct (decide (x = c)) as [->|Hne].
    + rewrite decide_True by done. cbn [length]. lia.
    + rewrite decide_False by congruence. lia.
  - rewrite decide_False by done. apply IH.
Qed.

Lemma top_active_lt active preferences :
  Forall (λ c, c < length active)%nat (omap (top_active active) preferences).
Proof.
  apply Forall_forall. intros c (row & _ & Hc)%list_elem_of_omap.
  apply top_active_Some in Hc as [_ Hc]. by apply lookup_lt_Some in Hc.
Qed.

(** What the code tallies in a round is the round's count vector. *)
Lemma bincount_round_counts active preferences :
  length active = 5%nat →
  np.bincount (omap (top_active active) preferences) 5 =
  round_counts active preferences.
Proof.
  intros Hlen.
  pose proof (top_active_lt active preferences) as Hlt. rewrite Hlen in Hlt.
  apply list_eq. intros c. destruct (decide (c < 5)%nat) as [Hc|Hc].
  - rewrite bincount_lookup by done. unfold round_counts.
    rewrite list_lookup_fmap, lookup_seq_lt by done. cbn.
    by rewrite occurrences_top_active.
  - rewrite !lookup_ge_None_2; [done| |].
    + unfold round_counts. rewrite length_fmap, length_seq. lia.
    + rewrite bincount_length by done. lia.
Qed.

Lemma in_domain_lt preferences :
  in_domain preferences → Forall (Forall (λ c, c < 5)%nat) preferences.
Proof.
  intros Hdom. eapply Forall_impl; [exact Hdom|].
  intros row Hrow. apply Forall_forall. intros c Hc.
  by apply (is_ballot_elem_of row c Hrow).
Qed.

(** With a candidate still active, every ballot has a top choice. *)
Lemma top_active_length active preferences c :
  in_domain preferences → (c < 5)%nat → active !! c = Some true →
  length (omap (top_active active) preferences) = length preferences.
Proof.
  intros Hdom Hc Hact.
  induction Hdom as [|row preferences Hrow Hdom IH]; [done|].
  cbn [omap list_omap].
  destruct (top_active_is_Some active row c) as [x ->]; [|done|].
  - by apply (is_ballot_elem_of row c Hrow).
  - cbn [length]. by rewrite IH.
Qed.

Lemma mask_select_Ok (a : list Z) (mask : list bool) :
  length a = length mask →
  ∃ sel, np.mask_select a mask = Ok sel ∧
         ∀ x, x ∈ sel ↔ ∃ i, mask !! i = Some true ∧ a !! i = Some x.
Proof.
  intros Hlen. unfold np.mask_select. rewrite decide_True by done.
  eexists. split; [done|]. intros x.
  rewrite list_elem_of_fmap. split.
  - intros ([b y] & -> & [Hb Hin]%list_elem_of_filter).
    cbn in Hb. subst b.
    apply elem_of_lookup_zip_with in Hin as (i & b & z & [= <- <-] & Hm & Ha).
    eauto.
  - intros (i & Hm & Ha). exists (true, x). split; [done|].
    apply list_elem_of_filter. split; [done|].
    apply elem_of_lookup_zip_with. eauto 10.
Qed.

(** An iteration that goes round again has eliminated exactly one
    candidate, and one that was active. *)
Lemma iteration_Continue preferences st st' :
  IRVRule.iteration preferences st = Ok (IRVRule.Continue st') →
  ∃ e, IRVRule.active st !! e = Some true ∧
       IRVRule.active st' = <[e := false]> (IRVRule.active st) ∧
       IRVRule.elimination_order st' = IRVRule.elimination_order st ++ [e] ∧
       (np.count_true (IRVRule.active st') + 1 =
        np.count_true (IRVRule.active st))%nat.
Proof.
  unfold IRVRule.iteration. intros H.
  destruct (IRVRule.first_choices _ _) as [fc| |]; [|done..]. run_in H.
  destruct fc as [|c0 fc]; [done|].
  case_decide; [done|].
  destruct (np.amax _) as [m| |]; [|done..]. run_in H.
  case_decide.
  { destruct (np.argmax _) as [w| |]; done. }
  destruct (np.mask_select _ _) as [sel| |]; [|done..]. run_in H.
  destruct (np.amin _) as [mn| |]; [|done..]. run_in H.
  destruct (_alphabetical_tiebreak _) as [e| |] eqn:He; [|done..]. run_in H.
  case_decide.
  { destruct (getitem _ _) as [w| |]; done. }
  injection H as <-. cbn [IRVRule.active IRVRule.elimination_order].
  apply tiebreak_Ok in He as [[[Hact _] _]%list_elem_of_filter _].
  exists e. split; [done|]. split; [done|]. split; [done|].
  by apply count_true_insert_false.
Qed.

End IRVRound.

Section IRVIteration.

Lemma iteration_empty st :
  IRVRule.iteration [] st =
  Ok (IRVRule.Return (mkRuleResult None
        {[ "elimination_order"%string :=
             ACands (IRVRule.elimination_order st) ]})).
Proof. reflexivity. Qed.

(** One round on a non-empty in-domain array: a majority winner, the
    last elimination and the winner left standing, or one elimination
    and another round. *)
Lemma iteration_nonempty preferences st :
  in_domain preferences → preferences ≠ [] → irv_inv st →
  let E := IRVRule.elimination_order st in
  let counts := round_counts (active_after E) preferences in
  (∃ w m,
      IRVRule.iteration preferences st =
        Ok (IRVRule.Return (mkRuleResult (Some w)
              {[ "counts"%string := AInts counts;
                 "elimination_order"%string := ACands E ]})) ∧
      counts !! w = Some m ∧ m * 2 > np.sum counts ∧
      (w < 5)%nat ∧ w ∉ E) ∨
  (∃ e w,
      IRVRule.iteration preferences st =
        Ok (IRVRule.Return (mkRuleResult (Some w)
              {[ "counts"%string := AInts counts;
                 "elimination_order"%string := ACands (E ++ [e]) ]})) ∧
      length E = 3%nat ∧ (e < 5)%nat ∧ (e ∉ E) ∧
      (w < 5)%nat ∧ (w ∉ E) ∧ w ≠ e) ∨
  (∃ e,
      IRVRule.iteration preferences st =
        Ok (IRVRule.Continue
              (IRVRule.mkState (active_after (E ++ [e])) (E ++ [e]))) ∧
      (e < 5)%nat ∧ (e ∉ E) ∧ (length E < 3)%nat).
Proof.
  intros Hdom Hne [Hact Hnd Hrange Hlen] E counts.
  change (IRVRule.elimination_order st) with E in Hact, Hnd, Hrange, Hlen.
  pose proof (active_after_count E Hnd Hrange) as Hcount.
  destruct (count_true_pos (active_after E)) as [c0 Hc0]; [lia|].
  pose proof (proj1 (active_after_true E c0) Hc0) as [Hc05 _].
  unfold IRVRule.iteration. rewrite Hact.
  rewrite first_choices_Ok by (rewrite active_after_length; by apply in_domain_lt).
  run.
  pose proof (top_active_length (active_after E) preferences c0 Hdom Hc05 Hc0)
    as Hfc_len.
  pose proof (bincount_round_counts (active_after E) preferences eq_refl)
    as Hbins.
  pose proof (bincount_sum (omap (top_active (active_after E)) preferences) 5)
    as Hsum.
  rewrite Hbins in *. fold counts in Hsum |- *. rewrite Hfc_len in Hsum.
  destruct (omap (top_active (active_after E)) preferences) as [|x fc] eqn:Hfc.
  { destruct preferences; [done|]. cbn in Hfc_len. lia. }
  assert (0 < length preferences)%nat by (destruct preferences; cbn; [done|lia]).
  rewrite decide_False by lia.
  assert (length counts = 5%nat) as Hcounts_len by reflexivity.
  destruct (amax_total counts) as [m Hm]; [by intros Heq; rewrite Heq in Hcounts_len|].
  rewrite Hm. run.
  destruct (decide (m * 2 > np.sum counts)) as [Hmaj|Hnomaj].
  - (* majority *)
    left. unfold np.argmax. rewrite Hm. run.
    destruct (amax_Ok counts m Hm) as [Hin _].
    destruct (list_find (λ x, x = m) counts) as [[w y]|] eqn:Hfind.
    2:{ exfalso. apply list_find_None in Hfind.
        by apply (proj1 (Forall_forall _ _) Hfind m Hin). }
    apply list_find_Some in Hfind as (Hw & -> & _).
    exists w, m. split; [done|]. split; [done|]. split; [done|].
    assert (w < 5)%nat as Hw5 by (apply lookup_lt_Some in Hw; lia).
    split; [done|].
    (* the winner received votes, so it is active *)
    unfold counts, round_counts in Hw.
    rewrite list_lookup_fmap, lookup_seq_lt in Hw by done.
    cbn [fmap option_fmap option_map Nat.add] in Hw. injection Hw as Hw.
    destruct (filter (λ row, top_active (active_after E) row = Some w) preferences)
      as [|row rows] eqn:Hrows; [cbn in Hw; lia|].
    assert (row ∈ filter (λ row, top_active (active_after E) row = Some w) preferences)
      as [Htop _]%list_elem_of_filter by (rewrite Hrows; left).
    apply top_active_Some in Htop as [_ Htop].
    by apply active_after_true in Htop as [_ Htop].
  - (* elimination *)
    right.
    destruct (mask_select_Ok counts (active_after E)) as (sel & Hsel & Hsel_in);
      [done|].
    rewrite Hsel. run.
    assert (is_Some (counts !! c0)) as [z0 Hz0]
      by (apply lookup_lt_is_Some_2; lia).
    destruct (amin_total sel) as [mn Hmn].
    { intros ->. eapply elem_of_nil, Hsel_in. eauto. }
    rewrite Hmn. run.
    destruct (amin_Ok sel mn Hmn) as [(i & Hi_act & Hi_cnt)%Hsel_in _].
    set (cands_min := filter _ (seq 0 5)).
    assert (i ∈ cands_min) as Hi_in.
    { apply list_elem_of_filter. split; [done|].
      apply elem_of_seq. apply lookup_lt_Some in Hi_cnt. lia. }
    destruct (tiebreak_total cands_min) as [e He].
    { intros Heq. rewrite Heq in Hi_in. by apply elem_of_nil in Hi_in. }
    rewrite He. run.
    apply tiebreak_Ok in He as [[[He_act _] _]%list_elem_of_filter _].
    pose proof He_act as [He5 He_nin]%active_after_true.
    pose proof (count_true_insert_false _ _ He_act) as Hdec.
    rewrite <- active_after_snoc in *.
    destruct (decide (np.count_true (active_after (E ++ [e])) = 1%nat))
      as [Hone|Hmore].
    + (* one candidate left standing *)
      left.
      destruct (count_true_pos (active_after (E ++ [e]))) as [w0 Hw0]; [lia|].
      destruct (np.flatnonzero (active_after (E ++ [e]))) as [|w ws] eqn:Hnz.
      { apply elem_of_flatnonzero in Hw0. rewrite Hnz in Hw0.
        by apply elem_of_nil in Hw0. }
      assert (w ∈ np.flatnonzero (active_after (E ++ [e]))) as Hw
        by (rewrite Hnz; left).
      apply elem_of_flatnonzero, active_after_true in Hw as [Hw5 Hw_nin].
      apply not_elem_of_app in Hw_nin as [Hw_E Hw_e].
      exists e, w. cbn [getitem lookup list_lookup]. run.
      split; [done|]. split; [lia|]. repeat split; try done.
      intros ->. apply Hw_e. left.
    + right. exists e. split; [done|]. split; [done|]. split; [done|]. lia.
Qed.

End IRVIteration.

Section IRVLoop.

Lemma irv_inv_initial : irv_inv IRVRule.initial.
Proof.
  split; cbn.
  - reflexivity.
  - constructor.
  - by intros c ?%elem_of_nil.
  - lia.
Qed.

Lemma NoDup_snoc (E : list Candidate) e : NoDup E → e ∉ E → NoDup (E ++ [e]).
Proof.
  intros Hnd He. apply NoDup_app. split; [done|]. split.
  - by intros x Hx ->%list_elem_of_singleton.
  - apply NoDup_singleton.
Qed.

Lemma irv_inv_snoc E e :
  NoDup E → (∀ c, c ∈ E → (c < 5)%nat) → (e < 5)%nat → e ∉ E →
  (length E < 3)%nat →
  irv_inv (IRVRule.mkState (active_after (E ++ [e])) (E ++ [e])).
Proof.
  intros Hnd Hrange He5 He Hlen. split; cbn.
  - reflexivity.
  - by apply NoDup_snoc.
  - intros c [Hc| ->%list_elem_of_singleton]%elem_of_app; auto.
  - rewrite length_app. cbn. lia.
Qed.

Lemma loop_return fuel preferences st r :
  IRVRule.iteration preferences st = Ok (IRVRule.Return r) →
  IRVRule.loop (S fuel) preferences st = Ok r.
Proof. intros H. cbn [IRVRule.loop]. by rewrite H. Qed.

Lemma loop_continue fuel preferences st st' :
  IRVRule.iteration preferences st = Ok (IRVRule.Continue st') →
  IRVRule.loop (S fuel) preferences st = IRVRule.loop fuel preferences st'.
Proof. intros H. cbn [IRVRule.loop]. by rewrite H. Qed.

(** One pass through the loop body either returns, in one of the three
    ways [irv_post] lists, or reaches the next loop head with one more
    elimination. *)
Lemma iteration_post preferences st :
  in_domain preferences → irv_inv st →
  (∃ r, IRVRule.iteration preferences st = Ok (IRVRule.Return r) ∧
        irv_post preferences st r) ∨
  (∃ st', IRVRule.iteration preferences st = Ok (IRVRule.Continue st') ∧
          irv_inv st' ∧ preferences ≠ [] ∧
          length (IRVRule.elimination_order st') =
            S (length (IRVRule.elimination_order st))).
Proof.
  intros Hdom Hinv. pose proof Hinv as [Hact Hnd Hrange Hlen].
  destruct (decide (preferences = [])) as [->|Hne].
  { (* exhaustion *)
    left. eexists. split; [apply iteration_empty|].
    exists st. split; [constructor|]. split; [done|].
    split; [apply iteration_empty|]. left. by repeat split. }
  destruct (iteration_nonempty preferences st Hdom Hne Hinv)
    as [(w & m & Hit & Hm & Hmaj & Hw5 & Hw)
       |[(e & w & Hit & HE & He5 & He & Hw5 & Hw & Hwe)
        |(e & Hit & He5 & He & HE)]];
    rewrite <- ?Hact in *.
  - (* strict majority *)
    left. eexists. split; [apply Hit|].
    exists st. split; [constructor|]. split; [done|].
    split; [apply Hit|]. right. left. split; [done|]. by exists w, m.
  - (* last standing *)
    left. eexists. split; [apply Hit|].
    exists st. split; [constructor|]. split; [done|].
    split; [apply Hit|]. right. right. split; [done|]. by exists w, e.
  - (* one elimination and another round *)
    right. eexists. split; [apply Hit|].
    split; [by apply irv_inv_snoc|]. split; [done|].
    cbn. rewrite length_app. cbn. lia.
Qed.

Lemma irv_post_rounds preferences st st' r :
  IRVRule.iteration preferences st = Ok (IRVRule.Continue st') →
  preferences ≠ [] →
  irv_post preferences st' r → irv_post preferences st r.
Proof.
  intros Hit Hne (final & Hrounds & Hinv & Hret & Hcases).
  exists final. split; [by econstructor|]. split; [done|]. split; [done|].
  cbn zeta in *. destruct Hcases as [(? & _)|Hwin]; [done|]. by right.
Qed.

(** From a loop head with [k] eliminations still possible before only
    one candidate is left, [k + 1] iterations are enough. *)
Lemma loop_Ok preferences :
  in_domain preferences →
  ∀ k st, irv_inv st →
    (3 - length (IRVRule.elimination_order st) ≤ k)%nat →
    ∃ r, (∀ fuel, (k + 1 ≤ fuel)%nat →
            IRVRule.loop fuel preferences st = Ok r) ∧
         irv_post preferences st r.
Proof.
  intros Hdom k. induction k as [|k IH]; intros st Hinv Hk.
  - destruct (iteration_post preferences st Hdom Hinv)
      as [(r & Hit & Hpost)|(st' & Hit & Hinv' & _ & Hlen')].
    + exists r. split; [|done].
      intros [|fuel] Hfuel; [lia|]. by apply loop_return.
    + destruct Hinv' as [_ _ _ Hle]. lia.
  - destruct (iteration_post preferences st Hdom Hinv)
      as [(r & Hit & Hpost)|(st' & Hit & Hinv' & Hne & Hlen')].
    + exists r. split; [|done].
      intros [|fuel] Hfuel; [lia|]. by apply loop_return.
    + destruct (IH st' Hinv') as (r & Hloop & Hpost); [lia|].
      exists r. split; [|by eapply irv_post_rounds].
      intros [|fuel] Hfuel; [lia|].
      rewrite (loop_continue _ _ _ _ Hit). apply Hloop. lia.
Qed.

(** Four iterations always suffice, and more change nothing. *)
Lemma irv_compute_Ok preferences :
  in_domain preferences →
  ∃ r, (∀ fuel, (4 ≤ fuel)%nat → IRVRule.compute fuel preferences = Ok r) ∧
       irv_post preferences IRVRule.initial r.
Proof.
  intros Hdom.
  destruct (loop_Ok preferences Hdom 3 IRVRule.initial irv_inv_initial)
    as (r & Hloop & Hpost); [cbn; lia|].
  exists r. split; [|done]. intros fuel Hfuel. apply Hloop. lia.
Qed.

(** The elimination order a returned result reports: no candidate
    twice, four at most, the winner not among them. *)
Lemma irv_post_order preferences st0 r :
  irv_post preferences st0 r →
  ∃ E, aux r !! "elimination_order"%string = Some (ACands E) ∧
       NoDup E ∧ (∀ c, c ∈ E → (c < 5)%nat) ∧ (length E ≤ 4)%nat ∧
       (preferences = [] ↔ winner r = None) ∧
       ∀ w, winner r = Some w → (w < 5)%nat ∧ w ∉ E.
Proof.
  intros (final & _ & [Hact Hnd Hrange Hlen] & _ & Hcases).
  cbn zeta in Hcases.
  destruct Hcases
    as [(-> & -> & ->)
       |[(Hne & w & m & Hw5 & Hw & _ & _ & ->)
        |(Hne & w & e & Hw5 & Hw & Hwe & He5 & He & HE & ->)]];
    cbn [aux winner].
  - eexists. split; [by simplify_map_eq|].
    split; [done|]. split; [done|]. split; [lia|]. split; [done|].
    by intros w ?.
  - eexists. split; [by simplify_map_eq|].
    split; [done|]. split; [done|]. split; [lia|]. split; [done|].
    by intros ? [= <-].
  - eexists. split; [by simplify_map_eq|].
    split; [by apply NoDup_snoc|].
    split; [intros c [Hc| ->%list_elem_of_singleton]%elem_of_app; auto|].
    split; [rewrite length_app; cbn; lia|]. split; [done|].
    intros ? [= <-]. split; [done|].
    rewrite not_elem_of_app, list_elem_of_singleton. done.
Qed.

End IRVLoop.
(** ** The [int32] pairwise matrix at 2^31 ballots *)

Section Overflow.

Lemma preferring_replicate n row a b :
  prefers row a b →
  preferring (replicate n row) a b = Z.of_nat n.
Proof.
  intros Hab. induction n as [|n IH]; [done|].
  change (replicate (S n) row) with (row :: replicate n row).
  rewrite preferring_cons, IH, decide_True by done. lia.
Qed.

Lemma preferring_replicate_0 n row a b :
  ¬ prefers row a b →
  preferring (replicate n row) a b = 0.
Proof.
  intros Hab. induction n as [|n IH]; [done|].
  change (replicate (S n) row) with (row :: replicate n row).
  rewrite preferring_cons, IH, decide_False by done. lia.
Qed.

(** The first cell written, [wins[0][1]], already overflows when 2^31
    ballots or more rank A above B. *)
Lemma build_wins_overflow preferences ranks :
  Forall2 ranks_of preferences ranks →
  2 ^ 31 ≤ preferring preferences 0%nat 1%nat →
  CondorcetRule.build_wins ranks = Raise OverflowError.
Proof.
  intros Hranks Hbig. unfold CondorcetRule.build_wins.
  cbn [for_loop seq]. rewrite decide_True by done. run.
  rewrite decide_False by done.
  unfold CondorcetRule.set_cell, np.int32.
  rewrite (count_less_preferring preferences ranks 0 1 Hranks) by lia.
  rewrite (decide_False
             (P := - 2 ^ 31 ≤ preferring preferences 0%nat 1%nat < 2 ^ 31))
    by lia.
  reflexivity.
Qed.

Lemma condorcet_overflow uninitialised preferences :
  in_domain preferences →
  2 ^ 31 ≤ preferring preferences 0%nat 1%nat →
  CondorcetRule.compute uninitialised preferences = Raise OverflowError.
Proof.
  intros Hdom Hbig. unfold CondorcetRule.compute.
  destruct (build_ranks_Ok uninitialised preferences 0 Hdom)
    as (ranks & -> & Hranks).
  run. by rewrite (build_wins_overflow preferences ranks Hranks Hbig).
Qed.

Lemma overflowing_ballots_in_domain : in_domain overflowing_ballots.
Proof.
  apply Forall_replicate. by compute_done.
Qed.

Lemma overflowing_ballots_first :
  preferring overflowing_ballots 0%nat 1%nat = 2 ^ 31.
Proof.
  unfold overflowing_ballots.
  rewrite preferring_replicate by (by compute_done).
  by rewrite Z2Nat.id.
Qed.

Lemma overflowing_ballots_raise uninitialised :
  CondorcetRule.compute uninitialised overflowing_ballots =
  Raise OverflowError.
Proof.
  apply condorcet_overflow; [apply overflowing_ballots_in_domain|].
  rewrite overflowing_ballots_first. done.
Qed.

End Overflow.

(** ** The round that returns *)

Section IRVReturn.

Lemma complete_order_active_after E :
  NoDup E → complete_order (active_after E) E.
Proof.
  intros Hnd. split; [done|]. intros c Hc.
  rewrite active_after_lookup by done. split.
  - intros Hin. f_equal. apply bool_decide_eq_false. tauto.
  - intros [= Hf%bool_decide_eq_false]. by apply dec_stable.
Qed.

Lemma round_counts_length active preferences :
  length (round_counts active preferences) = 5%nat.
Proof. unfold round_counts. by rewrite length_fmap, length_seq. Qed.

(** A round that returns after eliminating a candidate found no
    strict majority in its counts. *)
Lemma iteration_last_standing preferences st r e :
  in_domain preferences → irv_inv st →
  IRVRule.iteration preferences st = Ok (IRVRule.Return r) →
  aux r !! "elimination_order"%string =
    Some (ACands (IRVRule.elimination_order st ++ [e])) →
  let counts := round_counts (IRVRule.active st) preferences in
  ∀ c m, counts !! c = Some m → m * 2 ≤ np.sum counts.
Proof.
  intros Hdom [Hact Hnd Hrange Hlen] Hit Hs counts c m Hm.
  set (E := IRVRule.elimination_order st) in *.
  assert (∀ e', E ≠ E ++ [e']) as Hgrow.
  { intros e' Heq%(f_equal length). rewrite length_app in Heq.
    cbn in Heq. lia. }
  unfold counts in *. clear counts. rewrite Hact in Hm |- *.
  unfold IRVRule.iteration in Hit. rewrite Hact in Hit.
  rewrite first_choices_Ok in Hit
    by (rewrite active_after_length; by apply in_domain_lt).
  run_in Hit.
  pose proof (bincount_round_counts (active_after E) preferences eq_refl)
    as Hbins.
  destruct (omap (top_active (active_after E)) preferences)
    as [|x fc] eqn:Hfc.
  { injection Hit as <-. cbn [aux] in Hs.
    rewrite lookup_singleton_eq in Hs. injection Hs as Hs.
    by destruct (Hgrow e). }
  rewrite Hbins in Hit.
  set (counts := round_counts (active_after E) preferences) in *.
  case_decide.
  { injection Hit as <-. cbn [aux] in Hs.
    rewrite lookup_singleton_eq in Hs. injection Hs as Hs.
    by destruct (Hgrow e). }
  destruct (np.amax counts) as [mx| |] eqn:Hmx; [|done..]. run_in Hit.
  case_decide as Hmaj.
  { destruct (np.argmax counts) as [w| |]; [|done..]. run_in Hit.
    injection Hit as <-. cbn [aux] in Hs. simplify_map_eq.
    by destruct (Hgrow e). }
  destruct (amax_Ok counts mx Hmx) as [_ Hle].
  specialize (Hle m ltac:(apply list_elem_of_lookup; eauto)). lia.
Qed.

End IRVReturn.

(** ** The progressive loop *)

Section Engine.

Lemma permutations_ballots :
  Forall is_ballot (itertools.permutations (seq 0 5)).
Proof. by compute_done. Qed.

Lemma permutations_length :
  length (itertools.permutations (seq 0 5)) = 120%nat.
Proof. reflexivity. Qed.

(** One draw is one ballot; the generator keeps its table. *)
Lemma sample_one {Rng} (integers : Rng → nat → nat → list nat * Rng)
    (g : PreferenceGenerator.t Rng) :
  draws_in_range integers →
  generator_ready g →
  ∃ b g', PreferenceGenerator.sample integers g 1 = Ok ([b], g') ∧
          is_ballot b ∧ generator_ready g'.
Proof.
  unfold generator_ready. intros integers_in_range Hg. unfold PreferenceGenerator.sample.
  rewrite Hg, permutations_length.
  destruct (integers_in_range (PreferenceGenerator.rng g) 120%nat 1%nat)
    as [Hlen Hlt];
    [lia|].
  destruct (integers _ 120%nat 1%nat) as [idx rng'].
  cbn [fst] in Hlen, Hlt.
  destruct idx as [|i [|? ?]]; try done.
  apply Forall_cons in Hlt as [Hi _].
  destruct (lookup_lt_is_Some_2 (itertools.permutations (seq 0 5)) i)
    as [b Hb]; [by rewrite permutations_length|].
  exists b, (PreferenceGenerator.mk (PreferenceGenerator.candidates g) rng'
               (itertools.permutations (seq 0 5))).
  cbn [mapM]. rewrite (proj2 (getitem_Ok _ _ _) Hb). run.
  split; [done|]. split; [|done].
  eapply (proj1 (Forall_forall _ _) permutations_ballots).
  apply list_elem_of_lookup. eauto.
Qed.

Lemma label_of_display (w : option Candidate) :
  (∀ c, w = Some c → (c < 5)%nat) →
  ProgressiveSimulator.label_of (CandidateSet.labels CandidateSet.default) w =
  Ok (display w).
Proof.
  intros Hw. destruct w as [c|]; [|done].
  specialize (Hw c eq_refl). cbn [ProgressiveSimulator.label_of display].
  do 5 (destruct c as [|c]; [done|]). lia.
Qed.

(** On an in-domain ballot set the winners map is that of the four
    rules, each applied to the whole set. *)
Lemma compute_winners_Ok (np_empty : nat → nat → nat → Z) fuel
    allocation prefs :
  (4 ≤ fuel)%nat →
  in_domain prefs → Z.of_nat (length prefs) < 2 ^ 31 →
  ∃ m, ProgressiveSimulator._compute_winners np_empty fuel allocation prefs
         = Ok m ∧
       winners_of (np_empty allocation) fuel prefs m.
Proof.
  intros enough_fuel Hdom Hn. unfold ProgressiveSimulator._compute_winners.
  destruct (plurality_Ok prefs Hdom) as (pl & wp & Hpl & Hwp & Hp5 & _).
  destruct (borda_Ok prefs Hdom) as (bd & wb & _ & Hbd & Hwb & [Hb5 _] & _).
  destruct (condorcet_Ok (np_empty allocation) prefs Hdom Hn)
    as (cd & Hcd & _ & Hcd_some & _).
  destruct (irv_compute_Ok prefs Hdom) as (ir & Hir & Hpost).
  destruct (irv_post_order _ _ _ Hpost) as (E & _ & _ & _ & _ & _ & Hir5).
  specialize (Hir fuel enough_fuel).
  rewrite Hpl. run. rewrite Hbd. run. rewrite Hcd. run. rewrite Hir. run.
  assert (∀ c, winner pl = Some c → (c < 5)%nat) by (intros; congruence).
  assert (∀ c, winner bd = Some c → (c < 5)%nat) by (intros; congruence).
  assert (∀ c, winner cd = Some c → (c < 5)%nat)
    by (intros c Hc; by apply Hcd_some in Hc as [Hc _]).
  assert (∀ c, winner ir = Some c → (c < 5)%nat)
    by (intros c Hc; by apply Hir5 in Hc as [Hc _]).
  rewrite !label_of_display by done. run. eexists. split; [done|].
  exists pl, bd, cd, ir. repeat (split; [done|]).
  split; [by repeat apply Forall_cons_2|done].
Qed.

Lemma records_app {R} (c1 c2 : list (DataRecorder.chunk R)) :
  DataRecorder.records (c1 ++ c2) =
  DataRecorder.records c1 ++ DataRecorder.records c2.
Proof. unfold DataRecorder.records. apply omap_app. Qed.

Lemma previous_ballots_app {Timestamp}
    (recs more : list (ProgressiveSimulator.StepRecord Timestamp)) k :
  (k ≤ length recs)%nat →
  previous_ballots (recs ++ more) k = previous_ballots recs k.
Proof.
  intros Hk. destruct k as [|k]; [done|]. cbn [previous_ballots].
  by rewrite lookup_app_l by lia.
Qed.

(** One step of the run: one more ballot, one more record. *)
Lemma run_step_Ok {Rng Timestamp}
    (integers : Rng → nat → nat → list nat * Rng)
    (time_time : nat → Timestamp) (np_empty : nat → nat → nat → Z)
    fuel run cfg s k :
  draws_in_range integers → (4 ≤ fuel)%nat →
  Z.of_nat (S k) < 2 ^ 31 →
  run_inv np_empty fuel run cfg s k →
  ∃ s', ProgressiveSimulator.run_step integers time_time np_empty fuel
          run s (S k) = Ok s' ∧
        run_inv np_empty fuel run cfg s' (S k).
Proof.
  intros Hdraws Hfuel Hbound.
  destruct s as [self prefs_all]. cbn [fst snd].
  intros (Hcfg & Hgen & Hlen & Hdom & content & Hfile & Hrecs & Hprev & Hall).
  cbn [fst snd] in *.
  unfold ProgressiveSimulator.run_step.
  destruct (sample_one integers _ Hdraws Hgen) as (b & g' & -> & Hb & Hgen').
  run.
  assert (in_domain (prefs_all ++ [b])) as Hdom'.
  { apply Forall_app. split; [done|]. by constructor. }
  assert (length (prefs_all ++ [b]) = S k) as Hlen'
    by (rewrite length_app; cbn; lia).
  destruct (compute_winners_Ok np_empty fuel
              (ProgressiveSimulator.allocations self) (prefs_all ++ [b]))
    as (m & -> & Hm); [done | done | by rewrite Hlen' |].
  run. eexists. split; [done|]. cbn [fst snd ProgressiveSimulator.config
    ProgressiveSimulator.pref_gen ProgressiveSimulator.recorder].
  split; [done|]. split; [done|]. split; [done|]. split; [done|].
  unfold DataRecorder.append_step. rewrite Hfile.
  change (default [] (Some content)) with content.
  eexists. split; [apply lookup_insert_eq|].
  rewrite records_app.
  set (rec := ProgressiveSimulator.mkStepRecord _ _ _ _ _).
  assert (DataRecorder.records
            (DataRecorder.Dumped rec ::
             (if bool_decide (S k = ProgressiveSimulator.max_voters
                                       (ProgressiveSimulator.config self))
              then [] else [DataRecorder.Separator])) = [rec]) as ->
    by (by case_bool_decide).
  split; [rewrite length_app; cbn; lia|]. split.
  - cbn [previous_ballots].
    by rewrite lookup_app_r, Hrecs, Nat.sub_diag by lia.
  - intros i r Hr.
    destruct (decide (i < k)%nat) as [Hi|Hi].
    + rewrite lookup_app_l in Hr by lia.
      destruct (Hall i r Hr) as (? & ? & ? & ? & Hgrow & ?).
      repeat (split; [done|]). split; [|done].
      by rewrite previous_ballots_app by lia.
    + assert (i = k) as ->.
      { apply lookup_lt_Some in Hr. rewrite length_app in Hr. cbn in Hr. lia. }
      rewrite lookup_app_r, Hrecs, Nat.sub_diag in Hr by lia.
      injection Hr as <-. cbn.
      repeat (split; [done|]). split; [|eauto].
      exists b. split; [done|].
      by rewrite previous_ballots_app, Hprev by lia.
Qed.

(** The steps [k + 1], ..., [k + j] of the run. *)
Lemma run_loop_Ok {Rng Timestamp}
    (integers : Rng → nat → nat → list nat * Rng)
    (time_time : nat → Timestamp) (np_empty : nat → nat → nat → Z)
    fuel run cfg j : ∀ k s,
  draws_in_range integers → (4 ≤ fuel)%nat →
  Z.of_nat (k + j) < 2 ^ 31 →
  run_inv np_empty fuel run cfg s k →
  ∃ s', for_loop (ProgressiveSimulator.run_step integers time_time np_empty
                    fuel run) s (seq (S k) j) = Ok s' ∧
        run_inv np_empty fuel run cfg s' (k + j).
Proof.
  induction j as [|j IH]; intros k s Hdraws Hfuel Hbound Hinv.
  - exists s. split; [done|]. by rewrite Nat.add_0_r.
  - destruct (run_step_Ok integers time_time np_empty fuel run cfg s k)
      as (s1 & Hs1 & Hinv1); [done | done | lia | done |].
    destruct (IH (S k) s1) as (s' & Hs' & Hinv'); [done | done | lia | done |].
    exists s'. cbn [seq for_loop]. rewrite Hs1. run.
    split; [done|]. by replace (k + S j)%nat with (S k + j)%nat by lia.
Qed.

End Engine.

(** ** The scenarios of the specification, evaluated on the embedding *)

(** The single ballot A > B > C > D > E: A wins under every rule. *)
Example single_ballot_scenario :
  returned_winner (PluralityRule.compute one_ballot) = Some (Some 0%nat) ∧
  returned_winner (BordaRule.compute one_ballot) = Some (Some 0%nat) ∧
  returned_aux "scores" (BordaRule.compute one_ballot) =
    Some (AInts [4; 3; 2; 1; 0]) ∧
  returned_winner (CondorcetRule.compute stale_memory one_ballot) =
    Some (Some 0%nat) ∧
  returned_winner (IRVRule.compute 1 one_ballot) = Some (Some 0%nat) ∧
  returned_aux "elimination_order" (IRVRule.compute 1 one_ballot) =
    Some (ACands []).
Proof. by vm_compute. Qed.

(** Three ballots with A, B and C first once each: Plurality ties and
    picks A; A beats B and C 2 to 1 and is the Condorcet winner. *)
Example three_ballots_scenario :
  returned_winner (PluralityRule.compute three_ballots) = Some (Some 0%nat) ∧
  returned_aux "counts" (PluralityRule.compute three_ballots) =
    Some (AInts [1; 1; 1; 0; 0]) ∧
  returned_aux "tie" (PluralityRule.compute three_ballots) =
    Some (ABool true) ∧
  returned_winner (CondorcetRule.compute stale_memory three_ballots) =
    Some (Some 0%nat) ∧
  returned_aux "wins" (CondorcetRule.compute stale_memory three_ballots) =
    Some (AMatrix [[0; 2; 2; 3; 3]; [1; 0; 2; 3; 3]; [1; 1; 0; 3; 3];
                   [0; 0; 0; 0; 3]; [0; 0; 0; 0; 0]]).
Proof. by vm_compute. Qed.

(** A tie between B and C resolves to B, whatever the order of the
    ballots. *)
Example tie_scenario :
  returned_winner (PluralityRule.compute tied_ballots) = Some (Some 1%nat) ∧
  returned_winner (PluralityRule.compute (reverse tied_ballots)) =
    Some (Some 1%nat).
Proof. by vm_compute. Qed.

(** A full five-way tie resolves to A under Plurality and under Borda. *)
Example five_way_tie_scenario :
  returned_aux "counts" (PluralityRule.compute rotated_ballots) =
    Some (AInts [1; 1; 1; 1; 1]) ∧
  returned_winner (PluralityRule.compute rotated_ballots) = Some (Some 0%nat) ∧
  returned_aux "scores" (BordaRule.compute rotated_ballots) =
    Some (AInts [10; 10; 10; 10; 10]) ∧
  returned_winner (BordaRule.compute rotated_ballots) = Some (Some 0%nat).
Proof. by vm_compute. Qed.

(** On the tied ballots the runoff needs all four iterations: three are
    not enough, and the fourth elimination leaves C standing. *)
Example four_iterations_needed :
  IRVRule.compute 3 tied_ballots = Unfinished ∧
  returned_winner (IRVRule.compute 4 tied_ballots) = Some (Some 2%nat) ∧
  returned_aux "elimination_order" (IRVRule.compute 4 tied_ballots) =
    Some (ACands [0; 3; 4; 1]%nat).
Proof. by vm_compute. Qed.

(** * The claims *)

Lemma pairwise_matrix_cell f a b :
  (a < 5)%nat → (b < 5)%nat →
  cell (pairwise_matrix f) a b = if decide (a = b) then 0 else f a b.
Proof.
  intros Ha Hb. unfold cell.
  do 5 (destruct a as [|a]; [do 5 (destruct b as [|b]; [done|]); lia|]).
  lia.
Qed.

(** C1 fails as stated: among 2^31 copies of the ballot A > B > C > D > E
    candidate A, and only A, wins every pairwise contest, yet no winner
    is returned: the count 2^31 does not fit the [int32] cell
    [wins[0][1]] and [OverflowError] is raised. *)
Lemma condorcet_overflow_counterexample :
  in_domain overflowing_ballots ∧
  beats_all_others overflowing_ballots 0%nat ∧
  (∀ a, beats_all_others overflowing_ballots a → a = 0%nat) ∧
  CondorcetRule.compute stale_memory overflowing_ballots = Raise OverflowError.
Proof.
  split; [apply overflowing_ballots_in_domain|].
  assert (beats_all_others overflowing_ballots 0%nat) as Hbeats.
  { split; [lia|]. intros b Hb Hne. unfold overflowing_ballots.
    rewrite (preferring_replicate_0 _ _ b 0%nat), preferring_replicate.
    - lia.
    - do 5 (destruct b as [|b]; [done || by compute_done|]). lia.
    - do 5 (destruct b as [|b]; [done || by compute_done|]). lia. }
  split; [done|]. split.
  - intros a Ha. by apply (beats_all_others_unique overflowing_ballots a 0%nat).
  - apply overflowing_ballots_raise.
Qed.

(** C1, amended: on an in-domain set of fewer than 2^31 ballots (the
    pairwise matrix is [int32]), [CondorcetRule.compute] returns winner
    [a] exactly when [a] is the one candidate that wins every pairwise
    contest by a strict majority; the returned winner has
    [wins[a][b] > wins[b][a]] for every other [b]; when no candidate
    qualifies the winner is absent. *)
Theorem condorcet_winner_iff (uninitialised : nat → nat → Z)
    (preferences : PreferenceArray) :
  in_domain preferences →
  Z.of_nat (length preferences) < 2 ^ 31 →
  ∃ r wins,
    CondorcetRule.compute uninitialised preferences = Ok r ∧
    aux r !! "wins"%string = Some (AMatrix wins) ∧
    (∀ a, winner r = Some a ↔
          beats_all_others preferences a ∧
          ∀ a', beats_all_others preferences a' → a' = a) ∧
    (∀ a, winner r = Some a →
          ∀ b, (b < 5)%nat → b ≠ a → cell wins a b > cell wins b a) ∧
    (winner r = None ↔ ¬ ∃ a, beats_all_others preferences a).
Proof.
  intros Hdom Hn.
  destruct (condorcet_Ok uninitialised preferences Hdom Hn)
    as (r & Hr & Hwins & Hsome & Hnone).
  exists r, (pairwise_matrix (preferring preferences)).
  split; [done|]. split; [done|]. split; [|split].
  - intros a. rewrite Hsome. split.
    + intros Ha. split; [done|]. intros a' Ha'.
      by eapply beats_all_others_unique.
    + by intros [Ha _].
  - intros a [Ha Hall]%Hsome b Hb Hne.
    rewrite !pairwise_matrix_cell by done.
    rewrite decide_False, decide_False by done.
    specialize (Hall b Hb Hne). lia.
  - rewrite Hnone. split.
    + intros Hall [a Ha]. by apply (Hall a).
    + intros Hex a Ha. apply Hex. eauto.
Qed.

Lemma condorcet_winner_iff_witness :
  in_domain three_ballots ∧
  Z.of_nat (length three_ballots) < 2 ^ 31 ∧
  ∃ r wins,
    CondorcetRule.compute stale_memory three_ballots = Ok r ∧
    aux r !! "wins"%string = Some (AMatrix wins) ∧
    (∀ a, winner r = Some a ↔
          beats_all_others three_ballots a ∧
          ∀ a', beats_all_others three_ballots a' → a' = a) ∧
    (∀ a, winner r = Some a →
          ∀ b, (b < 5)%nat → b ≠ a → cell wins a b > cell wins b a) ∧
    (winner r = None ↔ ¬ ∃ a, beats_all_others three_ballots a).
Proof.
  split; [by compute_done|]. split; [reflexivity|].
  apply condorcet_winner_iff; [by compute_done | reflexivity].
Defined.

(** C2: on an in-domain set of n ballots, the Borda scores add up to 10 n,
    and [total_points] and [expected_total_points] are both 10 n. *)
Theorem borda_total_points (preferences : PreferenceArray) :
  in_domain preferences →
  ∃ r scores,
    BordaRule.compute preferences = Ok r ∧
    aux r !! "scores"%string = Some (AInts scores) ∧
    np.sum scores = Z.of_nat (length preferences) * 10 ∧
    aux r !! "total_points"%string =
      Some (AInt (Z.of_nat (length preferences) * 10)) ∧
    aux r !! "expected_total_points"%string =
      Some (AInt (Z.of_nat (length preferences) * 10)).
Proof.
  intros Hdom.
  destruct (borda_Ok preferences Hdom)
    as (r & w & scores & Hr & _ & _ & Hscores & Hsum & Htotal & Hexpected).
  by exists r, scores.
Qed.

Lemma borda_total_points_witness :
  in_domain three_ballots ∧
  ∃ r scores,
    BordaRule.compute three_ballots = Ok r ∧
    aux r !! "scores"%string = Some (AInts scores) ∧
    np.sum scores = Z.of_nat (length three_ballots) * 10 ∧
    aux r !! "total_points"%string =
      Some (AInt (Z.of_nat (length three_ballots) * 10)) ∧
    aux r !! "expected_total_points"%string =
      Some (AInt (Z.of_nat (length three_ballots) * 10)).
Proof.
  split; [by compute_done|].
  apply borda_total_points. by compute_done.
Defined.

(** C5: on every in-domain ballot set, the empty one included, Plurality
    returns the smallest candidate id among those with the most first
    places and Borda the smallest id among those with the highest Borda
    score; neither winner is ever absent. *)
Theorem plurality_borda_winner (preferences : PreferenceArray) :
  in_domain preferences →
  ∃ rp wp rb wb,
    PluralityRule.compute preferences = Ok rp ∧
    winner rp = Some wp ∧
    least_maximiser (first_place_count preferences) wp ∧
    BordaRule.compute preferences = Ok rb ∧
    winner rb = Some wb ∧
    least_maximiser (borda_score preferences) wb.
Proof.
  intros Hdom.
  destruct (plurality_Ok preferences Hdom) as (rp & wp & Hrp & Hwp & Hp).
  destruct (borda_Ok preferences Hdom) as (rb & wb & _ & Hrb & Hwb & Hb & _).
  by exists rp, wp, rb, wb.
Qed.

Lemma plurality_borda_winner_witness :
  in_domain tied_ballots ∧
  ∃ rp wp rb wb,
    PluralityRule.compute tied_ballots = Ok rp ∧
    winner rp = Some wp ∧
    least_maximiser (first_place_count tied_ballots) wp ∧
    BordaRule.compute tied_ballots = Ok rb ∧
    winner rb = Some wb ∧
    least_maximiser (borda_score tied_ballots) wb.
Proof.
  split; [by compute_done|].
  apply plurality_borda_winner. by compute_done.
Defined.

(** C10 fails as stated: on the 2^31 copies of the ballot
    A > B > C > D > E the count of ballots ranking A above B is 2^31,
    outside the range of an [int32] cell, and no pairwise matrix is
    built: [OverflowError] is raised while it is filled. *)
Lemma pairwise_matrix_counterexample :
  in_domain overflowing_ballots ∧
  preferring overflowing_ballots 0%nat 1%nat = 2 ^ 31 ∧
  ¬ (- 2 ^ 31 ≤ preferring overflowing_ballots 0%nat 1%nat < 2 ^ 31) ∧
  returned_aux "wins" (CondorcetRule.compute stale_memory overflowing_ballots)
    = None.
Proof.
  split; [apply overflowing_ballots_in_domain|].
  split; [apply overflowing_ballots_first|].
  split; [rewrite overflowing_ballots_first; lia|].
  by rewrite overflowing_ballots_raise.
Qed.

(** C10, amended: on an in-domain set of n ballots, n below 2^31 (the
    matrix is [int32]), the pairwise matrix has
    [wins[a][b] + wins[b][a] = n] off the diagonal and 0 on it, so the
    code's test [wins[a][b] > n - wins[a][b]] is [wins[a][b] > wins[b][a]],
    and at most one candidate passes it against every other. *)
Theorem pairwise_matrix_complement (uninitialised : nat → nat → Z)
    (preferences : PreferenceArray) :
  in_domain preferences →
  Z.of_nat (length preferences) < 2 ^ 31 →
  let n := Z.of_nat (length preferences) in
  ∃ r wins,
    CondorcetRule.compute uninitialised preferences = Ok r ∧
    aux r !! "wins"%string = Some (AMatrix wins) ∧
    (∀ a b, (a < 5)%nat → (b < 5)%nat → a ≠ b →
            cell wins a b + cell wins b a = n) ∧
    (∀ a, (a < 5)%nat → cell wins a a = 0) ∧
    (∀ a b, (a < 5)%nat → (b < 5)%nat → a ≠ b →
            cell wins a b > n - cell wins a b ↔ cell wins a b > cell wins b a) ∧
    (∀ a a', (a < 5)%nat → (a' < 5)%nat →
             CondorcetRule.beats_every_other n wins a = true →
             CondorcetRule.beats_every_other n wins a' = true →
             a = a').
Proof.
  intros Hdom Hn n.
  destruct (condorcet_Ok uninitialised preferences Hdom Hn)
    as (r & Hr & Hwins & _).
  exists r, (pairwise_matrix (preferring preferences)).
  split; [done|]. split; [done|].
  assert (∀ a b, (a < 5)%nat → (b < 5)%nat → a ≠ b →
            cell (pairwise_matrix (preferring preferences)) a b +
            cell (pairwise_matrix (preferring preferences)) b a = n) as Hsum.
  { intros a b Ha Hb Hne. rewrite !pairwise_matrix_cell by done.
    rewrite decide_False, decide_False by done.
    by apply preferring_complement. }
  split; [done|]. split; [|split].
  - intros a Ha. rewrite pairwise_matrix_cell by done. by rewrite decide_True.
  - intros a b Ha Hb Hne. specialize (Hsum a b Ha Hb Hne). lia.
  - intros a a' Ha Ha' Htest Htest'.
    destruct (decide (a = a')) as [|Hne]; [done|]. exfalso.
    pose proof (proj1 (beats_every_other_spec n _ a Ha) Htest a' Ha'
                  ltac:(congruence)) as H1.
    pose proof (proj1 (beats_every_other_spec n _ a' Ha') Htest' a Ha Hne)
      as H2.
    specialize (Hsum a a' Ha Ha' Hne).
    rewrite !pairwise_matrix_cell in Hsum by done.
    rewrite decide_False, decide_False in Hsum by done. lia.
Qed.

Lemma pairwise_matrix_complement_witness :
  in_domain three_ballots ∧
  Z.of_nat (length three_ballots) < 2 ^ 31 ∧
  let n := Z.of_nat (length three_ballots) in
  ∃ r wins,
    CondorcetRule.compute stale_memory three_ballots = Ok r ∧
    aux r !! "wins"%string = Some (AMatrix wins) ∧
    (∀ a b, (a < 5)%nat → (b < 5)%nat → a ≠ b →
            cell wins a b + cell wins b a = n) ∧
    (∀ a, (a < 5)%nat → cell wins a a = 0) ∧
    (∀ a b, (a < 5)%nat → (b < 5)%nat → a ≠ b →
            cell wins a b > n - cell wins a b ↔ cell wins a b > cell wins b a) ∧
    (∀ a a', (a < 5)%nat → (a' < 5)%nat →
             CondorcetRule.beats_every_other n wins a = true →
             CondorcetRule.beats_every_other n wins a' = true →
             a = a').
Proof.
  split; [by compute_done|]. split; [reflexivity|].
  apply pairwise_matrix_complement; [by compute_done | reflexivity].
Defined.

(** C3: the runoff loop terminates.  An iteration that does not return
    eliminates exactly one candidate, an active one, so the active set
    shrinks; on an in-domain ballot set four iterations are always enough,
    at most four candidates are eliminated, and the round that returns
    does so by one of the three terminal conditions: no vote to count, a
    strict majority ([count * 2 > total]), or a single candidate left
    active after its elimination. *)
Theorem irv_terminates (preferences : PreferenceArray) :
  in_domain preferences →
  (∀ st st',
     IRVRule.iteration preferences st = Ok (IRVRule.Continue st') →
     ∃ e, IRVRule.active st !! e = Some true ∧
          IRVRule.active st' = <[e := false]> (IRVRule.active st) ∧
          IRVRule.elimination_order st' = IRVRule.elimination_order st ++ [e] ∧
          (np.count_true (IRVRule.active st') <
           np.count_true (IRVRule.active st))%nat) ∧
  ∃ r final E,
    (∀ fuel, (4 ≤ fuel)%nat → IRVRule.compute fuel preferences = Ok r) ∧
    rounds preferences IRVRule.initial final ∧
    IRVRule.iteration preferences final = Ok (IRVRule.Return r) ∧
    aux r !! "elimination_order"%string = Some (ACands E) ∧
    (length E ≤ 4)%nat ∧
    let counts := round_counts (IRVRule.active final) preferences in
    ((winner r = None ∧ np.sum counts = 0) ∨
     (∃ w m, winner r = Some w ∧ counts !! w = Some m ∧ m * 2 > np.sum counts) ∨
     (∃ w e, winner r = Some w ∧
             E = IRVRule.elimination_order final ++ [e] ∧
             np.count_true (<[e := false]> (IRVRule.active final)) = 1%nat ∧
             <[e := false]> (IRVRule.active final) !! w = Some true)).
Proof.
  intros Hdom. split.
  - intros st st' Hit.
    destruct (iteration_Continue preferences st st' Hit)
      as (e & He & Hact & Helim & Hcount).
    exists e. repeat (split; [done|]). lia.
  - destruct (irv_compute_Ok preferences Hdom)
      as (r & Hr & final & Hrounds & [Hact Hnd Hrange Hlen] & Hret & Hcases).
    cbn zeta in Hcases.
    destruct Hcases
      as [(-> & -> & ->)
         |[(Hne & w & m & Hw5 & Hw & Hm & Hmaj & ->)
          |(Hne & w & e & Hw5 & Hw & Hwe & He5 & He & HE & ->)]].
    + eexists _, IRVRule.initial, []. repeat (split; [done|]).
      split; [cbn; lia|]. left. by split.
    + eexists _, final, (IRVRule.elimination_order final).
      cbn [aux winner]. repeat (split; [done|]). split; [lia|].
      right. left. by exists w, m.
    + eexists _, final, (IRVRule.elimination_order final ++ [e]).
      cbn [aux winner]. repeat (split; [done|]).
      split; [rewrite length_app; cbn; lia|].
      right. right. exists w, e. split; [done|]. split; [done|].
      rewrite Hact, <- active_after_snoc.
      assert (∀ c, c ∈ IRVRule.elimination_order final ++ [e] → (c < 5)%nat)
        as Hrange'
        by (intros c [Hc| ->%list_elem_of_singleton]%elem_of_app; auto).
      pose proof (active_after_count _ (NoDup_snoc _ _ Hnd He) Hrange')
        as Hcount.
      rewrite length_app in Hcount. cbn [length] in Hcount. split.
      * lia.
      * apply active_after_true. split; [done|].
        rewrite not_elem_of_app, list_elem_of_singleton. done.
Qed.

Lemma irv_terminates_witness :
  in_domain tied_ballots ∧
  ∃ r E,
    (∀ fuel, (4 ≤ fuel)%nat → IRVRule.compute fuel tied_ballots = Ok r) ∧
    aux r !! "elimination_order"%string = Some (ACands E) ∧
    (length E ≤ 4)%nat.
Proof.
  assert (in_domain tied_ballots) as Hdom by by compute_done.
  split; [done|].
  destruct (irv_terminates tied_ballots Hdom)
    as (_ & r & final & E & Hr & _ & _ & HE & Hlen & _).
  by exists r, E.
Defined.

(** C4 fails as stated: on the single ballot A > B > C > D > E the first
    round gives A a strict majority, so A wins with nobody eliminated, and
    B, C, D and E are neither the winner nor eliminated. *)
Lemma irv_union_counterexample :
  in_domain one_ballot ∧
  ∃ r, IRVRule.compute 4 one_ballot = Ok r ∧
       winner r = Some 0%nat ∧
       aux r !! "elimination_order"%string = Some (ACands []) ∧
       ¬ covers_all_candidates 0 [].
Proof.
  split; [by compute_done|].
  eexists. split; [reflexivity|]. cbn [winner aux].
  split; [done|]. split; [done|].
  intros H. specialize (H 1%nat ltac:(lia)).
  apply elem_of_cons in H as [H|H]; [done | by apply elem_of_nil in H].
Qed.

(** C4, amended: the elimination order has no repeated candidate and at
    most four entries, and a returned winner is a candidate that is not
    in it.  A winner returned without a strict majority of the final
    round's counts is the last candidate left active once that round
    has eliminated one: the winner and the eliminated candidates then
    make up the full candidate set.  A winner returned by strict
    majority ([count * 2 > total]) leaves the elimination order as the
    earlier rounds built it: the candidates in neither set are exactly
    the other candidates still active, and there is at least one. *)
Theorem irv_elimination_order (preferences : PreferenceArray) :
  in_domain preferences →
  ∃ r final E,
    (∀ fuel, (4 ≤ fuel)%nat → IRVRule.compute fuel preferences = Ok r) ∧
    rounds preferences IRVRule.initial final ∧
    IRVRule.iteration preferences final = Ok (IRVRule.Return r) ∧
    aux r !! "elimination_order"%string = Some (ACands E) ∧
    NoDup E ∧ (length E ≤ 4)%nat ∧ (∀ c, c ∈ E → (c < 5)%nat) ∧
    ∀ w, winner r = Some w →
      (w < 5)%nat ∧ (w ∉ E) ∧
      let counts := round_counts (IRVRule.active final) preferences in
      ∃ m, counts !! w = Some m ∧
        (m * 2 ≤ np.sum counts →
           (∃ e, E = IRVRule.elimination_order final ++ [e]) ∧
           covers_all_candidates w E) ∧
        (m * 2 > np.sum counts →
           E = IRVRule.elimination_order final ∧
           (∃ c, (c < 5)%nat ∧ c ≠ w ∧ c ∉ E) ∧
           ∀ c, (c < 5)%nat →
                c ∉ w :: E ↔ c ≠ w ∧ IRVRule.active final !! c = Some true).
Proof.
  intros Hdom.
  destruct (irv_compute_Ok preferences Hdom)
    as (r & Hr & final & Hrounds & Hinv & Hret & Hcases).
  pose proof Hinv as [Hact Hnd Hrange Hlen].
  exists r, final. cbn zeta in Hcases.
  destruct Hcases
    as [(-> & -> & ->)
       |[(Hne & w & m & Hw5 & Hw & Hm & Hmaj & ->)
        |(Hne & w & e & Hw5 & Hw & Hwe & He5 & He & HE & ->)]].
  - exists []. cbn [aux winner]. repeat (split; [done|]).
    split; [cbn; lia|]. split; [by intros c Hc%elem_of_nil|]. done.
  - exists (IRVRule.elimination_order final). cbn [aux winner].
    repeat (split; [done|]). split; [lia|]. split; [done|].
    intros ? [= <-]. split; [done|]. split; [done|].
    exists m. split; [done|]. split; [lia|]. intros _. split; [done|].
    assert (∀ c, (c < 5)%nat →
              c ∉ w :: IRVRule.elimination_order final ↔
              c ≠ w ∧ IRVRule.active final !! c = Some true) as Hleft.
    { intros c Hc. rewrite Hact, active_after_true, not_elem_of_cons. tauto. }
    split; [|done].
    pose proof (active_after_count _ Hnd Hrange) as Hcount.
    destruct (decide (Forall (λ c, c ∈ w :: IRVRule.elimination_order final)
                        (seq 0 5))) as [Hall|Hex].
    + assert (seq 0 5 ⊆+ w :: IRVRule.elimination_order final) as Hsub.
      { apply NoDup_submseteq; [apply NoDup_seq|].
        intros c Hc. by apply (proj1 (Forall_forall _ _) Hall). }
      apply submseteq_length in Hsub. cbn in Hsub. lia.
    + apply not_Forall_Exists in Hex; [|apply _].
      apply Exists_exists in Hex as (c & Hc%elem_of_seq & Hnot).
      cbn in Hnot. exists c. apply not_elem_of_cons in Hnot as [? ?].
      split; [lia|done].
  - exists (IRVRule.elimination_order final ++ [e]). cbn [aux winner].
    repeat (split; [done|]).
    assert (NoDup (IRVRule.elimination_order final ++ [e])) as Hnd'
      by by apply NoDup_snoc.
    assert (∀ c, c ∈ IRVRule.elimination_order final ++ [e] → (c < 5)%nat)
      as Hrange'
      by (intros c [Hc| ->%list_elem_of_singleton]%elem_of_app; auto).
    split; [done|]. split; [rewrite length_app; cbn; lia|]. split; [done|].
    intros ? [= <-]. split; [done|].
    assert (w ∉ IRVRule.elimination_order final ++ [e]) as Hw'
      by (rewrite not_elem_of_app, list_elem_of_singleton; done).
    split; [done|].
    destruct (lookup_lt_is_Some_2
                (round_counts (IRVRule.active final) preferences) w)
      as [m Hm]; [by rewrite round_counts_length|].
    exists m. split; [done|].
    pose proof (iteration_last_standing preferences final _ e Hdom Hinv Hret
                  ltac:(by simplify_map_eq) w m Hm) as Hno.
    split; [|lia]. intros _. split; [by exists e|].
    assert (w :: IRVRule.elimination_order final ++ [e] ⊆+ seq 0 5) as Hsub.
    { apply NoDup_submseteq; [by constructor|].
      intros c [->|Hc]%elem_of_cons; apply elem_of_seq;
        [lia | specialize (Hrange' c Hc); lia]. }
    apply submseteq_length_Permutation in Hsub;
      [|cbn; rewrite length_app; cbn; lia].
    intros c Hc. rewrite Hsub. apply elem_of_seq. lia.
Qed.

Lemma irv_elimination_order_witness :
  in_domain tied_ballots ∧
  ∃ r E,
    (∀ fuel, (4 ≤ fuel)%nat → IRVRule.compute fuel tied_ballots = Ok r) ∧
    aux r !! "elimination_order"%string = Some (ACands E) ∧
    NoDup E ∧ (length E ≤ 4)%nat.
Proof.
  split; [by compute_done|].
  destruct (irv_elimination_order tied_ballots)
    as (r & final & E & Hr & _ & _ & HE & Hnd & Hlen & _); [by compute_done|].
  by exists r, E.
Defined.

(** C6 fails as stated: on the empty ballot set the runoff ends by
    exhaustion and its [aux] holds the elimination order only; there is
    no count vector in it. *)
Lemma irv_exhaustion_counterexample :
  in_domain [] ∧
  ∃ r, IRVRule.compute 4 [] = Ok r ∧
       winner r = None ∧
       aux r !! "elimination_order"%string = Some (ACands []) ∧
       aux r !! "counts"%string = None.
Proof.
  split; [constructor|].
  eexists. split; [reflexivity|]. cbn [winner aux]. by simplify_map_eq.
Qed.

(** C6, amended: when the runoff returns a winner, [aux] holds the count
    vector of the final round (the tally over the candidates active in
    the round that returns) and the complete elimination order: after a
    strict majority, the candidates eliminated in the earlier rounds,
    which are exactly the inactive ones; without one, those followed by
    the candidate the final round eliminates, which are exactly the
    inactive ones once it is out, the winner being the only candidate
    left active.  When the runoff ends by exhaustion, [aux] holds the
    elimination order and nothing else. *)
Theorem irv_aux (preferences : PreferenceArray) :
  in_domain preferences →
  ∃ r final,
    (∀ fuel, (4 ≤ fuel)%nat → IRVRule.compute fuel preferences = Ok r) ∧
    rounds preferences IRVRule.initial final ∧
    IRVRule.iteration preferences final = Ok (IRVRule.Return r) ∧
    let counts := round_counts (IRVRule.active final) preferences in
    let E := IRVRule.elimination_order final in
    complete_order (IRVRule.active final) E ∧
    (∀ w, winner r = Some w →
       ∃ m, counts !! w = Some m ∧
         (m * 2 > np.sum counts →
            aux r = {[ "counts"%string := AInts counts;
                       "elimination_order"%string := ACands E ]}) ∧
         (m * 2 ≤ np.sum counts →
            ∃ e, IRVRule.active final !! e = Some true ∧
                 aux r = {[ "counts"%string := AInts counts;
                            "elimination_order"%string :=
                              ACands (E ++ [e]) ]} ∧
                 complete_order (<[e := false]> (IRVRule.active final))
                   (E ++ [e]) ∧
                 ∀ c, <[e := false]> (IRVRule.active final) !! c = Some true ↔
                      c = w)) ∧
    (winner r = None → aux r = {[ "elimination_order"%string := ACands E ]}).
Proof.
  intros Hdom.
  destruct (irv_compute_Ok preferences Hdom)
    as (r & Hr & final & Hrounds & Hinv & Hret & Hcases).
  pose proof Hinv as [Hact Hnd Hrange Hlen].
  exists r, final. repeat (split; [done|]). cbn zeta in Hcases |- *.
  split; [rewrite Hact; by apply complete_order_active_after|].
  destruct Hcases
    as [(-> & -> & ->)
       |[(Hne & w & m & Hw5 & Hw & Hm & Hmaj & ->)
        |(Hne & w & e & Hw5 & Hw & Hwe & He5 & He & HE & ->)]];
    cbn [aux winner].
  - done.
  - split; [|done]. intros ? [= <-]. exists m. split; [done|].
    split; [done|lia].
  - split; [|done]. intros ? [= <-].
    destruct (lookup_lt_is_Some_2
                (round_counts (IRVRule.active final) preferences) w)
      as [m Hm]; [by rewrite round_counts_length|].
    exists m. split; [done|].
    pose proof (iteration_last_standing preferences final _ e Hdom Hinv Hret
                  ltac:(by simplify_map_eq) w m Hm) as Hno.
    split; [lia|]. intros _. exists e.
    assert (NoDup (IRVRule.elimination_order final ++ [e])) as Hnd'
      by by apply NoDup_snoc.
    assert (∀ c, c ∈ IRVRule.elimination_order final ++ [e] → (c < 5)%nat)
      as Hrange'
      by (intros c [Hc| ->%list_elem_of_singleton]%elem_of_app; auto).
    split; [rewrite Hact; by apply active_after_true|]. split; [done|].
    rewrite Hact, <- active_after_snoc.
    split; [by apply complete_order_active_after|].
    intros c. rewrite active_after_true. split.
    + intros [Hc5 Hc].
      destruct (decide (c = w)) as [|Hcw]; [done|]. exfalso.
      assert (w ∉ IRVRule.elimination_order final ++ [e]) as Hw'
        by (rewrite not_elem_of_app, list_elem_of_singleton; done).
      assert (length (c :: w :: IRVRule.elimination_order final ++ [e]) ≤ 5)%nat
        as Hfive.
      { change 5%nat with (length (seq 0 5)).
        apply submseteq_length. apply NoDup_submseteq.
        - repeat (apply list.NoDup_cons; split); try done.
          rewrite not_elem_of_cons. done.
        - intros x. rewrite !elem_of_cons, elem_of_seq.
          intros [->|[->|Hx]]; [lia|lia|specialize (Hrange' x Hx); lia]. }
      cbn [length] in Hfive. rewrite length_app in Hfive. cbn in Hfive. lia.
    + intros ->. split; [done|].
      rewrite not_elem_of_app, list_elem_of_singleton. done.
Qed.

Lemma irv_aux_witness :
  in_domain three_ballots ∧
  ∃ r final,
    (∀ fuel, (4 ≤ fuel)%nat → IRVRule.compute fuel three_ballots = Ok r) ∧
    rounds three_ballots IRVRule.initial final ∧
    IRVRule.iteration three_ballots final = Ok (IRVRule.Return r) ∧
    complete_order (IRVRule.active final) (IRVRule.elimination_order final).
Proof.
  split; [by compute_done|].
  destruct (irv_aux three_ballots) as (r & final & Hr & Hrounds & Hret & Hc & _);
    [by compute_done|].
  by exists r, final.
Defined.

(** C9: on an in-domain ballot set the runoff returns a winner whenever
    there is at least one ballot; the winner is absent exactly when the
    ballot set is empty. *)
Theorem irv_winner_defined (preferences : PreferenceArray) :
  in_domain preferences →
  ∃ r,
    (∀ fuel, (4 ≤ fuel)%nat → IRVRule.compute fuel preferences = Ok r) ∧
    (preferences ≠ [] → ∃ w, winner r = Some w ∧ (w < 5)%nat) ∧
    (winner r = None ↔ preferences = []).
Proof.
  intros Hdom.
  destruct (irv_compute_Ok preferences Hdom) as (r & Hr & Hpost).
  destruct (irv_post_order _ _ _ Hpost) as (E & _ & _ & _ & _ & Hiff & Hwin).
  exists r. split; [done|]. split; [|done].
  intros Hne. destruct (winner r) as [w|]; [|by destruct Hne; apply Hiff].
  exists w. split; [done|]. by apply Hwin.
Qed.

Lemma irv_winner_defined_witness :
  in_domain three_ballots ∧
  ∃ r,
    (∀ fuel, (4 ≤ fuel)%nat → IRVRule.compute fuel three_ballots = Ok r) ∧
    (three_ballots ≠ [] → ∃ w, winner r = Some w ∧ (w < 5)%nat) ∧
    (winner r = None ↔ three_ballots = []).
Proof.
  split; [by compute_done|].
  apply irv_winner_defined. by compute_done.
Defined.

(** The four rules on the empty ballot set. *)

Example plurality_empty :
  PluralityRule.compute [] =
  Ok (mkRuleResult (Some 0%nat)
        {[ "counts"%string := AInts [0; 0; 0; 0; 0];
           "tie"%string := ABool true ]}).
Proof. reflexivity. Qed.

Example borda_empty :
  BordaRule.compute [] =
  Ok (mkRuleResult (Some 0%nat)
        {[ "scores"%string := AInts [0; 0; 0; 0; 0];
           "total_points"%string := AInt 0;
           "expected_total_points"%string := AInt 0;
           "tie"%string := ABool true ]}).
Proof. reflexivity. Qed.

Example condorcet_empty uninitialised :
  CondorcetRule.compute uninitialised [] =
  Ok (mkRuleResult None
        {[ "wins"%string := AMatrix (replicate 5 [0; 0; 0; 0; 0]) ]}).
Proof. reflexivity. Qed.

Example irv_empty fuel :
  IRVRule.compute (S fuel) [] =
  Ok (mkRuleResult None {[ "elimination_order"%string := ACands [] ]}).
Proof. reflexivity. Qed.

(** C7 fails as stated: the 2^31 copies of the ballot A > B > C > D > E
    are in-domain input, and [CondorcetRule.compute] raises
    [OverflowError] on them instead of returning a result. *)
Lemma condorcet_raises_counterexample :
  in_domain overflowing_ballots ∧
  ¬ ∃ r, CondorcetRule.compute stale_memory overflowing_ballots = Ok r.
Proof.
  split; [apply overflowing_ballots_in_domain|].
  intros [r Hr]. by rewrite overflowing_ballots_raise in Hr.
Qed.

(** C7, amended: Plurality, Borda and the runoff raise on no in-domain
    input, and Condorcet on none of fewer than 2^31 ballots (the bound
    of its [int32] matrix); on the empty ballot set Plurality and Borda
    return candidate 0 (label A) from an all-zero tally in which all
    five tie, Condorcet returns no winner, and the runoff returns no
    winner by exhaustion. *)
Theorem rules_never_raise (uninitialised : nat → nat → Z)
    (preferences : PreferenceArray) :
  in_domain preferences →
  ∃ rp rb ri,
    PluralityRule.compute preferences = Ok rp ∧
    BordaRule.compute preferences = Ok rb ∧
    (∀ fuel, (4 ≤ fuel)%nat → IRVRule.compute fuel preferences = Ok ri) ∧
    (Z.of_nat (length preferences) < 2 ^ 31 →
       ∃ rc, CondorcetRule.compute uninitialised preferences = Ok rc) ∧
    (preferences = [] →
       winner rp = Some 0%nat ∧
       aux rp !! "counts"%string = Some (AInts [0; 0; 0; 0; 0]) ∧
       aux rp !! "tie"%string = Some (ABool true) ∧
       winner rb = Some 0%nat ∧
       aux rb !! "scores"%string = Some (AInts [0; 0; 0; 0; 0]) ∧
       aux rb !! "tie"%string = Some (ABool true) ∧
       (∃ rc, CondorcetRule.compute uninitialised preferences = Ok rc ∧
              winner rc = None) ∧
       winner ri = None ∧
       aux ri = {[ "elimination_order"%string := ACands [] ]}).
Proof.
  intros Hdom.
  destruct (plurality_Ok preferences Hdom) as (rp & wp & Hrp & _).
  destruct (borda_Ok preferences Hdom) as (rb & wb & _ & Hrb & _).
  destruct (irv_compute_Ok preferences Hdom) as (ri & Hri & _).
  exists rp, rb, ri. repeat (split; [done|]). split.
  - intros Hn.
    destruct (condorcet_Ok uninitialised preferences Hdom Hn) as (rc & Hrc & _).
    by exists rc.
  - intros ->. specialize (Hri 4%nat ltac:(lia)).
    rewrite plurality_empty in Hrp. rewrite borda_empty in Hrb.
    rewrite irv_empty in Hri.
    injection Hrp as <-. injection Hrb as <-. injection Hri as <-.
    cbn [winner aux]. simplify_map_eq. repeat (split; [done|]).
    split; [|done]. eexists. by rewrite condorcet_empty.
Qed.

Lemma rules_never_raise_witness :
  in_domain [] ∧
  ∃ rp rb ri,
    PluralityRule.compute [] = Ok rp ∧
    BordaRule.compute [] = Ok rb ∧
    (∀ fuel, (4 ≤ fuel)%nat → IRVRule.compute fuel [] = Ok ri) ∧
    winner rp = Some 0%nat ∧ winner rb = Some 0%nat ∧ winner ri = None.
Proof.
  assert (in_domain []) as Hdom by constructor.
  split; [done|].
  destruct (rules_never_raise stale_memory [] Hdom)
    as (rp & rb & ri & Hrp & Hrb & Hri & _ & Hempty).
  destruct (Hempty eq_refl) as (? & _ & _ & ? & _ & _ & _ & ? & _).
  by exists rp, rb, ri.
Defined.

Example example_simulator_init :
  ProgressiveSimulator.init example_config ∅ 7%nat = Ok example_simulator.
Proof. reflexivity. Qed.

Lemma counting_integers_in_range : draws_in_range counting_integers.
Proof.
  intros g high size Hhigh. unfold counting_integers. cbn [fst]. split.
  - by rewrite length_fmap, length_seq.
  - apply Forall_fmap, Forall_forall. intros i _. cbn.
    apply Nat.mod_upper_bound. lia.
Qed.

(** C8: in every run of the progressive tabulator, step k (k >= 1) emits
    a record whose step index is k, whose snapshot holds k ballots (the
    snapshot of the step before with one more ballot), and whose winners
    map is each of the four rules applied to that whole snapshot, the
    winner (always one of the five candidates) rendered as its display
    label, or as nothing when absent.
    (Stated for a generator whose draws are in range and runs of fewer
    than 2^31 voters.) *)
Theorem progressive_step_records {Rng Timestamp : Type}
    (integers : Rng → nat → nat → list nat * Rng)
    (time_time : nat → Timestamp) (np_empty : nat → nat → nat → Z)
    (fuel : nat) (self : ProgressiveSimulator.t Rng Timestamp) (run : nat) :
  draws_in_range integers →
  (4 ≤ fuel)%nat →
  generator_ready (ProgressiveSimulator.pref_gen self) →
  Z.of_nat (ProgressiveSimulator.max_voters (ProgressiveSimulator.config self))
    < 2 ^ 31 →
  ∃ self' content,
    ProgressiveSimulator._run_single integers time_time np_empty fuel self run
      = Ok self' ∧
    generator_ready (ProgressiveSimulator.pref_gen self') ∧
    ProgressiveSimulator.recorder self' !! run = Some content ∧
    let recs := DataRecorder.records content in
    length recs =
      ProgressiveSimulator.max_voters (ProgressiveSimulator.config self) ∧
    ∀ k, (1 ≤ k ≤ ProgressiveSimulator.max_voters
                    (ProgressiveSimulator.config self))%nat →
      ∃ rec prefs,
        recs !! (k - 1)%nat = Some rec ∧
        ProgressiveSimulator.run_id rec = run ∧
        ProgressiveSimulator.step rec = k ∧
        ProgressiveSimulator.voter_preferences rec = prefs ∧
        length prefs = k ∧
        in_domain prefs ∧
        (∃ b, is_ballot b ∧ prefs = previous_ballots recs (k - 1) ++ [b]) ∧
        ∃ pl bd cd ir allocation,
          PluralityRule.compute prefs = Ok pl ∧
          BordaRule.compute prefs = Ok bd ∧
          CondorcetRule.compute (np_empty allocation) prefs = Ok cd ∧
          IRVRule.compute fuel prefs = Ok ir ∧
          Forall (λ r, ∀ c, winner r = Some c → (c < 5)%nat) [pl; bd; cd; ir] ∧
          ProgressiveSimulator.winners rec =
            {[ "plurality"%string := display (winner pl);
               "borda"%string := display (winner bd);
               "condorcet"%string := display (winner cd);
               "irv"%string := display (winner ir) ]}.
Proof.
  intros Hdraws Hfuel Hgen Hbound.
  set (cfg := ProgressiveSimulator.config self) in *.
  set (n := ProgressiveSimulator.max_voters cfg) in *.
  unfold ProgressiveSimulator._run_single.
  cbn [ProgressiveSimulator.config]. fold cfg. fold n.
  set (s0 := (ProgressiveSimulator.mk cfg _ _ _ _, [])).
  assert (run_inv np_empty fuel run cfg s0 0) as Hinv0.
  { split; [done|]. split; [done|]. split; [done|]. split; [constructor|].
    exists [DataRecorder.OpenArray]. cbn.
    split; [apply lookup_insert_eq|]. split; [done|]. split; [done|].
    intros i rec Hrec. by destruct i. }
  destruct (run_loop_Ok integers time_time np_empty fuel run cfg n 0 s0)
    as ([self1 prefs1] & -> & Hinv); [done | done | by rewrite Nat.add_0_l | done |].
  run. rewrite Nat.add_0_l in Hinv.
  destruct Hinv
    as (Hcfg & Hgen1 & _ & _ & content & Hfile & Hlen & _ & Hall).
  cbn [fst snd] in *.
  eexists _, (content ++ [DataRecorder.CloseArray]).
  split; [done|]. cbn [ProgressiveSimulator.pref_gen ProgressiveSimulator.recorder].
  split; [done|]. split.
  { unfold DataRecorder.end_run. rewrite Hfile. apply lookup_insert_eq. }
  cbn zeta. rewrite records_app, app_nil_r.
  split; [done|]. intros k Hk.
  destruct (lookup_lt_is_Some_2 (DataRecorder.records content) (k - 1))
    as [rec Hrec]; [lia|].
  destruct (Hall _ _ Hrec)
    as (Hrun & Hstep & Hcount & Hdom & Hgrow &
        allocation & pl & bd & cd & ir & Hpl & Hbd & Hcd & Hir & Hlt & Hwin).
  exists rec, (ProgressiveSimulator.voter_preferences rec).
  replace (S (k - 1)) with k in * by lia.
  repeat (split; [done|]). by exists pl, bd, cd, ir, allocation.
Qed.

Lemma progressive_step_records_witness :
  draws_in_range counting_integers ∧
  generator_ready (ProgressiveSimulator.pref_gen example_simulator) ∧
  ∃ self' content,
    ProgressiveSimulator._run_single counting_integers id
      (λ _, stale_memory) 4 example_simulator 1 = Ok self' ∧
    ProgressiveSimulator.recorder self' !! 1%nat = Some content ∧
    length (DataRecorder.records content) = 3%nat.
Proof.
  split; [apply counting_integers_in_range|]. split; [reflexivity|].
  destruct (progressive_step_records counting_integers id (λ _, stale_memory)
              4 example_simulator 1 counting_integers_in_range
              ltac:(lia) eq_refl eq_refl)
    as (self' & content & Hrun & _ & Hfile & Hlen & _).
  exists self', content. split; [exact Hrun|]. split; [exact Hfile|]. exact Hlen.
Defined.
(** * Further properties of the rules *)

Section Tallies.

(** An array of five cells is determined by its cells. *)
Lemma five_cells (a : list Z) (f : Candidate → Z) :
  length a = 5%nat →
  (∀ c, (c < 5)%nat → a !! c = Some (f c)) →
  a = f <$> seq 0 5.
Proof.
  intros Hlen Hf. apply list_eq. intros c.
  destruct (decide (c < 5)%nat) as [Hc|Hc].
  - rewrite (Hf c Hc), list_lookup_fmap, lookup_seq_lt by done. done.
  - rewrite !lookup_ge_None_2; [done| |lia].
    rewrite length_fmap, length_seq. lia.
Qed.

Lemma sum_five (f : Candidate → Z) :
  np.sum (f <$> seq 0 5) = f 0%nat + f 1%nat + f 2%nat + f 3%nat + f 4%nat.
Proof. unfold np.sum. cbn. lia. Qed.

(** In a list without repetition that holds [w], a second element is
    an element other than [w]. *)
Lemma more_than_one `{EqDecision A} (l : list A) (w : A) :
  NoDup l → w ∈ l →
  (1 < length l)%nat ↔ ∃ c, c ∈ l ∧ c ≠ w.
Proof.
  intros Hnd Hw. split.
  - destruct l as [|x [|y l]]; cbn; [lia..|]. intros _.
    apply list.NoDup_cons in Hnd as [Hxy _].
    destruct (decide (x = w)) as [->|Hx].
    + exists y. split; [right; by left|]. intros ->. apply Hxy. by left.
    + exists x. split; [by left|done].
  - intros (c & Hc & Hne).
    assert ([w; c] ⊆+ l) as Hsub.
    { apply NoDup_submseteq.
      - apply list.NoDup_cons. split; [|apply NoDup_singleton].
        by intros ->%list_elem_of_singleton.
      - intros x [->| ->%list_elem_of_singleton]%elem_of_cons; done. }
    apply submseteq_length in Hsub. cbn in Hsub. lia.
Qed.

(** The tie flag of Plurality and Borda: more than one index holds the
    maximum exactly when an index other than the winner holds it. *)
Lemma select_tie (a : list Z) (f : Candidate → Z) :
  length a = 5%nat →
  (∀ c, (c < 5)%nat → a !! c = Some (f c)) →
  ∃ m w,
    np.amax a = Ok m ∧
    _alphabetical_tiebreak (np.flatnonzero (np.eq_scalar a m)) = Ok w ∧
    least_maximiser f w ∧
    ((1 < length (np.flatnonzero (np.eq_scalar a m)))%nat ↔
     ∃ c, (c < 5)%nat ∧ c ≠ w ∧ f c = f w).
Proof.
  intros Hlen Hf.
  destruct (select_least_maximiser a f Hlen Hf) as (m & w & Hm & Hw & Hleast).
  exists m, w. split; [done|]. split; [done|]. split; [done|].
  destruct (tiebreak_Ok _ _ Hw) as [Hwin _].
  assert (∀ c, c ∈ np.flatnonzero (np.eq_scalar a m) ↔ (c < 5)%nat ∧ f c = m)
    as Htied.
  { intros c. rewrite elem_of_flatnonzero, eq_scalar_lookup. split.
    - intros Hc. assert (c < 5)%nat as Hc5
        by (apply lookup_lt_Some in Hc; lia).
      rewrite (Hf c Hc5) in Hc. split; [done|congruence].
    - intros [Hc5 <-]. by apply Hf. }
  rewrite more_than_one; [| |exact Hwin].
  - apply Htied in Hwin as [_ <-]. split.
    + intros (c & [Hc Hfc]%Htied & Hne). eauto.
    + intros (c & Hc & Hne & Hfc). exists c. split; [|done].
      apply Htied. done.
  - unfold np.flatnonzero. apply NoDup_filter, NoDup_seq.
Qed.

End Tallies.

(** X1: on an in-domain ballot set [PluralityRule.compute] returns, next
    to its winner, exactly the keys [counts] and [tie]: [counts[c]] is
    the number of ballots with [c] in first place, the counts add up to
    the number of ballots, and [tie] is set exactly when a candidate
    other than the winner has as many first places as the winner. *)
Theorem plurality_counts_and_tie preferences :
  in_domain preferences →
  ∃ w counts tie,
    PluralityRule.compute preferences =
      Ok (mkRuleResult (Some w)
            {[ "counts"%string := AInts counts; "tie"%string := ABool tie ]}) ∧
    counts = first_place_count preferences <$> seq 0 5 ∧
    np.sum counts = Z.of_nat (length preferences) ∧
    (tie = true ↔
     ∃ c, (c < 5)%nat ∧ c ≠ w ∧
          first_place_count preferences c = first_place_count preferences w).
Proof.
  intros Hdom. unfold PluralityRule.compute.
  destruct (column_Ok preferences 0 Hdom) as (col & -> & Hlen & Hlt & Hocc);
    [lia|].
  run.
  assert (length (np.bincount col 5) = 5%nat) as Hbins
    by by apply bincount_length.
  assert (∀ c, (c < 5)%nat →
            np.bincount col 5 !! c = Some (first_place_count preferences c))
    as Hcells.
  { intros c Hc. rewrite bincount_lookup by done. by rewrite Hocc. }
  destruct (select_tie (np.bincount col 5) (first_place_count preferences)
              Hbins Hcells) as (m & w & Hm & Hw & _ & Htie).
  rewrite Hm. run. rewrite Hw. run.
  eexists w, _, _. split; [reflexivity|].
  split; [by apply five_cells|].
  split; [by rewrite bincount_sum, Hlen|].
  rewrite bool_decide_eq_true. exact Htie.
Qed.

Lemma plurality_counts_and_tie_witness :
  in_domain rotated_ballots ∧
  ∃ w counts tie,
    PluralityRule.compute rotated_ballots =
      Ok (mkRuleResult (Some w)
            {[ "counts"%string := AInts counts; "tie"%string := ABool tie ]}) ∧
    counts = first_place_count rotated_ballots <$> seq 0 5 ∧
    np.sum counts = Z.of_nat (length rotated_ballots) ∧
    (tie = true ↔
     ∃ c, (c < 5)%nat ∧ c ≠ w ∧
          first_place_count rotated_ballots c =
          first_place_count rotated_ballots w).
Proof.
  split; [by compute_done|].
  apply plurality_counts_and_tie. by compute_done.
Defined.

(** X2: on an in-domain ballot set [BordaRule.compute] returns exactly
    the keys [scores], [total_points], [expected_total_points] and
    [tie]: [scores[c]] is the Borda score of [c], and [tie] is set
    exactly when a candidate other than the winner reaches the winner's
    score. *)
Theorem borda_scores_and_tie preferences :
  in_domain preferences →
  ∃ w scores tie,
    BordaRule.compute preferences =
      Ok (mkRuleResult (Some w)
            {[ "scores"%string := AInts scores;
               "total_points"%string :=
                 AInt (Z.of_nat (length preferences) * 10);
               "expected_total_points"%string :=
                 AInt (Z.of_nat (length preferences) * 10);
               "tie"%string := ABool tie ]}) ∧
    scores = borda_score preferences <$> seq 0 5 ∧
    (tie = true ↔
     ∃ c, (c < 5)%nat ∧ c ≠ w ∧
          borda_score preferences c = borda_score preferences w).
Proof.
  intros Hdom. unfold BordaRule.compute.
  destruct (borda_loop_Ok preferences (seq 0 5) (np.zeros 5) Hdom)
    as (scores & -> & Hlen & Hsum & Hlook).
  { apply list.Forall_forall. intros pos Hpos%elem_of_seq. lia. }
  { reflexivity. }
  cbn in Hsum.
  assert (np.sum scores = Z.of_nat (length preferences) * 10) as Htotal
    by (rewrite Hsum; lia).
  assert (∀ c, (c < 5)%nat → scores !! c = Some (borda_score preferences c))
    as Hcells.
  { intros c Hc. rewrite <- points_at_borda_score by done.
    rewrite (Hlook c 0); [f_equal; lia|].
    apply lookup_replicate. split; [done | lia]. }
  destruct (select_tie scores (borda_score preferences) Hlen Hcells)
    as (m & w & Hm & Hw & _ & Htie).
  run. rewrite Hm. run. rewrite Hw. run. rewrite Htotal.
  eexists w, scores, _. split; [reflexivity|].
  split; [by apply five_cells|].
  rewrite bool_decide_eq_true. exact Htie.
Qed.

Lemma borda_scores_and_tie_witness :
  in_domain three_ballots ∧
  ∃ w scores tie,
    BordaRule.compute three_ballots =
      Ok (mkRuleResult (Some w)
            {[ "scores"%string := AInts scores;
               "total_points"%string :=
                 AInt (Z.of_nat (length three_ballots) * 10);
               "expected_total_points"%string :=
                 AInt (Z.of_nat (length three_ballots) * 10);
               "tie"%string := ABool tie ]}) ∧
    scores = borda_score three_ballots <$> seq 0 5 ∧
    (tie = true ↔
     ∃ c, (c < 5)%nat ∧ c ≠ w ∧
          borda_score three_ballots c = borda_score three_ballots w).
Proof.
  split; [by compute_done|].
  apply borda_scores_and_tie. by compute_done.
Defined.

Section BallotOrder.

Lemma occurrences_Permutation c (x y : list nat) :
  x ≡ₚ y → occurrences c x = occurrences c y.
Proof. unfold occurrences. by intros ->. Qed.

(** A histogram does not depend on the order of the values. *)
Lemma bincount_Permutation (x y : list nat) m :
  x ≡ₚ y → np.bincount x m = np.bincount y m.
Proof.
  intros Hxy. unfold np.bincount.
  assert (match x with
          | [] => m
          | _ :: _ => (m `max` S (max_list x))%nat
          end =
          match y with
          | [] => m
          | _ :: _ => (m `max` S (max_list y))%nat
          end) as ->.
  { destruct x as [|v x], y as [|v' y]; [done| | |by rewrite Hxy].
    - by apply Permutation_nil_cons in Hxy.
    - symmetry in Hxy. by apply Permutation_nil_cons in Hxy. }
  apply list_eq. intros c. rewrite !tally_lookup.
  by rewrite (occurrences_Permutation c x y Hxy).
Qed.

Lemma same_up_to_order_trans {A} (r1 r2 r3 : result (list A)) :
  same_up_to_order r1 r2 → same_up_to_order r2 r3 → same_up_to_order r1 r3.
Proof.
  destruct r1, r2, r3; cbn; try done; [|congruence].
  intros H1 H2. by rewrite H1.
Qed.

Lemma getitem_raises {A} (l : list A) i e :
  getitem l i = Raise e → e = IndexError.
Proof. unfold getitem. destruct (l !! i); congruence. Qed.

Lemma getitem_finishes {A} (l : list A) i : getitem l i ≠ Unfinished.
Proof. unfold getitem. by destruct (l !! i). Qed.

Lemma column_cons row preferences pos :
  column (row :: preferences) pos =
  y ← getitem row pos; k ← column preferences pos; mret (y :: k).
Proof. reflexivity. Qed.

Lemma column_raises preferences pos e :
  column preferences pos = Raise e → e = IndexError.
Proof.
  induction preferences as [|row preferences IH]; [done|].
  rewrite column_cons.
  destruct (getitem row pos) as [y|e'|] eqn:Hy; cbn.
  - destruct (column preferences pos); cbn; [done| |done].
    intros [= <-]. by apply IH.
  - intros [= <-]. by apply getitem_raises in Hy.
  - done.
Qed.

(** The column of a reordered array is the column reordered. *)
Lemma column_Permutation preferences preferences' pos :
  preferences ≡ₚ preferences' →
  same_up_to_order (column preferences pos) (column preferences' pos).
Proof.
  induction 1 as [|row l l' Hl IH|row row' l|l1 l2 l3 _ IH1 _ IH2].
  - by cbn.
  - rewrite !column_cons. destruct (getitem row pos); cbn; [|done..].
    destruct (column l pos), (column l' pos); cbn in *; try done.
    by constructor.
  - rewrite !column_cons.
    destruct (getitem row pos) as [y|e|] eqn:Hy,
             (getitem row' pos) as [y'|e'|] eqn:Hy'; cbn;
      try (by apply getitem_finishes in Hy);
      try (by apply getitem_finishes in Hy');
      try apply getitem_raises in Hy; try apply getitem_raises in Hy';
      subst; try done.
    destruct (column l pos); cbn; [by constructor|done..].
  - by eapply same_up_to_order_trans.
Qed.

Lemma for_loop_ext {S A} (f g : S → A → result S) l : ∀ s,
  (∀ s x, f s x = g s x) → for_loop f s l = for_loop g s l.
Proof.
  induction l as [|x l IH]; intros s Hfg; [done|].
  cbn [for_loop]. rewrite Hfg. destruct (g s x); cbn; [|done..].
  by apply IH.
Qed.

Lemma plurality_Permutation preferences preferences' :
  preferences ≡ₚ preferences' →
  PluralityRule.compute preferences = PluralityRule.compute preferences'.
Proof.
  intros Hp. unfold PluralityRule.compute.
  pose proof (column_Permutation _ _ 0 Hp) as Hcol.
  destruct (column preferences 0) as [col|e|],
           (column preferences' 0) as [col'|e'|]; cbn in Hcol; try done.
  - run. by rewrite (bincount_Permutation col col' 5 Hcol).
  - by subst.
Qed.

Lemma add_position_Permutation preferences preferences' scores pos :
  preferences ≡ₚ preferences' →
  BordaRule.add_position preferences scores pos =
  BordaRule.add_position preferences' scores pos.
Proof.
  intros Hp. unfold BordaRule.add_position.
  pose proof (column_Permutation _ _ pos Hp) as Hcol.
  destruct (column preferences pos) as [col|e|],
           (column preferences' pos) as [col'|e'|]; cbn in Hcol; try done.
  - run. by rewrite (bincount_Permutation col col' 5 Hcol).
  - by subst.
Qed.

Lemma borda_Permutation preferences preferences' :
  preferences ≡ₚ preferences' →
  BordaRule.compute preferences = BordaRule.compute preferences'.
Proof.
  intros Hp. unfold BordaRule.compute. cbv zeta.
  rewrite (for_loop_ext (BordaRule.add_position preferences)
             (BordaRule.add_position preferences'))
    by (intros; by apply add_position_Permutation).
  by rewrite (Permutation_length Hp).
Qed.

Lemma top_choice_cases active row :
  (∃ o, IRVRule.top_choice active row = Ok o) ∨
  IRVRule.top_choice active row = Raise IndexError.
Proof.
  induction row as [|c row IH]; [left; by eexists|].
  cbn [IRVRule.top_choice].
  destruct (getitem active c) as [[]|e|] eqn:Hc; cbn.
  - left. by eexists.
  - done.
  - right. by apply getitem_raises in Hc as ->.
  - by apply getitem_finishes in Hc.
Qed.

Lemma first_choices_cons active row preferences :
  IRVRule.first_choices active (row :: preferences) =
  top ← IRVRule.top_choice active row;
  fc ← IRVRule.first_choices active preferences;
  mret (match top with Some c => c :: fc | None => fc end).
Proof. reflexivity. Qed.

Lemma first_choices_cases active preferences :
  (∃ fc, IRVRule.first_choices active preferences = Ok fc) ∨
  IRVRule.first_choices active preferences = Raise IndexError.
Proof.
  induction preferences as [|row preferences IH]; [left; by eexists|].
  rewrite first_choices_cons.
  destruct (top_choice_cases active row) as [[o ->]| ->]; [|by right].
  destruct IH as [[fc ->]| ->]; [|by right].
  left. by eexists.
Qed.

Lemma first_choices_Permutation active preferences preferences' :
  preferences ≡ₚ preferences' →
  same_up_to_order (IRVRule.first_choices active preferences)
                   (IRVRule.first_choices active preferences').
Proof.
  induction 1 as [|row l l' Hl IH|row row' l|l1 l2 l3 _ IH1 _ IH2].
  - by cbn.
  - rewrite !first_choices_cons.
    destruct (IRVRule.top_choice active row) as [o| |]; cbn; [|done..].
    destruct (IRVRule.first_choices active l),
             (IRVRule.first_choices active l'); cbn in *; try done.
    destruct o; [by constructor|done].
  - rewrite !first_choices_cons.
    destruct (top_choice_cases active row) as [[o ->]| ->],
             (top_choice_cases active row') as [[o' ->]| ->],
             (first_choices_cases active l) as [[fc ->]| ->]; cbn; try done.
    destruct o, o'; try done. apply perm_swap.
  - by eapply same_up_to_order_trans.
Qed.

Lemma iteration_Permutation preferences preferences' st :
  preferences ≡ₚ preferences' →
  IRVRule.iteration preferences st = IRVRule.iteration preferences' st.
Proof.
  intros Hp. unfold IRVRule.iteration.
  pose proof (first_choices_Permutation (IRVRule.active st) _ _ Hp) as Hfc.
  destruct (IRVRule.first_choices (IRVRule.active st) preferences)
    as [fc|e|],
    (IRVRule.first_choices (IRVRule.active st) preferences')
    as [fc'|e'|]; cbn in Hfc; try done; [|by subst].
  run. destruct fc as [|c fc], fc' as [|c' fc'].
  - done.
  - by apply Permutation_nil_cons in Hfc.
  - symmetry in Hfc. by apply Permutation_nil_cons in Hfc.
  - by rewrite (bincount_Permutation _ _ 5 Hfc).
Qed.

Lemma irv_loop_Permutation fuel preferences preferences' : ∀ st,
  preferences ≡ₚ preferences' →
  IRVRule.loop fuel preferences st = IRVRule.loop fuel preferences' st.
Proof.
  induction fuel as [|fuel IH]; intros st Hp; [done|].
  cbn [IRVRule.loop]. rewrite (iteration_Permutation _ _ st Hp).
  destruct (IRVRule.iteration preferences' st) as [[r|st']| |]; cbn;
    [done| |done..].
  by apply IH.
Qed.

End BallotOrder.

(** X3: Plurality, Borda and the runoff do not depend on the order of
    the rows: on a reordered array each of them returns the same result
    (winner and [aux]), raises the same exception, or runs out of the
    same budget, whatever the rows hold. *)
Theorem ballot_order_irrelevant preferences preferences' fuel :
  preferences ≡ₚ preferences' →
  PluralityRule.compute preferences = PluralityRule.compute preferences' ∧
  BordaRule.compute preferences = BordaRule.compute preferences' ∧
  IRVRule.compute fuel preferences = IRVRule.compute fuel preferences'.
Proof.
  intros Hp. split; [by apply plurality_Permutation|].
  split; [by apply borda_Permutation|].
  by apply irv_loop_Permutation.
Qed.

Lemma ballot_order_irrelevant_witness :
  three_ballots ≡ₚ reverse three_ballots ∧
  PluralityRule.compute three_ballots =
    PluralityRule.compute (reverse three_ballots) ∧
  BordaRule.compute three_ballots =
    BordaRule.compute (reverse three_ballots) ∧
  IRVRule.compute 4 three_ballots =
    IRVRule.compute 4 (reverse three_ballots).
Proof.
  assert (three_ballots ≡ₚ reverse three_ballots) as Hp
    by (symmetry; apply reverse_Permutation).
  split; [exact Hp|]. exact (ballot_order_irrelevant _ _ 4 Hp).
Defined.

Section CondorcetOrder.

Lemma condorcet_aux_shape uninitialised preferences r :
  CondorcetRule.compute uninitialised preferences = Ok r →
  ∃ wins, aux r = {[ "wins"%string := AMatrix wins ]}.
Proof.
  unfold CondorcetRule.compute. cbv zeta.
  destruct (CondorcetRule.build_ranks _ _ _) as [ranks| |]; [|done..]. run.
  destruct (CondorcetRule.build_wins _) as [wins| |]; [|done..]. run.
  intros [= <-]. by eexists.
Qed.

(** What Condorcet returns on an in-domain array, in full. *)
Lemma condorcet_result uninitialised preferences :
  in_domain preferences → Z.of_nat (length preferences) < 2 ^ 31 →
  ∃ w,
    CondorcetRule.compute uninitialised preferences =
      Ok (mkRuleResult w
            {[ "wins"%string :=
                 AMatrix (pairwise_matrix (preferring preferences)) ]}) ∧
    (∀ a, w = Some a ↔ beats_all_others preferences a) ∧
    (w = None ↔ ∀ a, ¬ beats_all_others preferences a).
Proof.
  intros Hdom Hn.
  destruct (condorcet_Ok uninitialised preferences Hdom Hn)
    as ([w a] & Hr & Hwins & Hsome & Hnone).
  destruct (condorcet_aux_shape _ _ _ Hr) as [wins Ha].
  cbn [aux winner] in *. subst a.
  rewrite lookup_singleton_eq in Hwins. injection Hwins as ->.
  by exists w.
Qed.

Lemma preferring_Permutation preferences preferences' a b :
  preferences ≡ₚ preferences' →
  preferring preferences a b = preferring preferences' a b.
Proof. unfold preferring. by intros ->. Qed.

Lemma beats_all_others_Permutation preferences preferences' a :
  preferences ≡ₚ preferences' →
  beats_all_others preferences a ↔ beats_all_others preferences' a.
Proof.
  intros Hp. unfold beats_all_others.
  by setoid_rewrite (preferring_Permutation _ _ _ _ Hp).
Qed.

End CondorcetOrder.

(** X4: on an in-domain ballot set [CondorcetRule.compute] depends
    neither on the order of the ballots nor on what the memory that
    [np.empty] hands out held before: every cell of [ranks] that is read
    has been written. *)
Theorem condorcet_order_and_memory uninitialised uninitialised'
    preferences preferences' :
  in_domain preferences → Z.of_nat (length preferences) < 2 ^ 31 →
  preferences ≡ₚ preferences' →
  ∃ r, CondorcetRule.compute uninitialised preferences = Ok r ∧
       CondorcetRule.compute uninitialised' preferences' = Ok r.
Proof.
  intros Hdom Hn Hp.
  assert (in_domain preferences') as Hdom'
    by (unfold in_domain; by rewrite <- Hp).
  assert (Z.of_nat (length preferences') < 2 ^ 31) as Hn'
    by by rewrite <- (Permutation_length Hp).
  destruct (condorcet_result uninitialised preferences Hdom Hn)
    as (w & Hr & Hsome & Hnone).
  destruct (condorcet_result uninitialised' preferences' Hdom' Hn')
    as (w' & Hr' & Hsome' & Hnone').
  eexists. split; [exact Hr|]. rewrite Hr'. f_equal.
  assert (w' = w) as ->.
  { destruct w as [a|].
    - apply Hsome', (beats_all_others_Permutation _ _ _ Hp), Hsome. done.
    - apply Hnone'. intros a Ha%(beats_all_others_Permutation _ _ _ Hp).
      by apply (proj1 Hnone eq_refl a). }
  f_equal. f_equal. f_equal. apply pairwise_matrix_ext. intros a b _ _ _.
  symmetry. by apply preferring_Permutation.
Qed.

Lemma condorcet_order_and_memory_witness :
  in_domain three_ballots ∧ Z.of_nat (length three_ballots) < 2 ^ 31 ∧
  three_ballots ≡ₚ reverse three_ballots ∧
  ∃ r, CondorcetRule.compute stale_memory three_ballots = Ok r ∧
       CondorcetRule.compute (λ _ _, 0) (reverse three_ballots) = Ok r.
Proof.
  assert (three_ballots ≡ₚ reverse three_ballots) as Hp
    by (symmetry; apply reverse_Permutation).
  split; [by compute_done|]. split; [done|]. split; [exact Hp|].
  apply condorcet_order_and_memory; [by compute_done|done|exact Hp].
Defined.

Section Majority.

(** Every ballot has exactly one first place. *)
Lemma first_place_total preferences :
  in_domain preferences →
  first_place_count preferences 0%nat + first_place_count preferences 1%nat +
  first_place_count preferences 2%nat + first_place_count preferences 3%nat +
  first_place_count preferences 4%nat = Z.of_nat (length preferences).
Proof.
  intros Hdom.
  destruct (column_Ok preferences 0 Hdom) as (col & _ & Hlen & Hlt & Hocc);
    [lia|].
  rewrite <- Hlen, <- (bincount_sum col 5), <- sum_five. f_equal.
  symmetry. apply five_cells; [by apply bincount_length|].
  intros c Hc. rewrite bincount_lookup by done. by rewrite Hocc.
Qed.

Lemma first_place_count_nonneg preferences c :
  0 ≤ first_place_count preferences c.
Proof. unfold first_place_count, ranked_at. lia. Qed.

Lemma first_place_lt preferences c :
  in_domain preferences → 0 < first_place_count preferences c → (c < 5)%nat.
Proof.
  intros Hdom Hc. unfold first_place_count, ranked_at in Hc.
  destruct (filter (λ row, row !! 0%nat = Some c) preferences)
    as [|row rows] eqn:Hrows; [cbn in Hc; lia|].
  assert (row ∈ filter (λ row, row !! 0%nat = Some c) preferences)
    as [Hrow Hin]%list_elem_of_filter by (rewrite Hrows; left).
  apply (is_ballot_elem_of row c).
  - by apply (proj1 (Forall_forall _ _) Hdom).
  - apply list_elem_of_lookup. eauto.
Qed.

(** Two of five tallies cannot both exceed half of their total. *)
Lemma half_unique (f : Candidate → Z) w c :
  (∀ x, 0 ≤ f x) → (w < 5)%nat → (c < 5)%nat →
  f w * 2 > np.sum (f <$> seq 0 5) → f w ≤ f c → c = w.
Proof.
  intros Hf Hw Hc Hmaj Hle. rewrite sum_five in Hmaj.
  pose proof (Hf 0%nat). pose proof (Hf 1%nat). pose proof (Hf 2%nat).
  pose proof (Hf 3%nat). pose proof (Hf 4%nat).
  do 5 (destruct w as [|w]; [do 5 (destruct c as [|c]; [lia|]); lia|]).
  lia.
Qed.

Lemma majority_unique preferences w c :
  in_domain preferences → (w < 5)%nat → (c < 5)%nat →
  first_place_count preferences w * 2 > Z.of_nat (length preferences) →
  first_place_count preferences w ≤ first_place_count preferences c →
  c = w.
Proof.
  intros Hdom Hw Hc Hmaj Hle.
  apply (half_unique (first_place_count preferences)); try done.
  - apply first_place_count_nonneg.
  - by rewrite sum_five, first_place_total.
Qed.

(** A ballot ranks its first choice above every other candidate. *)
Lemma first_place_prefers row w b :
  is_ballot row → row !! 0%nat = Some w → (b < 5)%nat → b ≠ w →
  prefers row w b.
Proof.
  intros Hrow Hw Hb Hne.
  apply (is_ballot_elem_of row b Hrow) in Hb.
  destruct row as [|x row]; [done|]. injection Hw as ->.
  unfold prefers. cbn [position]. rewrite decide_True by done.
  rewrite decide_False by done.
  apply elem_of_cons in Hb as [?|Hb]; [done|].
  apply position_elem_of in Hb as [p ->]. cbn. lia.
Qed.

Lemma first_place_preferring preferences w b :
  in_domain preferences → (b < 5)%nat → b ≠ w →
  first_place_count preferences w ≤ preferring preferences w b.
Proof.
  intros Hdom Hb Hne. unfold first_place_count.
  induction Hdom as [|row preferences Hrow Hdom IH]; [done|].
  rewrite ranked_at_cons, preferring_cons.
  destruct (decide (row !! 0%nat = Some w)) as [Hw|_].
  - rewrite decide_True by by apply first_place_prefers. lia.
  - destruct (decide (prefers row w b)); lia.
Qed.

Lemma majority_beats_all_others preferences w :
  in_domain preferences → (w < 5)%nat →
  first_place_count preferences w * 2 > Z.of_nat (length preferences) →
  beats_all_others preferences w.
Proof.
  intros Hdom Hw Hmaj. split; [done|]. intros b Hb Hne.
  pose proof (first_place_preferring preferences w b Hdom Hb Hne).
  pose proof (preferring_complement preferences w b Hdom Hw Hb
                (not_eq_sym Hne)).
  lia.
Qed.

(** With nobody eliminated, a ballot's top choice is its first place. *)
Lemma top_active_initial row c :
  is_ballot row →
  top_active (active_after []) row = Some c ↔ row !! 0%nat = Some c.
Proof.
  intros Hrow.
  assert (∀ x, x ∈ row ↔ (x < 5)%nat) as Hin
    by (intros x; by apply is_ballot_elem_of).
  destruct row as [|x row].
  { apply is_ballot_length in Hrow. done. }
  assert (x < 5)%nat as Hx by (apply Hin; left).
  unfold top_active. cbn [list_find].
  rewrite decide_True; [done|].
  apply active_after_true. split; [done|]. apply not_elem_of_nil.
Qed.

Lemma round_counts_initial preferences :
  in_domain preferences →
  round_counts (active_after []) preferences =
  first_place_count preferences <$> seq 0 5.
Proof.
  intros Hdom. unfold round_counts. apply list_fmap_ext.
  intros _ c _. unfold first_place_count, ranked_at. do 2 f_equal.
  induction Hdom as [|row preferences Hrow Hdom IH]; [done|].
  rewrite !filter_cons, IH.
  destruct (decide (top_active (active_after []) row = Some c)) as [Ht|Ht].
  - rewrite decide_True; [done|]. by apply top_active_initial.
  - rewrite decide_False; [done|]. by rewrite <- top_active_initial.
Qed.

(** A candidate holding more than half of a round's votes is returned
    in that round. *)
Lemma iteration_majority preferences st w m :
  in_domain preferences → irv_inv st →
  let E := IRVRule.elimination_order st in
  let counts := round_counts (active_after E) preferences in
  counts !! w = Some m → m * 2 > np.sum counts →
  IRVRule.iteration preferences st =
    Ok (IRVRule.Return (mkRuleResult (Some w)
          {[ "counts"%string := AInts counts;
             "elimination_order"%string := ACands E ]})).
Proof.
  intros Hdom [Hact Hnd Hrange Hlen] E counts Hw Hmaj.
  change (IRVRule.elimination_order st) with E in Hact, Hnd, Hrange, Hlen.
  assert (w < 5)%nat as Hw5 by (apply lookup_lt_Some in Hw; done).
  pose (f := λ c, Z.of_nat (length (filter
               (λ row, top_active (active_after E) row = Some c)
               preferences))).
  assert (counts = f <$> seq 0 5) as Hcounts by reflexivity.
  assert (m = f w) as ->.
  { rewrite Hcounts, list_lookup_fmap, lookup_seq_lt in Hw by done.
    by injection Hw. }
  unfold IRVRule.iteration. rewrite Hact.
  rewrite first_choices_Ok
    by (rewrite active_after_length; by apply in_domain_lt).
  run.
  pose proof (bincount_round_counts (active_after E) preferences eq_refl)
    as Hbins.
  destruct (omap (top_active (active_after E)) preferences)
    as [|x fc] eqn:Hfc.
  { exfalso.
    assert (counts !! w = Some (f w)) as Hl
      by (by rewrite Hcounts, list_lookup_fmap, lookup_seq_lt by done).
    unfold counts in Hl, Hmaj. rewrite <- Hbins in Hl, Hmaj.
    change (np.bincount [] 5) with (replicate 5 0) in Hl, Hmaj.
    apply lookup_replicate in Hl as [Hl _]. rewrite Hl in Hmaj.
    unfold np.sum in Hmaj. cbn in Hmaj. lia. }
  pose proof (bincount_sum (x :: fc) 5) as Hsum.
  rewrite Hbins in Hsum |- *. fold counts in Hsum |- *.
  rewrite decide_False by (cbn [length] in Hsum; lia).
  destruct (amax_total counts) as [m' Hm']; [by rewrite Hcounts|].
  rewrite Hm'. run.
  destruct (amax_Ok counts m' Hm') as [Hin Hmax].
  assert (f w ≤ m') as Hle
    by (apply Hmax, list_elem_of_lookup; eauto).
  rewrite decide_True by lia.
  unfold np.argmax. rewrite Hm'. run.
  destruct (list_find (λ x, x = m') counts) as [[w' y]|] eqn:Hfind.
  2:{ exfalso. apply list_find_None in Hfind.
      by apply (proj1 (Forall_forall _ _) Hfind m' Hin). }
  apply list_find_Some in Hfind as (Hw' & -> & _).
  assert (w' < 5)%nat as Hw'5 by (apply lookup_lt_Some in Hw'; done).
  rewrite Hcounts, list_lookup_fmap, lookup_seq_lt in Hw' by done.
  injection Hw' as Hw'. cbn [Nat.add] in Hw'.
  assert (w' = w) as ->; [|done].
  apply (half_unique f); try done.
  - intros c. unfold f. lia.
  - by rewrite Hw'.
Qed.

End Majority.

(** A candidate in first place on more than half of the ballots wins
    under each of the three rules below. *)
Lemma plurality_majority preferences w :
  in_domain preferences → (w < 5)%nat →
  first_place_count preferences w * 2 > Z.of_nat (length preferences) →
  returned_winner (PluralityRule.compute preferences) = Some (Some w).
Proof.
  intros Hdom Hw Hmaj.
  destruct (plurality_Ok preferences Hdom) as (r & w' & -> & Hr & Hleast).
  cbn [returned_winner]. rewrite Hr. do 2 f_equal.
  destruct Hleast as (Hw' & Hmax & _).
  apply (majority_unique preferences w w' Hdom Hw Hw' Hmaj). by apply Hmax.
Qed.

Lemma condorcet_majority uninitialised preferences w :
  in_domain preferences → Z.of_nat (length preferences) < 2 ^ 31 →
  (w < 5)%nat →
  first_place_count preferences w * 2 > Z.of_nat (length preferences) →
  returned_winner (CondorcetRule.compute uninitialised preferences) =
    Some (Some w).
Proof.
  intros Hdom Hn Hw Hmaj.
  destruct (condorcet_result uninitialised preferences Hdom Hn)
    as (w' & -> & Hsome & _).
  cbn [returned_winner winner]. f_equal.
  by apply Hsome, majority_beats_all_others.
Qed.

Lemma runoff_majority fuel preferences w :
  in_domain preferences → (w < 5)%nat →
  first_place_count preferences w * 2 > Z.of_nat (length preferences) →
  IRVRule.compute (S fuel) preferences =
    Ok (mkRuleResult (Some w)
          {[ "counts"%string :=
               AInts (first_place_count preferences <$> seq 0 5);
             "elimination_order"%string := ACands [] ]}).
Proof.
  intros Hdom Hw Hmaj.
  apply loop_return.
  rewrite <- (round_counts_initial preferences Hdom).
  apply (iteration_majority preferences IRVRule.initial w
           (first_place_count preferences w) Hdom irv_inv_initial).
  - change (IRVRule.elimination_order IRVRule.initial) with (@nil nat).
    rewrite round_counts_initial, list_lookup_fmap, lookup_seq_lt by done.
    done.
  - change (IRVRule.elimination_order IRVRule.initial) with (@nil nat).
    rewrite round_counts_initial, sum_five, first_place_total by done.
    done.
Qed.

(** X5: a candidate in first place on more than half of the ballots of
    an in-domain set is the winner under Plurality, and the runoff
    returns it in its first round, with the first-place counts and an
    empty elimination order; it is the winner under Condorcet too when
    there are fewer than 2^31 ballots (the bound of the [int32]
    pairwise matrix). *)
Theorem majority_criterion uninitialised fuel preferences w :
  in_domain preferences →
  first_place_count preferences w * 2 > Z.of_nat (length preferences) →
  returned_winner (PluralityRule.compute preferences) = Some (Some w) ∧
  IRVRule.compute (S fuel) preferences =
    Ok (mkRuleResult (Some w)
          {[ "counts"%string :=
               AInts (first_place_count preferences <$> seq 0 5);
             "elimination_order"%string := ACands [] ]}) ∧
  (Z.of_nat (length preferences) < 2 ^ 31 →
   returned_winner (CondorcetRule.compute uninitialised preferences) =
     Some (Some w)).
Proof.
  intros Hdom Hmaj.
  assert (w < 5)%nat as Hw.
  { apply (first_place_lt preferences w Hdom).
    pose proof (Zle_0_nat (length preferences)). lia. }
  split; [by apply plurality_majority|].
  split; [by apply runoff_majority|].
  intros Hn. by apply condorcet_majority.
Qed.

Lemma majority_criterion_witness :
  in_domain (three_ballots ++ [[0; 2; 1; 4; 3]; [0; 4; 3; 2; 1]]%nat) ∧
  first_place_count
    (three_ballots ++ [[0; 2; 1; 4; 3]; [0; 4; 3; 2; 1]]%nat) 0%nat * 2 >
    Z.of_nat (length (three_ballots ++ [[0; 2; 1; 4; 3]; [0; 4; 3; 2; 1]]%nat)) ∧
  returned_winner
    (IRVRule.compute 1
       (three_ballots ++ [[0; 2; 1; 4; 3]; [0; 4; 3; 2; 1]]%nat)) =
    Some (Some 0%nat) ∧
  returned_winner
    (CondorcetRule.compute stale_memory
       (three_ballots ++ [[0; 2; 1; 4; 3]; [0; 4; 3; 2; 1]]%nat)) =
    Some (Some 0%nat).
Proof.
  split; [by compute_done|]. split; [done|].
  destruct (majority_criterion stale_memory 0
              (three_ballots ++ [[0; 2; 1; 4; 3]; [0; 4; 3; 2; 1]]%nat) 0%nat)
    as (_ & -> & Hc); [by compute_done|done|].
  split; [done|]. by apply Hc.
Defined.

Section Pareto.


Lemma prefers_asym row a b : prefers row a b → ¬ prefers row b a.
Proof.
  unfold prefers.
  destruct (position a row), (position b row); try done. lia.
Qed.


Lemma prefers_borda_points row a b :
  prefers row a b → borda_points row b < borda_points row a.
Proof.
  unfold prefers, borda_points.
  destruct (position a row), (position b row); try done. lia.
Qed.

Lemma unanimous_borda_score preferences a b :
  Forall (λ row, prefers row a b) preferences → preferences ≠ [] →
  borda_score preferences b < borda_score preferences a.
Proof.
  intros Hall Hne.
  assert (borda_score preferences b + Z.of_nat (length preferences) ≤
          borda_score preferences a) as Hle.
  { clear Hne. induction Hall as [|row preferences Hrow Hall IH]; [done|].
    rewrite !borda_score_cons. cbn [length].
    pose proof (prefers_borda_points row a b Hrow). lia. }
  destruct preferences; [done|]. cbn [length] in Hle. lia.
Qed.



End Pareto.



Section OutOfRange.

(** The column of an array of shape (n, 5). *)
Lemma column_shape preferences pos :
  Forall (λ row, length row = 5%nat) preferences → (pos < 5)%nat →
  ∃ col, column preferences pos = Ok col ∧
         ∀ c, c ∈ col ↔ ∃ row, row ∈ preferences ∧ row !! pos = Some c.
Proof.
  intros Hshape Hpos.
  induction Hshape as [|row preferences Hrow Hshape IH].
  - exists []. split; [done|]. intros c. split.
    + by intros ?%elem_of_nil.
    + by intros (row & ?%elem_of_nil & _).
  - destruct IH as (col & Hcol & Hin).
    destruct (lookup_lt_is_Some_2 row pos) as [v Hv]; [lia|].
    exists (v :: col). rewrite column_cons.
    rewrite (proj2 (getitem_Ok row pos v) Hv). run. rewrite Hcol. run.
    split; [done|]. intros c. rewrite elem_of_cons, Hin. split.
    + intros [->|(row' & Hrow' & Hc)].
      * exists row. split; [by left|done].
      * exists row'. split; [by right|done].
    + intros (row' & [->|Hrow']%elem_of_cons & Hc).
      * left. congruence.
      * right. eauto.
Qed.

Lemma bincount_nonempty x : np.bincount x 5 ≠ [].
Proof.
  intros Hnil. apply (f_equal length) in Hnil.
  unfold np.bincount in Hnil. rewrite tally_length in Hnil.
  unfold np.zeros in Hnil. rewrite length_replicate in Hnil.
  destruct x; cbn in Hnil; lia.
Qed.

(** A value of 5 or more makes the histogram longer than five bins. *)
Lemma bincount_long x c :
  c ∈ x → (5 ≤ c)%nat → (5 < length (np.bincount x 5))%nat.
Proof.
  intros Hc Hc5. unfold np.bincount. rewrite tally_length.
  unfold np.zeros. rewrite length_replicate.
  pose proof (max_list_elem_of_le c x Hc).
  destruct x; [by apply elem_of_nil in Hc|]. lia.
Qed.

Lemma add_position_shape preferences scores pos :
  Forall (λ row, length row = 5%nat) preferences → (pos < 5)%nat →
  length scores = 5%nat →
  ∃ col,
    (∀ c, c ∈ col ↔ ∃ row, row ∈ preferences ∧ row !! pos = Some c) ∧
    if decide (Forall (λ v, v < 5)%nat col)
    then ∃ scores',
           BordaRule.add_position preferences scores pos = Ok scores' ∧
           length scores' = 5%nat
    else BordaRule.add_position preferences scores pos = Raise ValueError.
Proof.
  intros Hshape Hpos Hlen. unfold BordaRule.add_position.
  destruct (column_shape preferences pos Hshape Hpos) as (col & -> & Hin).
  exists col. split; [done|].
  run. rewrite (proj2 (getitem_Ok _ _ _) (position_points_lookup pos Hpos)).
  run. unfold np.iadd, np.scale. rewrite length_fmap.
  case_decide as Hlt.
  - rewrite bincount_length by done. rewrite decide_True by done.
    eexists. split; [done|].
    rewrite length_zip_with, length_fmap, bincount_length by done. lia.
  - apply not_Forall_Exists in Hlt; [|apply _].
    apply Exists_exists in Hlt as (c & Hc & Hc5). cbn in Hc5.
    pose proof (bincount_long col c Hc ltac:(lia)).
    rewrite decide_False by lia. done.
Qed.

Lemma borda_loop_raises preferences l : ∀ scores,
  Forall (λ row, length row = 5%nat) preferences →
  Forall (λ pos, pos < 5)%nat l → length scores = 5%nat →
  (∃ pos row c, pos ∈ l ∧ row ∈ preferences ∧ row !! pos = Some c ∧
                (5 ≤ c)%nat) →
  for_loop (BordaRule.add_position preferences) scores l = Raise ValueError.
Proof.
  induction l as [|pos l IH]; intros scores Hshape Hl Hlen Hbad.
  { destruct Hbad as (pos & _ & _ & ?%elem_of_nil & _). done. }
  inversion Hl as [|? ? Hpos Hl']; subst. cbn [for_loop].
  destruct (add_position_shape preferences scores pos Hshape Hpos Hlen)
    as (col & Hin & Hadd).
  case_decide as Hlt.
  - destruct Hadd as (scores' & -> & Hlen'). run.
    apply IH; try done.
    destruct Hbad as (pos' & row & c & [->|Hpos']%elem_of_cons & Hrest).
    + exfalso. destruct Hrest as (Hrow & Hc & Hc5).
      assert (c ∈ col) as Hccol by (apply Hin; eauto).
      pose proof (proj1 (Forall_forall _ _) Hlt c Hccol) as Hc5'.
      cbn in Hc5'. lia.
    + eauto 10.
  - by rewrite Hadd.
Qed.

Lemma fill_ranks_shape row : ∀ pos r0,
  length r0 = 5%nat →
  if decide (Forall (λ c, c < 5)%nat row)
  then ∃ r, CondorcetRule.fill_ranks pos row r0 = Ok r ∧ length r = 5%nat
  else CondorcetRule.fill_ranks pos row r0 = Raise IndexError.
Proof.
  induction row as [|c row IH]; intros pos r0 Hlen.
  { rewrite decide_True by constructor. by exists r0. }
  cbn [CondorcetRule.fill_ranks]. rewrite Hlen.
  destruct (decide (c < 5)%nat) as [Hc|Hc].
  - specialize (IH (S pos) (<[c := Z.of_nat pos]> r0)).
    rewrite length_insert in IH. specialize (IH Hlen).
    destruct (decide (Forall (λ c, c < 5)%nat row)) as [Hrow|Hrow].
    + rewrite decide_True by by constructor. done.
    + rewrite decide_False; [done|]. by intros [_ ?]%Forall_cons.
  - rewrite decide_False; [done|]. by intros [? _]%Forall_cons.
Qed.

Lemma build_ranks_raises uninitialised preferences : ∀ k,
  ¬ Forall (Forall (λ c, c < 5)%nat) preferences →
  CondorcetRule.build_ranks uninitialised k preferences = Raise IndexError.
Proof.
  induction preferences as [|row preferences IH]; intros k Hbad.
  { destruct Hbad. constructor. }
  cbn [CondorcetRule.build_ranks].
  pose proof (fill_ranks_shape row 0 (uninitialised k <$> seq 0 5) eq_refl)
    as Hfill.
  case_decide as Hrow.
  - destruct Hfill as (r & -> & _). run.
    rewrite IH; [done|]. intros Hrest. apply Hbad. by constructor.
  - by rewrite Hfill.
Qed.

Lemma first_choices_raises preferences row c :
  row ∈ preferences → row !! 0%nat = Some c → (5 ≤ c)%nat →
  IRVRule.first_choices (replicate 5 true) preferences = Raise IndexError.
Proof.
  intros Hrow Hc Hc5.
  induction preferences as [|row' preferences IH].
  { by apply elem_of_nil in Hrow. }
  rewrite first_choices_cons.
  destruct (top_choice_cases (replicate 5 true) row') as [[o Ho]|Ho];
    rewrite Ho; [|done].
  run. apply elem_of_cons in Hrow as [<-|Hrow].
  - exfalso. destruct row as [|x row]; [done|]. injection Hc as ->.
    cbn [IRVRule.top_choice] in Ho. unfold getitem in Ho.
    rewrite lookup_ge_None_2 in Ho by (rewrite length_replicate; lia).
    done.
  - by rewrite IH.
Qed.

End OutOfRange.

(** X7: a candidate id of 5 or more in an array of shape (n, 5) is not
    rejected up front.  Plurality still returns a result; Borda raises
    [ValueError] when the longer histogram meets the five scores;
    Condorcet raises [IndexError] when it writes the rank; the runoff
    raises [IndexError] when the id stands in a first place. *)
Theorem out_of_range_candidate uninitialised fuel preferences row c :
  Forall (λ row, length row = 5%nat) preferences →
  row ∈ preferences → c ∈ row → (5 ≤ c)%nat →
  (∃ r, PluralityRule.compute preferences = Ok r) ∧
  BordaRule.compute preferences = Raise ValueError ∧
  CondorcetRule.compute uninitialised preferences = Raise IndexError ∧
  (row !! 0%nat = Some c →
   IRVRule.compute (S fuel) preferences = Raise IndexError).
Proof.
  intros Hshape Hrow Hc Hc5. split; [|split; [|split]].
  - unfold PluralityRule.compute.
    destruct (column_shape preferences 0 Hshape) as (col & -> & _); [lia|].
    run.
    destruct (select_first_max (np.bincount col 5) (bincount_nonempty col))
      as (m & w & -> & Hw & _).
    run. rewrite Hw. run. by eexists.
  - unfold BordaRule.compute. cbv zeta.
    rewrite (borda_loop_raises preferences (seq 0 5)); try done.
    + apply Forall_forall. intros pos Hpos%elem_of_seq. lia.
    + apply list_elem_of_lookup in Hc as [pos Hpos].
      exists pos, row, c. split; [|done].
      apply elem_of_seq. apply lookup_lt_Some in Hpos.
      rewrite (proj1 (Forall_forall _ _) Hshape row Hrow) in Hpos. lia.
  - unfold CondorcetRule.compute. cbv zeta.
    rewrite build_ranks_raises; [done|].
    intros Hall.
    pose proof (proj1 (Forall_forall _ _)
                  (proj1 (Forall_forall _ _) Hall row Hrow) c Hc) as Hc5'.
    cbn in Hc5'. lia.
  - intros Hfirst. unfold IRVRule.compute. cbn [IRVRule.loop].
    unfold IRVRule.iteration.
    change (IRVRule.active IRVRule.initial) with (replicate 5 true).
    by rewrite (first_choices_raises preferences row c).
Qed.

Lemma out_of_range_candidate_witness :
  Forall (λ row, length row = 5%nat) [[0; 1; 2; 3; 4]; [7; 0; 1; 2; 3]]%nat ∧
  BordaRule.compute [[0; 1; 2; 3; 4]; [7; 0; 1; 2; 3]]%nat = Raise ValueError.
Proof.
  split; [by compute_done|].
  destruct (out_of_range_candidate stale_memory 0
              [[0; 1; 2; 3; 4]; [7; 0; 1; 2; 3]]%nat [7; 0; 1; 2; 3]%nat 7%nat)
    as (_ & H & _); [by compute_done|by compute_done|by compute_done|lia|exact H].
Defined.

(** * Further properties of the runoff and of the winners' tallies *)

Section RunoffPareto.

Lemma position_first c row p :
  position c row = Some p →
  ∀ q x, (q < p)%nat → row !! q = Some x → x ≠ c.
Proof.
  revert p. induction row as [|y row IH]; intros p Hp q x Hq Hx; [done|].
  cbn [position] in Hp. destruct (decide (y = c)) as [->|Hne].
  - injection Hp as <-. lia.
  - destruct (position c row) as [p'|] eqn:Hp'; [|done].
    injection Hp as <-. destruct q as [|q]; cbn in Hx.
    + by injection Hx as <-.
    + apply (IH p' eq_refl q x); [lia|done].
Qed.

(** The top active choice of a ballot is ranked above every other
    active candidate of the ballot. *)
Lemma top_active_prefers active row t c :
  top_active active row = Some t →
  c ∈ row → active !! c = Some true → c ≠ t →
  prefers row t c.
Proof.
  unfold top_active. intros Htop Hc Hact Hne.
  destruct (list_find _ row) as [[i x]|] eqn:Hfind; [|done].
  injection Htop as ->.
  apply list_find_Some in Hfind as (Hi & Ht & Hbefore).
  destruct (position_elem_of t row) as [i' Hi'];
    [apply list_elem_of_lookup; eauto|].
  destruct (position_elem_of c row Hc) as [j Hj].
  unfold prefers. rewrite Hi', Hj.
  pose proof (position_lookup _ _ _ Hi') as Hrow_i'.
  pose proof (position_lookup _ _ _ Hj) as Hrow_j.
  assert (i' ≤ i)%nat.
  { destruct (decide (i' ≤ i)%nat); [done|].
    exfalso. by apply (position_first t row i' Hi' i t ltac:(lia) Hi). }
  assert (¬ (j < i)%nat) by (intros Hlt; by apply (Hbefore j c Hrow_j Hlt)).
  assert (j ≠ i') by (intros ->; congruence).
  lia.
Qed.

Lemma prefers_trans row a b c :
  prefers row a b → prefers row b c → prefers row a c.
Proof.
  unfold prefers.
  destruct (position a row), (position b row), (position c row);
    try done. lia.
Qed.

Lemma prefers_elem_of row a b : prefers row a b → a ∈ row ∧ b ∈ row.
Proof.
  unfold prefers.
  destruct (position a row) as [i|] eqn:Hi; [|done].
  destruct (position b row) as [j|] eqn:Hj; [|done].
  intros _. split; apply list_elem_of_lookup; eexists;
    by eapply position_lookup.
Qed.

(** With an active candidate above [b] on the ballot, the top active
    choice is above [b]. *)
Lemma top_active_above active row c b :
  c ∈ row → active !! c = Some true → prefers row c b →
  ∃ t, top_active active row = Some t ∧ prefers row t b.
Proof.
  intros Hc Hact Hcb.
  destruct (top_active_is_Some active row c Hc Hact) as [t Ht].
  exists t. split; [done|].
  destruct (decide (c = t)) as [<-|Hne]; [done|].
  eapply prefers_trans; [|exact Hcb].
  by apply (top_active_prefers active row t c).
Qed.

(** Eliminating another candidate leaves the top choice in place. *)
Lemma top_active_insert_false active row t e :
  top_active active row = Some t → t ≠ e →
  top_active (<[e := false]> active) row = Some t.
Proof.
  unfold top_active. intros Htop Hne.
  destruct (list_find _ row) as [[i x]|] eqn:Hfind; [|done].
  injection Htop as ->.
  apply list_find_Some in Hfind as (Hi & Ht & Hbefore).
  assert (list_find (λ c, <[e := false]> active !! c = Some true) row =
          Some (i, t)) as ->; [|done].
  apply list_find_Some. split; [done|]. split.
  - by rewrite list_lookup_insert_ne.
  - intros j y Hy Hj Hact. apply (Hbefore j y Hy Hj).
    destruct (decide (e = y)) as [->|Hey].
    + apply lookup_lt_Some in Hact as Hlt. rewrite length_insert in Hlt.
      rewrite list_lookup_insert_eq in Hact by done. done.
    + by rewrite list_lookup_insert_ne in Hact.
Qed.

(** At most five candidate ids below 5 are distinct. *)
Lemma at_most_five (l : list Candidate) :
  NoDup l → (∀ c, c ∈ l → (c < 5)%nat) → (length l ≤ 5)%nat.
Proof.
  intros Hnd Hlt.
  assert (l ⊆+ seq 0 5) as Hsub.
  { apply NoDup_submseteq; [done|]. intros c Hc%Hlt.
    apply elem_of_seq. lia. }
  apply submseteq_length in Hsub. by rewrite length_seq in Hsub.
Qed.

Lemma round_counts_lookup active preferences c :
  (c < 5)%nat →
  round_counts active preferences !! c =
  Some (Z.of_nat (length (filter (λ row, top_active active row = Some c)
                                 preferences))).
Proof.
  intros Hc. unfold round_counts.
  by rewrite list_lookup_fmap, lookup_seq_lt.
Qed.

(** A shielded candidate that is still in has no vote. *)
Lemma shielded_count preferences b E :
  shielded preferences b E → b ∉ E →
  filter (λ row, top_active (active_after E) row = Some b) preferences = [].
Proof.
  intros [?|Htops] Hb; [done|].
  destruct (filter _ preferences) as [|row rows] eqn:Hrows; [done|].
  assert (row ∈ filter (λ row, top_active (active_after E) row = Some b)
                  preferences)
    as [Htop Hrow]%list_elem_of_filter by (rewrite Hrows; by left).
  destruct (Htops row Hrow) as (t & Ht & Hpref).
  rewrite Ht in Htop. injection Htop as ->.
  by destruct (prefers_asym row b b).
Qed.

End RunoffPareto.

Section RunoffEliminations.

(** The candidate a round eliminates has the fewest votes of that
    round among the active candidates. *)
Lemma iteration_eliminates_least preferences st s e :
  in_domain preferences → irv_inv st →
  IRVRule.iteration preferences st = Ok s →
  let E := IRVRule.elimination_order st in
  let counts := round_counts (active_after E) preferences in
  match s with
  | IRVRule.Continue st' => IRVRule.elimination_order st' = E ++ [e]
  | IRVRule.Return r =>
      aux r !! "elimination_order"%string = Some (ACands (E ++ [e]))
  end →
  ∀ c, active_after E !! c = Some true →
    ∃ me mc, counts !! e = Some me ∧ counts !! c = Some mc ∧ me ≤ mc.
Proof.
  intros Hdom [Hact Hnd Hrange Hlen] Hit E counts Hs c Hc.
  change (IRVRule.elimination_order st) with E in Hact, Hnd, Hrange, Hlen.
  assert (∀ e', E ≠ E ++ [e']) as Hgrow.
  { intros e' Heq%(f_equal length). rewrite length_app in Heq.
    cbn in Heq. lia. }
  unfold IRVRule.iteration in Hit. rewrite Hact in Hit.
  rewrite first_choices_Ok in Hit
    by (rewrite active_after_length; by apply in_domain_lt).
  run_in Hit.
  pose proof (bincount_round_counts (active_after E) preferences eq_refl)
    as Hbins.
  destruct (omap (top_active (active_after E)) preferences)
    as [|x fc] eqn:Hfc.
  { injection Hit as <-. cbn [aux] in Hs.
    rewrite lookup_singleton_eq in Hs. injection Hs as Hs.
    by destruct (Hgrow e). }
  rewrite Hbins in Hit. fold counts in Hit.
  case_decide.
  { injection Hit as <-. cbn [aux] in Hs.
    rewrite lookup_singleton_eq in Hs. injection Hs as Hs.
    by destruct (Hgrow e). }
  destruct (np.amax counts) as [m| |]; [|done..]. run_in Hit.
  case_decide.
  { destruct (np.argmax counts) as [w| |]; [|done..]. run_in Hit.
    injection Hit as <-. cbn [aux] in Hs. simplify_map_eq.
    by destruct (Hgrow e). }
  destruct (mask_select_Ok counts (active_after E)) as (sel & Hsel & Hsel_in);
    [done|].
  rewrite Hsel in Hit. run_in Hit.
  destruct (np.amin sel) as [mn| |] eqn:Hmn; [|done..]. run_in Hit.
  destruct (_alphabetical_tiebreak _) as [e0| |] eqn:He0; [|done..].
  run_in Hit.
  assert (e0 = e) as ->.
  { case_decide.
    - destruct (getitem _ _) as [w| |]; [|done..]. run_in Hit.
      injection Hit as <-. cbn [aux] in Hs. simplify_map_eq.
      by apply app_inj_tail in Hs as [_ ?].
    - injection Hit as <-. cbn [IRVRule.elimination_order] in Hs.
      by apply app_inj_tail in Hs as [_ ?]. }
  apply tiebreak_Ok in He0 as [[[_ He_cnt] _]%list_elem_of_filter _].
  destruct (amin_Ok sel mn Hmn) as [_ Hmin].
  assert (c < 5)%nat as Hc5 by (by apply active_after_true in Hc as [? _]).
  destruct (lookup_lt_is_Some_2 counts c) as [mc Hmc]; [done|].
  exists mn, mc. split; [done|]. split; [done|].
  apply Hmin, Hsel_in. eauto.
Qed.

Lemma round_counts_sum_nonneg active preferences :
  length active = 5%nat → 0 ≤ np.sum (round_counts active preferences).
Proof.
  intros Hlen. rewrite <- (bincount_round_counts active preferences Hlen).
  rewrite bincount_sum. lia.
Qed.

(** With a shielded candidate still in, the candidate a round
    eliminates has no vote. *)
Lemma eliminated_without_votes preferences st s b e :
  in_domain preferences → irv_inv st →
  IRVRule.iteration preferences st = Ok s →
  let E := IRVRule.elimination_order st in
  match s with
  | IRVRule.Continue st' => IRVRule.elimination_order st' = E ++ [e]
  | IRVRule.Return r =>
      aux r !! "elimination_order"%string = Some (ACands (E ++ [e]))
  end →
  (e < 5)%nat → (b < 5)%nat → b ∉ E → shielded preferences b E →
  filter (λ row, top_active (active_after E) row = Some e) preferences = [].
Proof.
  intros Hdom Hinv Hit E Hs He5 Hb5 HbE Hsh.
  destruct (iteration_eliminates_least preferences st s e Hdom Hinv Hit Hs b)
    as (me & mb & Hme & Hmb & Hle).
  { by apply active_after_true. }
  fold E in Hme, Hmb.
  rewrite round_counts_lookup in Hme, Hmb by done.
  rewrite (shielded_count preferences b E Hsh HbE) in Hmb.
  injection Hme as <-. injection Hmb as <-. cbn [length] in Hle.
  destruct (filter _ preferences); [done|]. cbn [length] in Hle. lia.
Qed.

(** The runoff never returns a shielded candidate. *)
Lemma loop_never_elects preferences b fuel : ∀ st,
  in_domain preferences → preferences ≠ [] → (b < 5)%nat →
  irv_inv st →
  shielded preferences b (IRVRule.elimination_order st) →
  returned_winner (IRVRule.loop fuel preferences st) ≠ Some (Some b).
Proof.
  induction fuel as [|fuel IH]; intros st Hdom Hne Hb5 Hinv Hsh; [done|].
  pose proof Hinv as [Hact Hnd Hrange Hlen].
  destruct (iteration_nonempty preferences st Hdom Hne Hinv)
    as [(w & m & Hit & Hw & Hmaj & Hw5 & HwE)
       |[(e & w & Hit & HlenE & He5 & HeE & Hw5 & HwE & Hwe)
        |(e & Hit & He5 & HeE & HlenE)]];
    set (E := IRVRule.elimination_order st) in *.
  - rewrite (loop_return _ _ _ _ Hit). cbn [returned_winner winner].
    intros [= ->].
    rewrite round_counts_lookup in Hw by done.
    rewrite (shielded_count preferences b E Hsh HwE) in Hw.
    injection Hw as <-.
    pose proof (round_counts_sum_nonneg (active_after E) preferences eq_refl).
    cbn [length] in Hmaj. lia.
  - rewrite (loop_return _ _ _ _ Hit). cbn [returned_winner winner].
    intros [= ->].
    pose proof (eliminated_without_votes preferences st _ b e Hdom Hinv Hit)
      as Hnone.
    cbn [aux] in Hnone. fold E in Hnone.
    specialize (Hnone ltac:(by simplify_map_eq) He5 Hb5 HwE Hsh).
    destruct Hsh as [?|Htops]; [done|].
    destruct preferences as [|row preferences]; [done|].
    destruct (Htops row ltac:(by left)) as (t & Ht & Hpref).
    pose proof (top_active_Some _ _ _ Ht) as [_ [Ht5 HtE]%active_after_true].
    assert (t ≠ b) by (intros ->; by destruct (prefers_asym row b b)).
    assert (t ≠ e).
    { intros ->. rewrite filter_cons, decide_True in Hnone by done. done. }
    assert (length (t :: b :: e :: E) ≤ 5)%nat as Hfive.
    { apply at_most_five.
      - repeat (apply list.NoDup_cons; split); try done.
        + rewrite !not_elem_of_cons. done.
        + rewrite !not_elem_of_cons. done.
      - intros c. rewrite !elem_of_cons.
        intros [->|[->|[->|Hc]]]; [done..|by apply Hrange]. }
    cbn [length] in Hfive. lia.
  - rewrite (loop_continue _ _ _ _ Hit).
    apply IH; try done.
    + by apply irv_inv_snoc.
    + cbn [IRVRule.elimination_order].
      destruct (decide (b ∈ E)) as [HbE|HbE];
        [left; apply elem_of_app; by left|].
      destruct (decide (b = e)) as [->|Hbe];
        [left; apply elem_of_app; right; by left|].
      pose proof (eliminated_without_votes preferences st _ b e Hdom Hinv Hit)
        as Hnone.
      cbn [IRVRule.elimination_order] in Hnone. fold E in Hnone.
      specialize (Hnone eq_refl He5 Hb5 HbE Hsh).
      destruct Hsh as [?|Htops]; [done|].
      right. intros row Hrow.
      destruct (Htops row Hrow) as (t & Ht & Hpref).
      exists t. split; [|done].
      rewrite active_after_snoc. apply top_active_insert_false; [done|].
      intros ->.
      assert (row ∈ filter (λ row, top_active (active_after E) row = Some e)
                      preferences) as Hin
        by (by apply list_elem_of_filter).
      rewrite Hnone in Hin. by apply elem_of_nil in Hin.
Qed.

End RunoffEliminations.

(** X19: if every ballot of a non-empty in-domain set ranks [a] above
    [b], the runoff does not return [b] as the winner, whatever the
    iteration budget: as long as [b] is in, no ballot counts for it,
    and the candidate a round eliminates has no vote either. *)
Theorem runoff_pareto preferences a b fuel :
  in_domain preferences → preferences ≠ [] →
  Forall (λ row, prefers row a b) preferences →
  returned_winner (IRVRule.compute fuel preferences) ≠ Some (Some b).
Proof.
  intros Hdom Hne Hall.
  assert (∀ row, row ∈ preferences → is_ballot row)
    as Hballot by (by apply Forall_forall).
  assert (∀ row, row ∈ preferences → prefers row a b)
    as Hpref by (by apply Forall_forall).
  assert ((a < 5)%nat ∧ (b < 5)%nat) as [Ha5 Hb5].
  { destruct preferences as [|row preferences]; [done|].
    destruct (prefers_elem_of row a b (Hpref row ltac:(by left))) as [Ha Hb].
    split; by apply (is_ballot_elem_of row _ (Hballot row ltac:(by left))). }
  apply loop_never_elects; try done; [apply irv_inv_initial|].
  right. intros row Hrow.
  change (IRVRule.elimination_order IRVRule.initial) with (@nil nat).
  apply (top_active_above _ row a b); [| |by apply Hpref].
  - by apply (is_ballot_elem_of row a (Hballot row Hrow)).
  - apply active_after_true. split; [done|apply not_elem_of_nil].
Qed.

Lemma runoff_pareto_witness :
  in_domain tied_ballots ∧ tied_ballots ≠ [] ∧
  Forall (λ row, prefers row 1%nat 3%nat) tied_ballots ∧
  returned_winner (IRVRule.compute 4 tied_ballots) ≠ Some (Some 3%nat).
Proof.
  split; [by compute_done|]. split; [done|]. split; [by compute_done|].
  apply (runoff_pareto tied_ballots 1%nat 3%nat 4);
    [by compute_done|done|by compute_done].
Defined.

Section AverageTally.

(** The largest of five tallies is at least their average. *)
Lemma least_maximiser_average (f : Candidate → Z) w :
  least_maximiser f w → np.sum (f <$> seq 0 5) ≤ 5 * f w.
Proof.
  intros (_ & Hmax & _). rewrite sum_five.
  pose proof (Hmax 0%nat ltac:(lia)). pose proof (Hmax 1%nat ltac:(lia)).
  pose proof (Hmax 2%nat ltac:(lia)). pose proof (Hmax 3%nat ltac:(lia)).
  pose proof (Hmax 4%nat ltac:(lia)). lia.
Qed.

Lemma borda_score_total preferences :
  in_domain preferences →
  np.sum (borda_score preferences <$> seq 0 5) =
  Z.of_nat (length preferences) * 10.
Proof.
  intros Hdom.
  destruct (borda_Ok preferences Hdom)
    as (r & w & scores & Hr & _ & _ & Hscores & Hsum & _).
  destruct (borda_loop_Ok preferences (seq 0 5) (np.zeros 5) Hdom)
    as (scores' & Hloop & Hlen & _ & Hlook).
  { apply list.Forall_forall. intros pos Hpos%elem_of_seq. lia. }
  { reflexivity. }
  unfold BordaRule.compute in Hr. rewrite Hloop in Hr.
  cbv zeta in Hr. run_in Hr.
  destruct (np.amax scores') as [m| |]; [|done..]. run_in Hr.
  destruct (_alphabetical_tiebreak _) as [w'| |]; [|done..]. run_in Hr.
  injection Hr as <-. cbn [aux] in Hscores.
  rewrite lookup_insert_eq in Hscores. injection Hscores as <-.
  rewrite <- Hsum. f_equal. symmetry. apply five_cells; [done|].
  intros c Hc. rewrite <- points_at_borda_score by done.
  rewrite (Hlook c 0); [f_equal; lia|].
  apply lookup_replicate. split; [done | lia].
Qed.

End AverageTally.

(** X20: on an in-domain ballot set the Plurality winner is in first
    place on at least a fifth of the ballots, and the Borda winner has
    at least the average score, two points per ballot. *)
Theorem winners_reach_the_average preferences :
  in_domain preferences →
  ∃ wp wb,
    returned_winner (PluralityRule.compute preferences) = Some (Some wp) ∧
    returned_winner (BordaRule.compute preferences) = Some (Some wb) ∧
    Z.of_nat (length preferences) ≤ 5 * first_place_count preferences wp ∧
    2 * Z.of_nat (length preferences) ≤ borda_score preferences wb.
Proof.
  intros Hdom.
  destruct (plurality_Ok preferences Hdom) as (rp & wp & -> & Hwp & Hleastp).
  destruct (borda_Ok preferences Hdom)
    as (rb & wb & scores & -> & Hwb & Hleastb & _).
  exists wp, wb. cbn [returned_winner]. rewrite Hwp, Hwb.
  split; [done|]. split; [done|].
  pose proof (least_maximiser_average _ _ Hleastp) as Hp.
  pose proof (least_maximiser_average _ _ Hleastb) as Hb.
  rewrite sum_five, first_place_total in Hp by done.
  rewrite borda_score_total in Hb by done.
  lia.
Qed.

Lemma winners_reach_the_average_witness :
  in_domain rotated_ballots ∧
  ∃ wp wb,
    returned_winner (PluralityRule.compute rotated_ballots) = Some (Some wp) ∧
    returned_winner (BordaRule.compute rotated_ballots) = Some (Some wb) ∧
    Z.of_nat (length rotated_ballots) ≤
      5 * first_place_count rotated_ballots wp ∧
    2 * Z.of_nat (length rotated_ballots) ≤ borda_score rotated_ballots wb.
Proof.
  split; [by compute_done|].
  apply winners_reach_the_average. by compute_done.
Defined.

Section BordaPairwise.

Lemma sum_Permutation (l l' : list Z) : l ≡ₚ l' → np.sum l = np.sum l'.
Proof.
  unfold np.sum. induction 1; cbn [foldr]; lia.
Qed.

Lemma position_NoDup row j b :
  NoDup row → row !! j = Some b → position b row = Some j.
Proof.
  intros Hnd. revert j. induction Hnd as [|x row Hx Hnd IH]; intros j Hj; [done|].
  destruct j as [|j]; cbn in Hj; cbn [position].
  - injection Hj as ->. by rewrite decide_True.
  - rewrite decide_False, (IH j Hj); [done|].
    intros ->. apply Hx. apply list_elem_of_lookup. eauto.
Qed.

Lemma prefers_positions row a b i j :
  position a row = Some i → position b row = Some j →
  prefers row a b ↔ (i < j)%nat.
Proof. unfold prefers. by intros -> ->. Qed.

(** Of the candidates at the given positions of a ballot, those ranked
    below the candidate at position [p] are the ones further down. *)
Lemma below_positions row c p (l : list nat) :
  NoDup row → position c row = Some p →
  Forall (λ j, j < length row)%nat l →
  np.sum ((λ b, if decide (prefers row c b) then 1 else 0) <$>
            omap (λ j, row !! j) l) =
  np.sum ((λ j, if decide (p < j)%nat then 1 else 0) <$> l).
Proof.
  intros Hnd Hp. induction 1 as [|j l Hj Hl IH]; [done|].
  destruct (lookup_lt_is_Some_2 row j Hj) as [b Hb].
  cbn [omap list_omap]. rewrite Hb. cbn [fmap list_fmap].
  unfold np.sum in *. cbn [foldr]. rewrite IH.
  by rewrite (decide_ext _ _ _ _
                (prefers_positions row c b p j Hp (position_NoDup row j b Hnd Hb))).
Qed.

(** The points a ballot gives a candidate are the candidates it ranks
    below it. *)
Lemma borda_points_below row c :
  is_ballot row → (c < 5)%nat →
  borda_points row c =
  np.sum ((λ b, if decide (prefers row c b) then 1 else 0) <$> seq 0 5).
Proof.
  intros Hrow Hc.
  apply (is_ballot_elem_of row c Hrow) in Hc.
  destruct (position_elem_of c row Hc) as [p Hp].
  pose proof (lookup_lt_Some _ _ _ (position_lookup c row p Hp)) as Hlt.
  rewrite <- (sum_Permutation _ _ (fmap_Permutation _ _ _ Hrow)).
  pose proof (is_ballot_NoDup row Hrow) as Hnd.
  pose proof (is_ballot_length row Hrow) as Hlen.
  assert (omap (λ j, row !! j) (seq 0 5) = row) as Hrows.
  { apply is_ballot_inv in Hrow as (x0 & x1 & x2 & x3 & x4 & -> & _).
    reflexivity. }
  rewrite <- Hrows at 2.
  rewrite (below_positions row c p (seq 0 5) Hnd Hp)
    by (rewrite Hlen; by compute_done).
  unfold borda_points. rewrite Hp. rewrite Hlen in Hlt.
  do 5 (destruct p as [|p]; [reflexivity|]). lia.
Qed.

(** The Borda score of a candidate is the number of its pairwise
    preferences over all the others. *)
Lemma borda_score_pairwise preferences c :
  in_domain preferences → (c < 5)%nat →
  borda_score preferences c =
  np.sum (preferring preferences c <$> seq 0 5).
Proof.
  intros Hdom Hc. induction Hdom as [|row preferences Hrow Hdom IH].
  - reflexivity.
  - rewrite borda_score_cons, IH, (borda_points_below row c Hrow Hc).
    rewrite !sum_five, !preferring_cons. lia.
Qed.

Lemma preferring_self preferences c : preferring preferences c c = 0.
Proof.
  induction preferences as [|row preferences IH]; [done|].
  rewrite preferring_cons, IH.
  rewrite decide_False; [done|]. intros H. by destruct (prefers_asym row c c).
Qed.

Lemma pairwise_matrix_row f c :
  (c < 5)%nat →
  pairwise_matrix f !! c =
  Some ((λ b, if decide (c = b) then 0 else f c b) <$> seq 0 5).
Proof.
  intros Hc. unfold pairwise_matrix.
  by rewrite list_lookup_fmap, lookup_seq_lt.
Qed.

(** What Borda returns on an in-domain array: the score vector and a
    score maximiser. *)
Lemma borda_result preferences :
  in_domain preferences →
  ∃ w,
    returned_winner (BordaRule.compute preferences) = Some (Some w) ∧
    returned_aux "scores" (BordaRule.compute preferences) =
      Some (AInts (borda_score preferences <$> seq 0 5)) ∧
    least_maximiser (borda_score preferences) w.
Proof.
  intros Hdom. unfold BordaRule.compute.
  destruct (borda_loop_Ok preferences (seq 0 5) (np.zeros 5) Hdom)
    as (scores & -> & Hlen & _ & Hlook).
  { apply list.Forall_forall. intros pos Hpos%elem_of_seq. lia. }
  { reflexivity. }
  assert (∀ c, (c < 5)%nat → scores !! c = Some (borda_score preferences c))
    as Hcells.
  { intros c Hc. rewrite <- points_at_borda_score by done.
    rewrite (Hlook c 0); [f_equal; lia|].
    apply lookup_replicate. split; [done | lia]. }
  destruct (select_tie scores (borda_score preferences) Hlen Hcells)
    as (m & w & Hm & Hw & Hleast & _).
  run. rewrite Hm. run. rewrite Hw. run.
  exists w. cbn [returned_winner returned_aux winner aux].
  split; [done|]. split; [|done].
  simplify_map_eq. do 2 f_equal. by apply five_cells.
Qed.

(** A candidate that beats all others pairwise scores above the
    average. *)
Lemma beats_all_others_score preferences w :
  in_domain preferences → beats_all_others preferences w →
  2 * Z.of_nat (length preferences) < borda_score preferences w.
Proof.
  intros Hdom [Hw Hbeats].
  rewrite (borda_score_pairwise preferences w Hdom Hw), sum_five.
  cbn [fmap list_fmap seq].
  assert (∀ b, (b < 5)%nat →
            b = w ∨ Z.of_nat (length preferences) < 2 * preferring preferences w b)
    as Hcell.
  { intros b Hb. destruct (decide (b = w)) as [->|Hne]; [by left|right].
    specialize (Hbeats b Hb Hne).
    pose proof (preferring_complement preferences w b Hdom Hw Hb
                  ltac:(congruence)). lia. }
  pose proof (preferring_self preferences w) as Hself.
  assert (∀ b, 0 ≤ preferring preferences w b) as Hpos
    by (intros b; unfold preferring; lia).
  destruct (Hcell 0%nat ltac:(lia)) as [<-|?],
           (Hcell 1%nat ltac:(lia)) as [?|?],
           (Hcell 2%nat ltac:(lia)) as [?|?],
           (Hcell 3%nat ltac:(lia)) as [?|?],
           (Hcell 4%nat ltac:(lia)) as [?|?]; subst; try lia.
Qed.

End BordaPairwise.

(** X24: on an in-domain set the Borda score vector is the vector of
    row sums of the pairwise matrix Condorcet returns, and a candidate
    Condorcet returns as winner has a Borda score above the average of
    two points per ballot. *)
Theorem borda_scores_from_pairwise_matrix uninitialised preferences :
  in_domain preferences → Z.of_nat (length preferences) < 2 ^ 31 →
  ∃ scores wins,
    returned_aux "scores" (BordaRule.compute preferences) =
      Some (AInts scores) ∧
    returned_aux "wins" (CondorcetRule.compute uninitialised preferences) =
      Some (AMatrix wins) ∧
    scores = np.sum <$> wins ∧
    ∀ w s,
      returned_winner (CondorcetRule.compute uninitialised preferences) =
        Some (Some w) →
      scores !! w = Some s →
      2 * Z.of_nat (length preferences) < s.
Proof.
  intros Hdom Hn.
  destruct (borda_result preferences Hdom) as (wb & _ & Hscores & _).
  destruct (condorcet_result uninitialised preferences Hdom Hn)
    as (wc & Hc & Hsome & _).
  exists (borda_score preferences <$> seq 0 5),
         (pairwise_matrix (preferring preferences)).
  split; [done|]. rewrite Hc. cbn [returned_aux returned_winner aux winner].
  split; [by simplify_map_eq|].
  split.
  - unfold pairwise_matrix. rewrite <- list_fmap_compose.
    apply list_fmap_ext. intros i c [-> Hc5]%lookup_seq. cbn [Nat.add compose].
    rewrite (borda_score_pairwise preferences i Hdom Hc5), !sum_five.
    cbn [fmap list_fmap seq].
    pose proof (preferring_self preferences i) as Hself.
    repeat case_decide; subst; lia.
  - intros w s [= ->] Hs.
    pose proof (proj1 (Hsome w) eq_refl) as Hbeats.
    pose proof Hbeats as [Hw5 _].
    rewrite list_lookup_fmap, lookup_seq_lt in Hs by done.
    injection Hs as <-.
    by apply beats_all_others_score.
Qed.

Lemma borda_scores_from_pairwise_matrix_witness :
  in_domain three_ballots ∧ Z.of_nat (length three_ballots) < 2 ^ 31 ∧
  ∃ scores wins,
    returned_aux "scores" (BordaRule.compute three_ballots) =
      Some (AInts scores) ∧
    returned_aux "wins" (CondorcetRule.compute stale_memory three_ballots) =
      Some (AMatrix wins) ∧
    scores = np.sum <$> wins.
Proof.
  split; [by compute_done|]. split; [done|].
  destruct (borda_scores_from_pairwise_matrix stale_memory three_ballots)
    as (scores & wins & Hs & Hw & Heq & _); [by compute_done|done|].
  by exists scores, wins.
Defined.

Section Unanimity.

Lemma unanimous_count preferences w :
  Forall (λ row, row !! 0%nat = Some w) preferences →
  first_place_count preferences w = Z.of_nat (length preferences).
Proof.
  intros Hall. unfold first_place_count.
  induction Hall as [|row preferences Hrow Hall IH]; [done|].
  rewrite ranked_at_cons, IH, decide_True by done. cbn [length]. lia.
Qed.

(** The first choice of every ballot has the highest Borda score, and
    alone. *)
Lemma borda_unanimous preferences w :
  in_domain preferences → preferences ≠ [] → (w < 5)%nat →
  Forall (λ row, row !! 0%nat = Some w) preferences →
  returned_winner (BordaRule.compute preferences) = Some (Some w).
Proof.
  intros Hdom Hne Hw Hall.
  destruct (borda_Ok preferences Hdom)
    as (r & w' & scores & -> & Hr & (Hw' & Hmax & _) & _).
  cbn [returned_winner]. rewrite Hr. do 2 f_equal.
  destruct (decide (w' = w)) as [|Hdiff]; [done|].
  assert (Forall (λ row, prefers row w w') preferences) as Hpref.
  { apply Forall_forall. intros row Hrow.
    apply first_place_prefers; [| |done|done].
    - by apply (proj1 (Forall_forall _ _) Hdom).
    - by apply (proj1 (Forall_forall _ _) Hall). }
  pose proof (unanimous_borda_score preferences w w' Hpref Hne).
  pose proof (Hmax w Hw). lia.
Qed.

End Unanimity.

(** X25: when every ballot of a non-empty in-domain set has the same
    first choice, Plurality, Borda, Condorcet and the runoff all return
    that candidate. *)
Theorem unanimity uninitialised fuel preferences w :
  in_domain preferences → preferences ≠ [] →
  Z.of_nat (length preferences) < 2 ^ 31 →
  Forall (λ row, row !! 0%nat = Some w) preferences →
  returned_winner (PluralityRule.compute preferences) = Some (Some w) ∧
  returned_winner (BordaRule.compute preferences) = Some (Some w) ∧
  returned_winner (CondorcetRule.compute uninitialised preferences) =
    Some (Some w) ∧
  returned_winner (IRVRule.compute (S fuel) preferences) = Some (Some w).
Proof.
  intros Hdom Hne Hn Hall.
  pose proof (unanimous_count preferences w Hall) as Hcount.
  assert (0 < Z.of_nat (length preferences)) as Hpos
    by (destruct preferences; [done|cbn [length]; lia]).
  assert (w < 5)%nat as Hw
    by (apply (first_place_lt preferences w Hdom); lia).
  assert (first_place_count preferences w * 2 > Z.of_nat (length preferences))
    as Hmaj by lia.
  split; [by apply plurality_majority|].
  split; [by apply borda_unanimous|].
  split; [by apply condorcet_majority|].
  by rewrite (runoff_majority fuel preferences w Hdom Hw Hmaj).
Qed.

Lemma unanimity_witness :
  in_domain [[2; 0; 1; 3; 4]; [2; 4; 3; 1; 0]]%nat ∧
  [[2; 0; 1; 3; 4]; [2; 4; 3; 1; 0]]%nat ≠ [] ∧
  Z.of_nat (length [[2; 0; 1; 3; 4]; [2; 4; 3; 1; 0]]%nat) < 2 ^ 31 ∧
  Forall (λ row, row !! 0%nat = Some 2%nat)
    [[2; 0; 1; 3; 4]; [2; 4; 3; 1; 0]]%nat ∧
  returned_winner (BordaRule.compute [[2; 0; 1; 3; 4]; [2; 4; 3; 1; 0]]%nat) =
    Some (Some 2%nat).
Proof.
  split; [by compute_done|]. split; [done|]. split; [done|].
  split; [by compute_done|].
  destruct (unanimity stale_memory 0 [[2; 0; 1; 3; 4]; [2; 4; 3; 1; 0]]%nat
              2%nat) as (_ & -> & _); [by compute_done|done|done|by compute_done|done].
Defined.
(** * Further properties of the sampler, the recorder and the engine *)

Section Table.

Lemma permutations_r_length {A} r : ∀ (l p : list A),
  p ∈ itertools.permutations_r r l → length p = r.
Proof.
  induction r as [|r IH]; intros l p Hp.
  - by apply list_elem_of_singleton in Hp as ->.
  - cbn [itertools.permutations_r] in Hp.
    apply list_elem_of_bind in Hp as ([x rest] & Hp & _).
    apply list_elem_of_fmap in Hp as (p' & -> & Hp').
    cbn [length]. f_equal. by apply (IH rest).
Qed.

Lemma permutations_r_nonempty {A} r : ∀ l : list A,
  (r ≤ length l)%nat → itertools.permutations_r r l ≠ [].
Proof.
  induction r as [|r IH]; intros l Hr; [done|].
  destruct l as [|x l]; [cbn in Hr; lia|].
  cbn [itertools.permutations_r itertools.picks].
  rewrite bind_cons. cbn [fst snd].
  specialize (IH l ltac:(cbn in Hr; lia)).
  destruct (itertools.permutations_r r l); done.
Qed.

Lemma permutations_NoDup : NoDup (itertools.permutations (seq 0 5)).
Proof. by compute_done. Qed.

Lemma permutations_complete :
  itertools.permutations (seq 0 5) ≡ₚ permutations (seq 0 5).
Proof. by compute_done. Qed.

End Table.

(** X8: [__init__] raises [ValueError] unless the candidate set has
    five labels, and otherwise keeps the candidate set, the generator
    and the table [_generate_all_permutations(5)] returns: 120 distinct
    rows, every id within [int8], a row being in the table exactly when
    it is a ballot.  [_generate_all_permutations(n)] returns a table
    for no other [n], and for [n] below 5 it raises [AssertionError]. *)
Theorem generator_table {Rng} (rng : Rng) (candidates : CandidateSet.t) :
  (∀ n perms,
     PreferenceGenerator._generate_all_permutations n = Ok perms →
     n = 5%nat) ∧
  (∀ n, (n < 5)%nat →
     PreferenceGenerator._generate_all_permutations n = Raise AssertionError) ∧
  (∃ perms,
     PreferenceGenerator._generate_all_permutations 5 = Ok perms ∧
     length perms = 120%nat ∧ NoDup perms ∧
     Forall (Forall (λ c, c ≤ 127)%nat) perms ∧
     (∀ p, p ∈ perms ↔ is_ballot p) ∧
     PreferenceGenerator.init rng candidates =
       if decide (CandidateSet.size candidates = 5%nat)
       then Ok (PreferenceGenerator.mk candidates rng perms)
       else Raise ValueError).
Proof.
  split; [|split].
  - intros n perms. unfold PreferenceGenerator._generate_all_permutations.
    unfold np.array_int8. case_decide; [|done]. run.
    case_decide as Hshape; [|done]. intros _. destruct Hshape as [_ Hrows].
    unfold itertools.permutations in Hrows. rewrite length_seq in Hrows.
    pose proof (permutations_r_nonempty n (seq 0 n)) as Hne.
    rewrite length_seq in Hne. specialize (Hne ltac:(lia)).
    destruct (itertools.permutations_r n (seq 0 n)) as [|p ps] eqn:Hperms;
      [done|].
    apply Forall_cons in Hrows as [Hp _].
    assert (length p = n) as Hlen; [|congruence].
    apply (permutations_r_length n (seq 0 n)). rewrite Hperms. by left.
  - intros n Hn. do 5 (destruct n as [|n]; [reflexivity|]). lia.
  - exists (itertools.permutations (seq 0 5)).
    split; [reflexivity|]. split; [reflexivity|].
    split; [apply permutations_NoDup|].
    split; [by compute_done|]. split.
    + intros p. rewrite permutations_complete, permutations_Permutation.
      unfold is_ballot. split; by intros ->.
    + unfold PreferenceGenerator.init.
      destruct (decide (CandidateSet.size candidates = 5%nat)) as [->|Hsize].
      * by rewrite decide_False by (by intros ?).
      * by rewrite decide_True.
Qed.

Section Sample.

Lemma sample_rows (idx : list nat) :
  Forall (λ i, i < 120)%nat idx →
  ∃ rows, mapM (getitem (itertools.permutations (seq 0 5))) idx = Ok rows ∧
          length rows = length idx ∧ in_domain rows ∧
          ∀ k i, idx !! k = Some i →
                 rows !! k = itertools.permutations (seq 0 5) !! i.
Proof.
  induction 1 as [|i idx Hi _ (rows & IH & Hlen & Hdom & Hrows)].
  { exists []. repeat split; [constructor|done]. }
  destruct (lookup_lt_is_Some_2 (itertools.permutations (seq 0 5)) i)
    as [b Hb]; [by rewrite permutations_length|].
  exists (b :: rows). cbn [mapM].
  rewrite (proj2 (getitem_Ok _ _ _) Hb). run. rewrite IH. run.
  split; [done|]. split; [cbn; by rewrite Hlen|]. split.
  - constructor; [|done].
    eapply (proj1 (Forall_forall _ _) permutations_ballots).
    apply list_elem_of_lookup. eauto.
  - intros [|k] j Hj; cbn in Hj |- *; [by injection Hj as <-|by apply Hrows].
Qed.

(** Drawing [num_voters] ballots from a ready generator. *)
Lemma sample_Ok {Rng} (integers : Rng → nat → nat → list nat * Rng)
    (g : PreferenceGenerator.t Rng) (num_voters : nat) :
  draws_in_range integers → generator_ready g →
  ∃ rows,
    PreferenceGenerator.sample integers g num_voters =
      Ok (rows,
          PreferenceGenerator.mk (PreferenceGenerator.candidates g)
            (integers (PreferenceGenerator.rng g) 120%nat num_voters).2
            (PreferenceGenerator._perms g)) ∧
    length rows = num_voters ∧ in_domain rows ∧
    ∀ k i, (integers (PreferenceGenerator.rng g) 120%nat num_voters).1 !! k
             = Some i →
           rows !! k = PreferenceGenerator._perms g !! i.
Proof.
  unfold generator_ready. intros Hdraws Hg.
  unfold PreferenceGenerator.sample. rewrite Hg, permutations_length.
  destruct (Hdraws (PreferenceGenerator.rng g) 120%nat num_voters)
    as [Hlen Hlt]; [lia|].
  destruct (integers _ 120%nat num_voters) as [idx rng'].
  cbn [fst snd] in *.
  destruct (sample_rows idx Hlt) as (rows & -> & Hrows & Hdom & Hlook).
  run. exists rows. split; [done|]. split; [congruence|]. done.
Qed.

End Sample.

(** X9: [sample(num_voters)] on a ready generator whose draws are in
    range never raises: it returns exactly [num_voters] rows, each one a
    ballot, row [k] being the row of the table at the k-th drawn index;
    the table and the candidate set are unchanged and the random state
    is the one the draw left. *)
Theorem sample_ballots {Rng} (integers : Rng → nat → nat → list nat * Rng)
    (g : PreferenceGenerator.t Rng) (num_voters : nat) :
  draws_in_range integers → generator_ready g →
  ∃ rows,
    PreferenceGenerator.sample integers g num_voters =
      Ok (rows,
          PreferenceGenerator.mk (PreferenceGenerator.candidates g)
            (integers (PreferenceGenerator.rng g) 120%nat num_voters).2
            (PreferenceGenerator._perms g)) ∧
    length rows = num_voters ∧ in_domain rows ∧
    ∀ k i, (integers (PreferenceGenerator.rng g) 120%nat num_voters).1 !! k
             = Some i →
           rows !! k = PreferenceGenerator._perms g !! i.
Proof. apply sample_Ok. Qed.

Lemma sample_ballots_witness :
  draws_in_range counting_integers ∧
  generator_ready (ProgressiveSimulator.pref_gen example_simulator) ∧
  ∃ rows g',
    PreferenceGenerator.sample counting_integers
      (ProgressiveSimulator.pref_gen example_simulator) 3 = Ok (rows, g') ∧
    length rows = 3%nat ∧ in_domain rows.
Proof.
  split; [apply counting_integers_in_range|]. split; [reflexivity|].
  destruct (sample_ballots counting_integers
              (ProgressiveSimulator.pref_gen example_simulator) 3
              counting_integers_in_range eq_refl)
    as (rows & Hs & Hlen & Hdom & _).
  exists rows. eexists. split; [exact Hs|]. split; [exact Hlen|exact Hdom].
Defined.

Section RunFile.

Context {Rng Timestamp : Type}.
Implicit Types (self : ProgressiveSimulator.t Rng Timestamp).

Lemma array_body_cons {R} (r : R) rest :
  array_body (r :: rest) =
  DataRecorder.Dumped r ::
  (if bool_decide (rest = []) then [] else [DataRecorder.Separator]) ++
  array_body rest.
Proof. by destruct rest. Qed.

Lemma records_array_body {R} (recs : list R) :
  DataRecorder.records (array_body recs) = recs.
Proof.
  induction recs as [|r rest IH]; [done|].
  destruct rest as [|r' rest]; [done|].
  change (array_body (r :: r' :: rest))
    with ([DataRecorder.Dumped r; DataRecorder.Separator] ++
          array_body (r' :: rest)).
  by rewrite records_app, IH.
Qed.

Lemma records_json_array {R} (recs : list R) :
  DataRecorder.records (json_array recs) = recs.
Proof.
  unfold json_array.
  change (DataRecorder.OpenArray :: ?c) with ([@DataRecorder.OpenArray R] ++ c).
  by rewrite !records_app, records_array_body, app_nil_r.
Qed.

(** What a step that completes has changed: one record appended to
    the run file, one clock reading, one allocation. *)
Lemma run_step_shape (integers : Rng → nat → nat → list nat * Rng)
    (time_time : nat → Timestamp) np_empty fuel run self prefs step s' :
  ProgressiveSimulator.run_step integers time_time np_empty fuel run
    (self, prefs) step = Ok s' →
  ∃ rec,
    ProgressiveSimulator.recorder s'.1 =
      DataRecorder.append_step (ProgressiveSimulator.recorder self) run rec
        (bool_decide (step = ProgressiveSimulator.max_voters
                               (ProgressiveSimulator.config self))) ∧
    ProgressiveSimulator.config s'.1 = ProgressiveSimulator.config self ∧
    ProgressiveSimulator.clock s'.1 = S (ProgressiveSimulator.clock self) ∧
    ProgressiveSimulator.allocations s'.1 =
      S (ProgressiveSimulator.allocations self).
Proof.
  unfold ProgressiveSimulator.run_step.
  destruct (PreferenceGenerator.sample _ _ _) as [[new_pref g']| |];
    [|done..].
  run. destruct (ProgressiveSimulator._compute_winners _ _ _ _)
    as [winners| |]; [|done..].
  run. intros [= <-]. by eexists.
Qed.

Lemma run_loop_shape (integers : Rng → nat → nat → list nat * Rng)
    (time_time : nat → Timestamp) np_empty fuel run j : ∀ k s s' content,
  for_loop (ProgressiveSimulator.run_step integers time_time np_empty
              fuel run) s (seq (S k) j) = Ok s' →
  (k + j)%nat = ProgressiveSimulator.max_voters
                  (ProgressiveSimulator.config s.1) →
  ProgressiveSimulator.recorder s.1 !! run = Some content →
  ∃ recs,
    length recs = j ∧
    ProgressiveSimulator.recorder s'.1 =
      <[run := content ++ array_body recs]>
        (ProgressiveSimulator.recorder s.1) ∧
    ProgressiveSimulator.config s'.1 = ProgressiveSimulator.config s.1 ∧
    ProgressiveSimulator.clock s'.1 =
      (ProgressiveSimulator.clock s.1 + j)%nat ∧
    ProgressiveSimulator.allocations s'.1 =
      (ProgressiveSimulator.allocations s.1 + j)%nat.
Proof.
  induction j as [|j IH]; intros k s s' content Hloop Hmax Hfile.
  - injection Hloop as <-. exists []. rewrite app_nil_r, !Nat.add_0_r.
    split; [done|]. split; [|done]. by rewrite insert_id.
  - cbn [seq for_loop] in Hloop.
    destruct s as [self prefs].
    destruct (ProgressiveSimulator.run_step _ _ _ _ _ _ _) as [s1| |] eqn:Hs1;
      [|done..].
    run_in Hloop.
    apply run_step_shape in Hs1 as (rec & Hrec & Hcfg & Hclock & Halloc).
    cbn [fst] in *.
    unfold DataRecorder.append_step in Hrec. rewrite Hfile in Hrec.
    change (default [] (Some content)) with content in Hrec.
    edestruct (IH (S k) s1 s') as (recs & Hlen & Hrec' & Hcfg' & Hclock' & Halloc');
      [exact Hloop | rewrite Hcfg; lia | rewrite Hrec; apply lookup_insert_eq |].
    exists (rec :: recs). split; [cbn; lia|].
    split; [|split; [congruence|split; lia]].
    rewrite Hrec', Hrec, insert_insert_eq. f_equal.
    rewrite array_body_cons, <- !app_assoc. cbn [app]. do 3 f_equal.
    destruct recs as [|r recs]; cbn [length] in Hlen.
    + rewrite !bool_decide_eq_true_2; [done..|lia].
    + rewrite !bool_decide_eq_false_2; [done..|lia].
Qed.

End RunFile.

Section RunSingle.

Context {Rng Timestamp : Type}.
Implicit Types (self : ProgressiveSimulator.t Rng Timestamp).

(** A run on a ready simulator: the file written, the records in it,
    and what else has changed. *)
Lemma run_single_Ok (integers : Rng → nat → nat → list nat * Rng)
    (time_time : nat → Timestamp) np_empty fuel self run :
  draws_in_range integers → (4 ≤ fuel)%nat →
  generator_ready (ProgressiveSimulator.pref_gen self) →
  Z.of_nat (ProgressiveSimulator.max_voters (ProgressiveSimulator.config self))
    < 2 ^ 31 →
  ∃ self' recs,
    ProgressiveSimulator._run_single integers time_time np_empty fuel
      self run = Ok self' ∧
    ProgressiveSimulator.recorder self' =
      <[run := json_array recs]> (ProgressiveSimulator.recorder self) ∧
    length recs = ProgressiveSimulator.max_voters
                    (ProgressiveSimulator.config self) ∧
    ProgressiveSimulator.config self' = ProgressiveSimulator.config self ∧
    generator_ready (ProgressiveSimulator.pref_gen self') ∧
    ProgressiveSimulator.clock self' =
      (ProgressiveSimulator.clock self + 1 + length recs)%nat ∧
    ProgressiveSimulator.allocations self' =
      (ProgressiveSimulator.allocations self + length recs)%nat ∧
    ∀ i rec, recs !! i = Some rec →
             step_record_ok np_empty fuel run recs i rec.
Proof.
  intros Hdraws Hfuel Hgen Hbound.
  set (cfg := ProgressiveSimulator.config self) in *.
  set (n := ProgressiveSimulator.max_voters cfg) in *.
  unfold ProgressiveSimulator._run_single.
  cbn [ProgressiveSimulator.config]. fold cfg. fold n.
  set (s0 := (ProgressiveSimulator.mk cfg _ _ _ _, [])).
  assert (ProgressiveSimulator.recorder s0.1 !! run =
          Some [DataRecorder.OpenArray]) as Hfile0
    by apply lookup_insert_eq.
  assert (run_inv np_empty fuel run cfg s0 0) as Hinv0.
  { split; [done|]. split; [done|]. split; [done|]. split; [constructor|].
    exists [DataRecorder.OpenArray].
    split; [done|]. split; [done|]. split; [done|].
    intros i rec Hrec. by destruct i. }
  destruct (run_loop_Ok integers time_time np_empty fuel run cfg n 0 s0)
    as ([self1 prefs1] & Hloop & Hinv);
    [done | done | by rewrite Nat.add_0_l | done |].
  rewrite Hloop. run.
  destruct (run_loop_shape integers time_time np_empty fuel run n 0 s0
              (self1, prefs1) _ Hloop eq_refl Hfile0)
    as (recs & Hlen & Hrec & Hcfg & Hclock & Halloc).
  unfold s0 in Hrec, Hcfg, Hclock, Halloc.
  cbn [fst snd ProgressiveSimulator.recorder ProgressiveSimulator.config
       ProgressiveSimulator.clock ProgressiveSimulator.allocations] in *.
  rewrite Nat.add_0_l in Hinv.
  destruct Hinv as (_ & Hgen1 & _ & _ & content & Hfile & _ & _ & Hall).
  cbn [fst snd] in *.
  rewrite Hrec, lookup_insert_eq in Hfile. injection Hfile as <-.
  change (DataRecorder.records (DataRecorder.OpenArray :: array_body recs))
    with (DataRecorder.records (array_body recs)) in Hall.
  rewrite records_array_body in Hall.
  eexists _, recs. split; [done|].
  cbn [ProgressiveSimulator.recorder ProgressiveSimulator.config
       ProgressiveSimulator.pref_gen ProgressiveSimulator.clock
       ProgressiveSimulator.allocations].
  split; [|split; [done|split; [done|split; [done|split; [lia|split; [lia|done]]]]]].
  unfold DataRecorder.end_run, DataRecorder.start_run.
  rewrite Hrec, lookup_insert_eq. unfold DataRecorder.start_run.
  by rewrite !insert_insert_eq.
Qed.

Lemma display_label (c : Candidate) :
  (c < 5)%nat → ∃ l, display (Some c) = Some l ∧ is_label l.
Proof.
  intros Hc. unfold is_label.
  do 5 (destruct c as [|c];
        [eexists; split; [reflexivity|by compute_done]|]).
  lia.
Qed.

(** The winners map of a non-empty in-domain ballot set: only the
    Condorcet entry can be absent. *)
Lemma winners_of_labels uninitialised fuel prefs m :
  (4 ≤ fuel)%nat → in_domain prefs → prefs ≠ [] →
  winners_of uninitialised fuel prefs m →
  ∃ lp lb oc li,
    m = {[ "plurality"%string := Some lp; "borda"%string := Some lb;
           "condorcet"%string := oc; "irv"%string := Some li ]} ∧
    is_label lp ∧ is_label lb ∧ is_label li ∧
    ∀ lc, oc = Some lc → is_label lc.
Proof.
  intros Hfuel Hdom Hne (pl & bd & cd & ir & Hpl & Hbd & Hcd & Hir & Hlt & ->).
  destruct (plurality_Ok prefs Hdom) as (pl' & wp & Hpl' & Hwp & Hp5 & _).
  destruct (borda_Ok prefs Hdom) as (bd' & wb & _ & Hbd' & Hwb & [Hb5 _] & _).
  destruct (irv_compute_Ok prefs Hdom) as (ir' & Hir' & Hpost).
  destruct (irv_post_order _ _ _ Hpost) as (E & _ & _ & _ & _ & Hnone & Hi5).
  rewrite Hpl in Hpl'. injection Hpl' as <-.
  rewrite Hbd in Hbd'. injection Hbd' as <-.
  rewrite (Hir' fuel Hfuel) in Hir. injection Hir as ->.
  destruct (winner ir) as [wi|] eqn:Hwi; [|by destruct Hne; apply Hnone].
  destruct (Hi5 wi eq_refl) as [Hwi5 _].
  destruct (display_label wp Hp5) as (lp & Hlp & ?).
  destruct (display_label wb Hb5) as (lb & Hlb & ?).
  destruct (display_label wi Hwi5) as (li & Hli & ?).
  exists lp, lb, (display (winner cd)), li.
  rewrite Hwp, Hwb, Hlp, Hlb, Hli. split; [done|].
  repeat (split; [done|]).
  intros lc Hlc. apply Forall_cons in Hlt as [_ Hlt].
  apply Forall_cons in Hlt as [_ Hlt]. apply Forall_cons in Hlt as [Hc5 _].
  destruct (winner cd) as [wc|]; [|done].
  destruct (display_label wc (Hc5 wc eq_refl)) as (l & Hl & ?).
  congruence.
Qed.

End RunSingle.

(** X10: [_run_single] leaves a complete JSON array in the file of the
    run: the opening bracket, the [max_voters] records with a separator
    between two records and none after the last, the closing bracket.
    Whatever the file held before is overwritten, every other run file
    is untouched, the configuration is unchanged, and the run has read
    the clock once per step and once more and has allocated once per
    step. *)
Theorem run_file_well_formed {Rng Timestamp : Type}
    (integers : Rng → nat → nat → list nat * Rng)
    (time_time : nat → Timestamp) (np_empty : nat → nat → nat → Z)
    (fuel : nat) (self : ProgressiveSimulator.t Rng Timestamp) (run : nat) :
  draws_in_range integers →
  (4 ≤ fuel)%nat →
  generator_ready (ProgressiveSimulator.pref_gen self) →
  Z.of_nat (ProgressiveSimulator.max_voters (ProgressiveSimulator.config self))
    < 2 ^ 31 →
  ∃ self' recs,
    ProgressiveSimulator._run_single integers time_time np_empty fuel self run
      = Ok self' ∧
    ProgressiveSimulator.recorder self' =
      <[run := json_array recs]> (ProgressiveSimulator.recorder self) ∧
    length recs =
      ProgressiveSimulator.max_voters (ProgressiveSimulator.config self) ∧
    ProgressiveSimulator.config self' = ProgressiveSimulator.config self ∧
    ProgressiveSimulator.clock self' =
      (ProgressiveSimulator.clock self + 1 + length recs)%nat ∧
    ProgressiveSimulator.allocations self' =
      (ProgressiveSimulator.allocations self + length recs)%nat.
Proof.
  intros Hdraws Hfuel Hgen Hbound.
  destruct (run_single_Ok integers time_time np_empty fuel self run
              Hdraws Hfuel Hgen Hbound)
    as (self' & recs & Hrun & Hfile & Hlen & Hcfg & _ & Hclock & Halloc & _).
  by exists self', recs.
Qed.

Lemma run_file_well_formed_witness :
  draws_in_range counting_integers ∧
  generator_ready (ProgressiveSimulator.pref_gen example_simulator) ∧
  ∃ self' recs,
    ProgressiveSimulator._run_single counting_integers id
      (λ _, stale_memory) 4 example_simulator 2 = Ok self' ∧
    ProgressiveSimulator.recorder self' =
      <[2%nat := json_array recs]>
        (ProgressiveSimulator.recorder example_simulator) ∧
    length recs = 3%nat.
Proof.
  split; [apply counting_integers_in_range|]. split; [reflexivity|].
  destruct (run_file_well_formed counting_integers id (λ _, stale_memory)
              4 example_simulator 2 counting_integers_in_range
              ltac:(lia) eq_refl eq_refl)
    as (self' & recs & Hrun & Hfile & Hlen & _).
  exists self', recs. split; [exact Hrun|]. split; [exact Hfile|exact Hlen].
Defined.

(** X11: in every record of a run the winners map has exactly the keys
    [plurality], [borda], [condorcet] and [irv]; the Plurality, Borda
    and runoff entries are display labels, never absent; only the
    Condorcet entry can be absent. *)
Theorem recorded_winners_are_labels {Rng Timestamp : Type}
    (integers : Rng → nat → nat → list nat * Rng)
    (time_time : nat → Timestamp) (np_empty : nat → nat → nat → Z)
    (fuel : nat) (self : ProgressiveSimulator.t Rng Timestamp) (run : nat) :
  draws_in_range integers →
  (4 ≤ fuel)%nat →
  generator_ready (ProgressiveSimulator.pref_gen self) →
  Z.of_nat (ProgressiveSimulator.max_voters (ProgressiveSimulator.config self))
    < 2 ^ 31 →
  ∃ self' recs,
    ProgressiveSimulator._run_single integers time_time np_empty fuel self run
      = Ok self' ∧
    ProgressiveSimulator.recorder self' !! run = Some (json_array recs) ∧
    ∀ rec, rec ∈ recs →
      ∃ lp lb oc li,
        ProgressiveSimulator.winners rec =
          {[ "plurality"%string := Some lp; "borda"%string := Some lb;
             "condorcet"%string := oc; "irv"%string := Some li ]} ∧
        is_label lp ∧ is_label lb ∧ is_label li ∧
        ∀ lc, oc = Some lc → is_label lc.
Proof.
  intros Hdraws Hfuel Hgen Hbound.
  destruct (run_single_Ok integers time_time np_empty fuel self run
              Hdraws Hfuel Hgen Hbound)
    as (self' & recs & Hrun & Hfile & _ & _ & _ & _ & _ & Hall).
  exists self', recs. split; [done|].
  split; [rewrite Hfile; apply lookup_insert_eq|].
  intros rec [i Hi]%list_elem_of_lookup.
  destruct (Hall i rec Hi) as (_ & _ & Hlen & Hdom & _ & allocation & Hwin).
  apply (winners_of_labels (np_empty allocation) fuel
           (ProgressiveSimulator.voter_preferences rec)); try done.
  intros Hnil. by rewrite Hnil in Hlen.
Qed.

Lemma recorded_winners_are_labels_witness :
  draws_in_range counting_integers ∧
  generator_ready (ProgressiveSimulator.pref_gen example_simulator) ∧
  ∃ self' recs,
    ProgressiveSimulator._run_single counting_integers id
      (λ _, stale_memory) 4 example_simulator 1 = Ok self' ∧
    ProgressiveSimulator.recorder self' !! 1%nat = Some (json_array recs) ∧
    ∀ rec, rec ∈ recs →
      ∃ lp, ProgressiveSimulator.winners rec !! "plurality"%string =
              Some (Some lp) ∧ is_label lp.
Proof.
  split; [apply counting_integers_in_range|]. split; [reflexivity|].
  destruct (recorded_winners_are_labels counting_integers id
              (λ _, stale_memory) 4 example_simulator 1
              counting_integers_in_range ltac:(lia) eq_refl eq_refl)
    as (self' & recs & Hrun & Hfile & Hall).
  exists self', recs. split; [exact Hrun|]. split; [exact Hfile|].
  intros rec Hrec.
  destruct (Hall rec Hrec) as (lp & lb & oc & li & Hwin & Hlp & _).
  exists lp. split; [|exact Hlp]. rewrite Hwin. reflexivity.
Defined.

Section Run.

Context {Rng Timestamp : Type}.
Implicit Types (self : ProgressiveSimulator.t Rng Timestamp).

(** The loop of [run] over a list of distinct run ids. *)
Lemma run_ids_Ok (integers : Rng → nat → nat → list nat * Rng)
    (time_time : nat → Timestamp) np_empty fuel (ids : list nat) : ∀ self,
  NoDup ids →
  draws_in_range integers → (4 ≤ fuel)%nat →
  generator_ready (ProgressiveSimulator.pref_gen self) →
  Z.of_nat (ProgressiveSimulator.max_voters (ProgressiveSimulator.config self))
    < 2 ^ 31 →
  ∃ self',
    for_loop (λ self run,
                if ProgressiveSimulator.resume
                     (ProgressiveSimulator.config self) &&
                   ProgressiveSimulator._run_exists self run
                then mret self
                else ProgressiveSimulator._run_single integers time_time
                       np_empty fuel self run)
             self ids = Ok self' ∧
    ProgressiveSimulator.config self' = ProgressiveSimulator.config self ∧
    generator_ready (ProgressiveSimulator.pref_gen self') ∧
    (∀ id, id ∉ ids →
       ProgressiveSimulator.recorder self' !! id =
       ProgressiveSimulator.recorder self !! id) ∧
    (∀ id, id ∈ ids →
       if ProgressiveSimulator.resume (ProgressiveSimulator.config self) &&
          ProgressiveSimulator._run_exists self id
       then ProgressiveSimulator.recorder self' !! id =
            ProgressiveSimulator.recorder self !! id
       else ∃ recs,
              ProgressiveSimulator.recorder self' !! id =
                Some (json_array recs) ∧
              length recs = ProgressiveSimulator.max_voters
                              (ProgressiveSimulator.config self)).
Proof.
  induction ids as [|run ids IH]; intros self Hnd Hdraws Hfuel Hgen Hbound.
  { exists self. repeat split; try done. by intros id ?%elem_of_nil. }
  apply list.NoDup_cons in Hnd as [Hrun Hnd]. cbn [for_loop].
  destruct (ProgressiveSimulator.resume (ProgressiveSimulator.config self) &&
            ProgressiveSimulator._run_exists self run) eqn:Hskip.
  - run. destruct (IH self Hnd Hdraws Hfuel Hgen Hbound)
      as (self' & -> & Hcfg & Hgen' & Hout & Hin).
    exists self'. split; [done|]. split; [done|]. split; [done|]. split.
    + intros id [Hne Hid]%not_elem_of_cons. by apply Hout.
    + intros id [->|Hid]%elem_of_cons; [|by apply Hin].
      rewrite Hskip. by apply Hout.
  - destruct (run_single_Ok integers time_time np_empty fuel self run
                Hdraws Hfuel Hgen Hbound)
      as (self1 & recs & -> & Hfile & Hlen & Hcfg1 & Hgen1 & _).
    run. destruct (IH self1 Hnd Hdraws Hfuel Hgen1)
      as (self' & -> & Hcfg & Hgen' & Hout & Hin); [by rewrite Hcfg1|].
    exists self'. split; [done|]. split; [congruence|]. split; [done|].
    split.
    + intros id [Hne Hid]%not_elem_of_cons.
      rewrite (Hout id Hid), Hfile. by apply lookup_insert_ne.
    + intros id [->|Hid]%elem_of_cons.
      * rewrite Hskip. exists recs. split; [|done].
        rewrite (Hout run Hrun), Hfile. apply lookup_insert_eq.
      * assert (id ≠ run) as Hne by (by intros ->).
        specialize (Hin id Hid).
        unfold ProgressiveSimulator._run_exists in Hin |- *.
        rewrite Hcfg1, Hfile, lookup_insert_ne in Hin by done.
        exact Hin.
Qed.

End Run.

(** X12: [run] goes through the run ids [1 .. runs].  With [resume]
    set, a run whose file exists is skipped and no file that existed is
    changed; every other id in range gets a complete file of
    [max_voters] records; files of ids out of range are untouched. *)
Theorem run_resumes {Rng Timestamp : Type}
    (integers : Rng → nat → nat → list nat * Rng)
    (time_time : nat → Timestamp) (np_empty : nat → nat → nat → Z)
    (fuel : nat) (self : ProgressiveSimulator.t Rng Timestamp) :
  draws_in_range integers →
  (4 ≤ fuel)%nat →
  generator_ready (ProgressiveSimulator.pref_gen self) →
  Z.of_nat (ProgressiveSimulator.max_voters (ProgressiveSimulator.config self))
    < 2 ^ 31 →
  let cfg := ProgressiveSimulator.config self in
  ∃ self',
    ProgressiveSimulator.run integers time_time np_empty fuel self = Ok self' ∧
    (∀ id, ¬ (1 ≤ id ≤ ProgressiveSimulator.runs cfg)%nat →
       ProgressiveSimulator.recorder self' !! id =
       ProgressiveSimulator.recorder self !! id) ∧
    (ProgressiveSimulator.resume cfg = true →
     ∀ id content,
       ProgressiveSimulator.recorder self !! id = Some content →
       ProgressiveSimulator.recorder self' !! id = Some content) ∧
    (∀ id, (1 ≤ id ≤ ProgressiveSimulator.runs cfg)%nat →
       ProgressiveSimulator.resume cfg = false ∨
       ProgressiveSimulator.recorder self !! id = None →
       ∃ recs,
         ProgressiveSimulator.recorder self' !! id = Some (json_array recs) ∧
         length recs = ProgressiveSimulator.max_voters cfg).
Proof.
  intros Hdraws Hfuel Hgen Hbound cfg.
  destruct (run_ids_Ok integers time_time np_empty fuel
              (seq 1 (ProgressiveSimulator.runs cfg)) self
              (NoDup_seq _ _) Hdraws Hfuel Hgen Hbound)
    as (self' & Hrun & _ & _ & Hout & Hin).
  assert (∀ id, id ∈ seq 1 (ProgressiveSimulator.runs cfg) ↔
                (1 ≤ id ≤ ProgressiveSimulator.runs cfg)%nat) as Hids
    by (intros id; rewrite elem_of_seq; lia).
  exists self'. split; [exact Hrun|]. split; [|split].
  - intros id Hid. apply Hout. by rewrite Hids.
  - intros Hresume id content Hfile.
    destruct (decide (id ∈ seq 1 (ProgressiveSimulator.runs cfg))) as [Hid|Hid].
    + specialize (Hin id Hid). fold cfg in Hin. rewrite Hresume in Hin.
      unfold ProgressiveSimulator._run_exists in Hin.
      rewrite bool_decide_eq_true_2 in Hin by (by rewrite Hfile).
      cbn in Hin. by rewrite Hin.
    + by rewrite (Hout id Hid).
  - intros id Hid%Hids Hnew. specialize (Hin id Hid). fold cfg in Hin.
    destruct Hnew as [Hresume|Hnone].
    + by rewrite Hresume in Hin.
    + unfold ProgressiveSimulator._run_exists in Hin.
      rewrite bool_decide_eq_false_2, andb_false_r in Hin; [done|].
      rewrite Hnone. by intros [? ?].
Qed.

Lemma run_resumes_witness :
  draws_in_range counting_integers ∧
  generator_ready (ProgressiveSimulator.pref_gen example_simulator) ∧
  ∃ self',
    ProgressiveSimulator.run counting_integers id (λ _, stale_memory) 4
      example_simulator = Ok self' ∧
    ∃ recs,
      ProgressiveSimulator.recorder self' !! 2%nat = Some (json_array recs) ∧
      length recs = 3%nat.
Proof.
  split; [apply counting_integers_in_range|]. split; [reflexivity|].
  destruct (run_resumes counting_integers id (λ _, stale_memory) 4
              example_simulator counting_integers_in_range
              ltac:(lia) eq_refl eq_refl)
    as (self' & Hrun & _ & _ & Hnew).
  exists self'. split; [exact Hrun|].
  apply (Hnew 2%nat); [cbn; lia|]. right. reflexivity.
Defined.

(** * The snapshots of a run, and the commands *)

Section Snapshots.

Context {Timestamp : Type}.
Implicit Types (recs : list (ProgressiveSimulator.StepRecord Timestamp)).

(** Every snapshot of a run is an initial part of every later one. *)
Lemma snapshots_prefix recs :
  (∀ i rec, recs !! i = Some rec →
     length (ProgressiveSimulator.voter_preferences rec) = S i ∧
     ∃ b, ProgressiveSimulator.voter_preferences rec =
            previous_ballots recs i ++ [b]) →
  ∀ j recj, recs !! j = Some recj →
    ∀ i reci, (i ≤ j)%nat → recs !! i = Some reci →
      ProgressiveSimulator.voter_preferences reci =
      take (S i) (ProgressiveSimulator.voter_preferences recj).
Proof.
  intros Hgrow j. induction j as [|j IH]; intros recj Hj i reci Hij Hi.
  - assert (i = 0%nat) as -> by lia. rewrite Hj in Hi. injection Hi as <-.
    destruct (Hgrow _ _ Hj) as [Hlen _]. by rewrite take_ge by lia.
  - destruct (Hgrow _ _ Hj) as [Hlen [b Hb]].
    destruct (decide (i = S j)) as [->|Hne].
    { rewrite Hj in Hi. injection Hi as <-. by rewrite take_ge by lia. }
    destruct (lookup_lt_is_Some_2 recs j) as [recj' Hj'].
    { apply lookup_lt_Some in Hj. lia. }
    cbn [previous_ballots] in Hb. rewrite Hj' in Hb. cbn [from_option] in Hb.
    rewrite (IH recj' Hj' i reci ltac:(lia) Hi), Hb.
    destruct (Hgrow _ _ Hj') as [Hlen' _].
    by rewrite take_app_le by lia.
Qed.

End Snapshots.

(** X22: the snapshots of a run are nested: there is one sequence of
    [max_voters] ballots, those of the last record, such that the
    record of step [k] holds exactly its first [k] ballots. *)
Theorem run_snapshots_nested {Rng Timestamp : Type}
    (integers : Rng → nat → nat → list nat * Rng)
    (time_time : nat → Timestamp) (np_empty : nat → nat → nat → Z)
    (fuel : nat) (self : ProgressiveSimulator.t Rng Timestamp) (run : nat) :
  draws_in_range integers →
  (4 ≤ fuel)%nat →
  generator_ready (ProgressiveSimulator.pref_gen self) →
  Z.of_nat (ProgressiveSimulator.max_voters (ProgressiveSimulator.config self))
    < 2 ^ 31 →
  ∃ self' recs ballots,
    ProgressiveSimulator._run_single integers time_time np_empty fuel self run
      = Ok self' ∧
    ProgressiveSimulator.recorder self' !! run = Some (json_array recs) ∧
    length ballots =
      ProgressiveSimulator.max_voters (ProgressiveSimulator.config self) ∧
    in_domain ballots ∧
    ∀ i rec, recs !! i = Some rec →
      ProgressiveSimulator.voter_preferences rec = take (S i) ballots.
Proof.
  intros Hdraws Hfuel Hgen Hbound.
  destruct (run_single_Ok integers time_time np_empty fuel self run
              Hdraws Hfuel Hgen Hbound)
    as (self' & recs & Hrun & Hfile & Hlen & _ & _ & _ & _ & Hall).
  assert (∀ i rec, recs !! i = Some rec →
            length (ProgressiveSimulator.voter_preferences rec) = S i ∧
            ∃ b, ProgressiveSimulator.voter_preferences rec =
                   previous_ballots recs i ++ [b]) as Hgrow.
  { intros i rec Hi.
    destruct (Hall i rec Hi) as (_ & _ & Hcount & _ & (b & _ & Hb) & _).
    split; [done|]. by exists b. }
  exists self', recs.
  exists (from_option ProgressiveSimulator.voter_preferences [] (last recs)).
  split; [done|]. split; [rewrite Hfile; apply lookup_insert_eq|].
  destruct (last recs) as [final|] eqn:Hlast.
  - rewrite last_lookup in Hlast. cbn [from_option].
    destruct (Hall _ _ Hlast) as (_ & _ & Hcount & Hdom & _).
    split; [|split; [done|]].
    + rewrite Hcount, <- Hlen. apply lookup_lt_Some in Hlast. lia.
    + intros i rec Hi.
      apply (snapshots_prefix recs Hgrow _ final Hlast); [|done].
      apply lookup_lt_Some in Hi. lia.
  - apply last_None in Hlast. subst recs. cbn [from_option].
    split; [done|]. split; [constructor|]. intros i rec Hi. by destruct i.
Qed.

Lemma run_snapshots_nested_witness :
  draws_in_range counting_integers ∧
  generator_ready (ProgressiveSimulator.pref_gen example_simulator) ∧
  ∃ self' recs ballots,
    ProgressiveSimulator._run_single counting_integers id
      (λ _, stale_memory) 4 example_simulator 1 = Ok self' ∧
    ProgressiveSimulator.recorder self' !! 1%nat = Some (json_array recs) ∧
    length ballots = 3%nat ∧
    ∀ i rec, recs !! i = Some rec →
      ProgressiveSimulator.voter_preferences rec = take (S i) ballots.
Proof.
  split; [apply counting_integers_in_range|]. split; [reflexivity|].
  destruct (run_snapshots_nested counting_integers id (λ _, stale_memory)
              4 example_simulator 1 counting_integers_in_range
              ltac:(lia) eq_refl eq_refl)
    as (self' & recs & ballots & Hrun & Hfile & Hlen & _ & Hall).
  exists self', recs, ballots.
  split; [exact Hrun|]. split; [exact Hfile|]. split; [exact Hlen|exact Hall].
Defined.

Section Commands.

Context {Rng Timestamp : Type}.

Lemma default_rng_Ok (seeded : option Z → Rng) seed :
  ¬ negative_seed seed → cli.default_rng seeded seed = Ok (seeded seed).
Proof.
  destruct seed as [s|]; [|done]. cbn [negative_seed cli.default_rng].
  intros Hs. by rewrite decide_False.
Qed.

Lemma default_rng_refuses (seeded : option Z → Rng) seed :
  negative_seed seed → cli.default_rng seeded seed = Raise ValueError.
Proof.
  destruct seed as [s|]; [|done]. cbn [negative_seed cli.default_rng].
  intros Hs. by rewrite decide_True.
Qed.

(** A command that builds the simulator for [runs] runs of
    [max_voters] voters, resuming, and runs it. *)
Lemma command_Ok (integers : Rng → nat → nat → list nat * Rng)
    (time_time : nat → Timestamp) np_empty fuel seeded
    runs max_voters seed
    (files : gmap nat (list (DataRecorder.chunk
                               (ProgressiveSimulator.StepRecord Timestamp)))) :
  draws_in_range integers → (4 ≤ fuel)%nat →
  Z.of_nat max_voters < 2 ^ 31 →
  ¬ negative_seed seed →
  ∃ sim sim',
    cli.simulator seeded
      (ProgressiveSimulator.mkConfig runs max_voters seed true true) files =
      Ok sim ∧
    ProgressiveSimulator.run integers time_time np_empty fuel sim = Ok sim' ∧
    (∀ id content, files !! id = Some content →
       ProgressiveSimulator.recorder sim' !! id = Some content) ∧
    (∀ id, (1 ≤ id ≤ runs)%nat → files !! id = None →
       ∃ recs, ProgressiveSimulator.recorder sim' !! id =
                 Some (json_array recs) ∧
               length recs = max_voters) ∧
    (∀ id, ¬ (1 ≤ id ≤ runs)%nat →
       ProgressiveSimulator.recorder sim' !! id = files !! id).
Proof.
  intros Hdraws Hfuel Hbound Hseed.
  set (sim := ProgressiveSimulator.mk
                (ProgressiveSimulator.mkConfig runs max_voters seed true true)
                files
                (PreferenceGenerator.mk CandidateSet.default
                   (seeded seed) (itertools.permutations (seq 0 5)))
                0 0).
  destruct (run_ids_Ok integers time_time np_empty fuel (seq 1 runs) sim
              (NoDup_seq _ _) Hdraws Hfuel eq_refl Hbound)
    as (sim' & Hrun & _ & _ & Hout & Hin).
  exists sim, sim'. split.
  { unfold cli.simulator. cbn [ProgressiveSimulator.seed].
    rewrite (default_rng_Ok seeded seed Hseed). reflexivity. }
  split; [exact Hrun|].
  clear Hrun.
  unfold sim in Hout, Hin.
  cbn [ProgressiveSimulator.config ProgressiveSimulator.resume
       ProgressiveSimulator.recorder andb] in Hout, Hin.
  unfold ProgressiveSimulator._run_exists in Hin.
  cbn [ProgressiveSimulator.recorder] in Hin.
  split; [|split].
  - intros id content Hfile.
    destruct (decide (id ∈ seq 1 runs)) as [Hid|Hid].
    + specialize (Hin id Hid).
      rewrite bool_decide_eq_true_2 in Hin by (by rewrite Hfile).
      by rewrite Hin.
    + by rewrite (Hout id Hid).
  - intros id Hid Hnone. specialize (Hin id ltac:(apply elem_of_seq; lia)).
    rewrite bool_decide_eq_false_2 in Hin; [done|].
    rewrite Hnone. by intros [? ?].
  - intros id Hid. apply Hout. rewrite elem_of_seq. lia.
Qed.

End Commands.

(** X21: given a seed that [np.random.default_rng] accepts ([None] or
    a non-negative integer), [cmd_small] and [cmd_full] build the
    simulator and run it without raising, and print their closing
    message: a run file that was on disk is left as it was, every other
    run id from 1 to 10 (to 1000) gets a complete file of 50 (of 500)
    records, and no other file is touched.  Given a negative seed, both
    commands raise [ValueError] while the simulator is built: no run is
    made and nothing is printed. *)
Theorem commands_fill_the_runs {Rng Timestamp : Type}
    (integers : Rng → nat → nat → list nat * Rng)
    (time_time : nat → Timestamp) (np_empty : nat → nat → nat → Z)
    (fuel : nat) (seeded : option Z → Rng) (seed : option Z)
    (files : gmap nat (list (DataRecorder.chunk
                               (ProgressiveSimulator.StepRecord Timestamp)))) :
  draws_in_range integers → (4 ≤ fuel)%nat →
  (negative_seed seed →
     cli.cmd_small integers time_time np_empty fuel seeded seed files =
       Raise ValueError ∧
     cli.cmd_full integers time_time np_empty fuel seeded seed files =
       Raise ValueError) ∧
  (¬ negative_seed seed →
     (∃ sim,
        cli.cmd_small integers time_time np_empty fuel seeded seed files =
          Ok (sim, ["Small-scale test complete."%string]) ∧
        (∀ id content, files !! id = Some content →
           ProgressiveSimulator.recorder sim !! id = Some content) ∧
        (∀ id, (1 ≤ id ≤ 10)%nat → files !! id = None →
           ∃ recs, ProgressiveSimulator.recorder sim !! id =
                     Some (json_array recs) ∧
                   length recs = 50%nat) ∧
        (∀ id, ¬ (1 ≤ id ≤ 10)%nat →
           ProgressiveSimulator.recorder sim !! id = files !! id)) ∧
     (∃ sim,
        cli.cmd_full integers time_time np_empty fuel seeded seed files =
          Ok (sim, ["Full generation complete."%string]) ∧
        (∀ id content, files !! id = Some content →
           ProgressiveSimulator.recorder sim !! id = Some content) ∧
        (∀ id, (1 ≤ id ≤ 1000)%nat → files !! id = None →
           ∃ recs, ProgressiveSimulator.recorder sim !! id =
                     Some (json_array recs) ∧
                   length recs = 500%nat) ∧
        (∀ id, ¬ (1 ≤ id ≤ 1000)%nat →
           ProgressiveSimulator.recorder sim !! id = files !! id))).
Proof.
  intros Hdraws Hfuel. split.
  - intros Hseed. unfold cli.cmd_small, cli.cmd_full, cli.simulator.
    cbn [ProgressiveSimulator.seed].
    by rewrite (default_rng_refuses seeded seed Hseed).
  - intros Hseed. split.
    + destruct (command_Ok integers time_time np_empty fuel seeded
                  10 50 seed files Hdraws Hfuel)
        as (sim & sim' & Hsim & Hrun & Hkeep & Hnew & Hout); [done|done|].
      exists sim'. unfold cli.cmd_small. rewrite Hsim. run. rewrite Hrun. run.
      done.
    + destruct (command_Ok integers time_time np_empty fuel seeded
                  1000 500 seed files Hdraws Hfuel)
        as (sim & sim' & Hsim & Hrun & Hkeep & Hnew & Hout); [done|done|].
      exists sim'. unfold cli.cmd_full. rewrite Hsim. run. rewrite Hrun. run.
      done.
Qed.

Lemma commands_fill_the_runs_witness :
  draws_in_range counting_integers ∧
  cli.cmd_full counting_integers id (λ _, stale_memory) 4
    (λ seed, Z.to_nat (default 0 seed)) (Some (-1)) ∅ = Raise ValueError ∧
  ∃ sim,
    cli.cmd_small counting_integers id (λ _, stale_memory) 4
      (λ seed, Z.to_nat (default 0 seed)) (Some 7) ∅ =
      Ok (sim, ["Small-scale test complete."%string]) ∧
    ∃ recs, ProgressiveSimulator.recorder sim !! 10%nat =
              Some (json_array recs) ∧
            length recs = 50%nat.
Proof.
  split; [apply counting_integers_in_range|]. split.
  - apply (commands_fill_the_runs counting_integers id (λ _, stale_memory) 4
             (λ seed, Z.to_nat (default 0 seed)) (Some (-1)) ∅
             counting_integers_in_range ltac:(lia)).
    reflexivity.
  - destruct (commands_fill_the_runs counting_integers id (λ _, stale_memory) 4
                (λ seed, Z.to_nat (default 0 seed)) (Some 7) ∅
                counting_integers_in_range ltac:(lia))
      as [_ Hruns].
    destruct (Hruns ltac:(cbn; lia)) as [(sim & Hcmd & _ & Hnew & _) _].
    exists sim. split; [exact Hcmd|].
    apply (Hnew 10%nat); [lia|reflexivity].
Defined.
(** * Properties of the aggregate statistics *)

Lemma outcome_bind_Returned {A B} (a : A) (f : A → stats.outcome B) :
  stats.Returned a ≫= f = f a.
Proof. reflexivity. Qed.

Lemma outcome_ret_Returned {A} (a : A) : mret a = stats.Returned a.
Proof. reflexivity. Qed.

(** Run the binds whose left side has returned. *)
Ltac go :=
  repeat (rewrite ?outcome_bind_Returned, ?outcome_ret_Returned; cbv beta zeta).

Section Distinct.

Context `{EqDecision A}.
Implicit Types (l : list A).

Lemma remove_dups_submseteq l : remove_dups l ⊆+ l.
Proof.
  apply NoDup_submseteq; [apply NoDup_remove_dups|].
  intros x. by rewrite elem_of_remove_dups.
Qed.

Lemma length_remove_dups_le l : (length (remove_dups l) ≤ length l)%nat.
Proof. apply submseteq_length, remove_dups_submseteq. Qed.

(** Nothing is dropped exactly when nothing is repeated. *)
Lemma length_remove_dups_eq l :
  length (remove_dups l) = length l ↔ NoDup l.
Proof.
  split.
  - intros Hlen.
    assert (remove_dups l ≡ₚ l) as <-; [|apply NoDup_remove_dups].
    apply submseteq_length_Permutation; [apply remove_dups_submseteq|lia].
  - induction 1 as [|x l Hx Hnd IH]; [done|].
    cbn [remove_dups]. destruct (decide_rel (∈) x l); [done|].
    cbn. by rewrite IH.
Qed.

(** One distinct value: the list is not empty and its elements are
    all the same. *)
Lemma length_remove_dups_one l :
  length (remove_dups l) = 1%nat ↔
  l ≠ [] ∧ Forall (λ x, Forall (eq x) l) l.
Proof.
  split.
  - intros Hlen.
    destruct (remove_dups l) as [|z [|? ?]] eqn:Hl; try done.
    assert (∀ x, x ∈ l → x = z) as Hz.
    { intros x Hx. apply (proj2 (elem_of_remove_dups _ _)) in Hx.
      rewrite Hl in Hx.
      by apply list_elem_of_singleton in Hx. }
    split.
    + intros ->. done.
    + apply Forall_forall. intros x Hx. apply Forall_forall. intros y Hy.
      by rewrite (Hz x Hx), (Hz y Hy).
  - intros [Hne Hall].
    assert (∀ x y, x ∈ remove_dups l → y ∈ remove_dups l → x = y) as Heq.
    { intros x y Hx Hy.
      apply (proj1 (elem_of_remove_dups _ _)) in Hx, Hy.
      by apply (proj1 (Forall_forall _ _)
                  (proj1 (Forall_forall _ _) Hall x Hx) y Hy). }
    pose proof (NoDup_remove_dups l) as Hnd.
    destruct (remove_dups l) as [|a [|b rest]] eqn:Hl.
    + destruct l as [|x l]; [done|].
      assert (x ∈ remove_dups (x :: l)) as Hx
        by (apply elem_of_remove_dups; by left).
      rewrite Hl in Hx. by apply elem_of_nil in Hx.
    + done.
    + exfalso. apply list.NoDup_cons in Hnd as [Hab _]. apply Hab.
      rewrite (Heq a b); [by left|by left|right; by left].
Qed.

End Distinct.

Section Named.

(** The values that are not null, and when none is. *)
Lemma omap_id_length {A} (l : list (option A)) :
  (length (omap id l) ≤ length l)%nat ∧
  (length (omap id l) = length l ↔ Forall is_Some l).
Proof.
  induction l as [|[x|] l [IHle IHeq]]; cbn.
  - split; [done|]. split; [constructor|done].
  - split; [lia|]. rewrite Forall_cons, <- IHeq. split.
    + intros [= ?]. by split.
    + intros [_ ->]. done.
  - split; [lia|]. split; [lia|]. intros [[? ?] _]%Forall_cons. done.
Qed.

Lemma omap_id_Some {A} (l : list (option A)) :
  Forall is_Some l → l = Some <$> omap id l.
Proof.
  induction 1 as [|[x|] l [? Hx] _ IH]; cbn; [done| |done].
  by rewrite <- IH.
Qed.

End Named.

Section Agreement.

Context {Timestamp float : Type} (truediv : Z → Z → float) (zero : float).
Implicit Types (rec : ProgressiveSimulator.StepRecord Timestamp).
Implicit Types (recs : list (ProgressiveSimulator.StepRecord Timestamp)).
Implicit Types
  (files : list (list (ProgressiveSimulator.StepRecord Timestamp))).

Lemma dict_getitem_Some {V} (d : gmap string V) key v :
  d !! key = Some v → stats.dict_getitem d key = stats.Returned v.
Proof. unfold stats.dict_getitem. by intros ->. Qed.

Lemma complete_inv rec :
  complete rec →
  ∃ p b i c,
    ProgressiveSimulator.winners rec !! "plurality"%string = Some p ∧
    ProgressiveSimulator.winners rec !! "borda"%string = Some b ∧
    ProgressiveSimulator.winners rec !! "irv"%string = Some i ∧
    ProgressiveSimulator.winners rec !! "condorcet"%string = Some c ∧
    rule_winners rec = [p; b; i; c].
Proof.
  unfold complete, rule_keys. intros Hrec.
  apply Forall_cons in Hrec as [[p Hp] Hrec].
  apply Forall_cons in Hrec as [[b Hb] Hrec].
  apply Forall_cons in Hrec as [[i Hi] Hrec].
  apply Forall_cons in Hrec as [[c Hc] _].
  exists p, b, i, c. repeat (split; [done|]).
  unfold rule_winners, rule_keys, recorded. cbn [fmap list_fmap].
  by rewrite Hp, Hb, Hi, Hc.
Qed.

(** All the values are distinct labels exactly when dropping nulls
    and repetitions drops nothing. *)
Lemma distinct_all {A} `{EqDecision A} (vals : list (option A)) :
  length (remove_dups (omap id vals)) = length vals ↔
  NoDup vals ∧ Forall is_Some vals.
Proof.
  pose proof (length_remove_dups_le (omap id vals)) as Hle1.
  destruct (omap_id_length vals) as [Hle2 Heq2].
  split.
  - intros Hlen.
    assert (Forall is_Some vals) as Hall by (apply Heq2; lia).
    split; [|done]. rewrite (omap_id_Some vals Hall).
    apply (NoDup_fmap_2 _), length_remove_dups_eq. lia.
  - intros [Hnd Hall].
    rewrite (omap_id_Some vals Hall) in Hnd.
    apply (NoDup_fmap_1 Some) in Hnd.
    apply length_remove_dups_eq in Hnd. rewrite Hnd. by apply Heq2.
Qed.

Lemma some_agreement_distinct rec :
  (length (remove_dups (omap id (rule_winners rec))) ≤ 3)%nat ↔
  some_agreement rec.
Proof.
  unfold some_agreement. rewrite <- distinct_all.
  pose proof (length_remove_dups_le (omap id (rule_winners rec))).
  destruct (omap_id_length (rule_winners rec)) as [? _].
  assert (length (rule_winners rec) = 4%nat) by reflexivity. lia.
Qed.

Lemma full_agreement_distinct rec :
  (length (remove_dups (omap id (rule_winners rec))) = 1 ∧
   2 ≤ length (omap id (rule_winners rec)))%nat ↔
  full_agreement rec.
Proof.
  unfold full_agreement. cbv zeta. rewrite length_remove_dups_one.
  split.
  - intros [[_ Hall] Hlen]. done.
  - intros [Hlen Hall]. split; [|done]. split; [|done].
    intros Hnil. rewrite Hnil in Hlen. cbn in Hlen. lia.
Qed.

Lemma full_some_agreement rec : full_agreement rec → some_agreement rec.
Proof.
  rewrite <- full_agreement_distinct, <- some_agreement_distinct. lia.
Qed.

Lemma agreement_step_complete st rec :
  complete rec →
  stats.AggregateAnalyzer.agreement_step st rec =
    stats.Returned
      (stats.AggregateAnalyzer.mkAgreement
         (stats.AggregateAnalyzer.agree_any st +
          (if decide (some_agreement rec) then 1 else 0))
         (stats.AggregateAnalyzer.agree_all st +
          (if decide (full_agreement rec) then 1 else 0))
         (stats.AggregateAnalyzer.total st + 1)).
Proof.
  intros (p & b & i & c & Hp & Hb & Hi & Hc & Hvals)%complete_inv.
  unfold stats.AggregateAnalyzer.agreement_step. cbv zeta.
  rewrite (dict_getitem_Some _ _ _ Hp). go.
  rewrite (dict_getitem_Some _ _ _ Hb). go.
  rewrite (dict_getitem_Some _ _ _ Hi). go.
  rewrite (dict_getitem_Some _ _ _ Hc). go.
  rewrite <- Hvals. do 2 f_equal.
  - destruct (decide (some_agreement rec)) as [Hs|Hs].
    + rewrite decide_True; [done|]. by apply some_agreement_distinct.
    + rewrite decide_False; [lia|]. by rewrite some_agreement_distinct.
  - destruct (decide (full_agreement rec)) as [Hf|Hf].
    + rewrite decide_True; [done|]. by apply full_agreement_distinct.
    + rewrite decide_False; [lia|]. by rewrite full_agreement_distinct.
Qed.

Lemma agreement_loop recs : ∀ st,
  Forall complete recs →
  stats.for_each stats.AggregateAnalyzer.agreement_step st recs =
    stats.Returned
      (stats.AggregateAnalyzer.mkAgreement
         (stats.AggregateAnalyzer.agree_any st +
          Z.of_nat (length (filter some_agreement recs)))
         (stats.AggregateAnalyzer.agree_all st +
          Z.of_nat (length (filter full_agreement recs)))
         (stats.AggregateAnalyzer.total st + Z.of_nat (length recs))).
Proof.
  induction recs as [|rec recs IH]; intros st Hall.
  - rewrite !filter_nil. cbn [length stats.for_each].
    rewrite !Z.add_0_r. by destruct st.
  - apply Forall_cons in Hall as [Hrec Hall].
    cbn [stats.for_each]. rewrite (agreement_step_complete st rec Hrec). go.
    rewrite (IH _ Hall). cbn [stats.AggregateAnalyzer.agree_any
      stats.AggregateAnalyzer.agree_all stats.AggregateAnalyzer.total].
    rewrite !filter_cons.
    do 2 f_equal; [| |cbn [length]; lia].
    + destruct (decide (some_agreement rec)); cbn [length]; lia.
    + destruct (decide (full_agreement rec)); cbn [length]; lia.
Qed.

(** Once a record has been counted, the loop over the files goes
    through all of them and the division is defined. *)
Lemma agreement_files_counted files : ∀ st,
  0 < stats.AggregateAnalyzer.total st →
  Forall complete (concat files) →
  stats.AggregateAnalyzer.agreement_files truediv zero st files =
    stats.Returned
      {[ "agree_any"%string :=
           truediv (stats.AggregateAnalyzer.agree_any st +
                    Z.of_nat (length (filter some_agreement (concat files))))
                   (stats.AggregateAnalyzer.total st +
                    Z.of_nat (length (concat files)));
         "agree_all"%string :=
           truediv (stats.AggregateAnalyzer.agree_all st +
                    Z.of_nat (length (filter full_agreement (concat files))))
                   (stats.AggregateAnalyzer.total st +
                    Z.of_nat (length (concat files))) ]}.
Proof.
  induction files as [|data files IH]; intros st Hpos Hall.
  - cbn [stats.AggregateAnalyzer.agreement_files concat].
    rewrite !filter_nil. cbn [length].
    rewrite decide_False by lia. go. by rewrite !Z.add_0_r.
  - cbn [concat] in Hall |- *. apply Forall_app in Hall as [Hdata Hall].
    cbn [stats.AggregateAnalyzer.agreement_files].
    rewrite (agreement_loop data st Hdata). go.
    cbn [stats.AggregateAnalyzer.total].
    rewrite decide_False by lia.
    rewrite IH; [|cbn; lia|done].
    cbn [stats.AggregateAnalyzer.agree_any
      stats.AggregateAnalyzer.agree_all stats.AggregateAnalyzer.total].
    rewrite !filter_app, !length_app, !Nat2Z.inj_add, !Z.add_assoc. done.
Qed.

Lemma agreement_step_incomplete st rec :
  ¬ complete rec →
  stats.AggregateAnalyzer.agreement_step st rec = stats.Raised stats.KeyError.
Proof.
  intros Hrec. unfold stats.AggregateAnalyzer.agreement_step. cbv zeta.
  unfold stats.dict_getitem.
  destruct (ProgressiveSimulator.winners rec !! "plurality"%string)
    as [p|] eqn:Hp; [|done]. go.
  destruct (ProgressiveSimulator.winners rec !! "borda"%string)
    as [b|] eqn:Hb; [|done]. go.
  destruct (ProgressiveSimulator.winners rec !! "irv"%string)
    as [i|] eqn:Hi; [|done]. go.
  destruct (ProgressiveSimulator.winners rec !! "condorcet"%string)
    as [c|] eqn:Hc; [|done].
  destruct Hrec. unfold complete, rule_keys.
  repeat (apply Forall_cons; split; [by eexists|]). constructor.
Qed.

Lemma agreement_loop_incomplete recs : ∀ st,
  ¬ Forall complete recs →
  stats.for_each stats.AggregateAnalyzer.agreement_step st recs =
    stats.Raised stats.KeyError.
Proof.
  induction recs as [|rec recs IH]; intros st Hall.
  { destruct Hall. constructor. }
  cbn [stats.for_each].
  destruct (decide (complete rec)) as [Hrec|Hrec].
  - rewrite (agreement_step_complete st rec Hrec). go.
    apply IH. intros Hrecs. apply Hall. by constructor.
  - by rewrite (agreement_step_incomplete st rec Hrec).
Qed.

Lemma filter_length_mono {A} (P Q : A → Prop)
    `{!∀ x, Decision (P x)} `{!∀ x, Decision (Q x)} (l : list A) :
  (∀ x, P x → Q x) → (length (filter P l) ≤ length (filter Q l))%nat.
Proof.
  intros HPQ. induction l as [|x l IH]; [done|]. rewrite !filter_cons.
  destruct (decide (P x)) as [HP|HP].
  - rewrite decide_True by by apply HPQ. cbn. lia.
  - destruct (decide (Q x)); cbn; lia.
Qed.

End Agreement.

(** X13: when the first run file holds a record and every record names
    a winner or null for each rule, [rule_agreement_frequency] returns
    the two fractions over all the records of all the files:
    [agree_any] counts the records whose four winners are not four
    different labels (two rules agree, or one names nobody), [agree_all]
    those where at least two rules name a winner and all that do name
    the same; so [agree_all <= agree_any <= 1]. *)
Theorem agreement_frequency {Timestamp float : Type}
    (truediv : Z → Z → float) (zero : float)
    (first : list (ProgressiveSimulator.StepRecord Timestamp))
    (rest : list (list (ProgressiveSimulator.StepRecord Timestamp))) :
  first ≠ [] →
  Forall complete (first ++ concat rest) →
  let recs := first ++ concat rest in
  let any := Z.of_nat (length (filter some_agreement recs)) in
  let all := Z.of_nat (length (filter full_agreement recs)) in
  let total := Z.of_nat (length recs) in
  stats.AggregateAnalyzer.rule_agreement_frequency truediv zero (first :: rest) =
    stats.Returned {[ "agree_any"%string := truediv any total;
                      "agree_all"%string := truediv all total ]} ∧
  0 ≤ all ≤ any ∧ any ≤ total ∧ 0 < total.
Proof.
  intros Hne Hall recs any all total. split.
  - unfold stats.AggregateAnalyzer.rule_agreement_frequency.
    cbn [stats.AggregateAnalyzer.agreement_files].
    apply Forall_app in Hall as [Hfirst Hrest].
    rewrite (agreement_loop first _ Hfirst). go.
    cbn [stats.AggregateAnalyzer.agree_any
      stats.AggregateAnalyzer.agree_all stats.AggregateAnalyzer.total].
    rewrite decide_False by (destruct first; [done|cbn [length]; lia]).
    rewrite (agreement_files_counted truediv zero rest);
      [|cbn; destruct first; [done|cbn [length]; lia]|done].
    cbn [stats.AggregateAnalyzer.agree_any
      stats.AggregateAnalyzer.agree_all stats.AggregateAnalyzer.total].
    unfold any, all, total, recs.
    rewrite !filter_app, !length_app, !Nat2Z.inj_add, !Z.add_0_l. done.
  - pose proof (filter_length_mono full_agreement some_agreement recs
                  full_some_agreement).
    pose proof (length_filter some_agreement recs).
    assert (0 < length recs)%nat.
    { unfold recs. rewrite length_app. destruct first; [done|cbn; lia]. }
    unfold any, all, total. lia.
Qed.

(** X14: [rule_agreement_frequency] without any run file divides by
    zero; when the first file is an empty array it returns zeros and
    never looks at the other files; a record of the first file without
    an entry for one of the rules raises [KeyError]. *)
Theorem agreement_frequency_edge_cases {Timestamp float : Type}
    (truediv : Z → Z → float) (zero : float) :
  stats.AggregateAnalyzer.rule_agreement_frequency (Timestamp := Timestamp)
    truediv zero [] = stats.Raised stats.ZeroDivisionError ∧
  (∀ rest : list (list (ProgressiveSimulator.StepRecord Timestamp)),
     stats.AggregateAnalyzer.rule_agreement_frequency truediv zero ([] :: rest) =
       stats.Returned
         {[ "agree_any"%string := zero; "agree_all"%string := zero ]}) ∧
  (∀ (first : list (ProgressiveSimulator.StepRecord Timestamp)) rest,
     ¬ Forall complete first →
     stats.AggregateAnalyzer.rule_agreement_frequency truediv zero
       (first :: rest) = stats.Raised stats.KeyError).
Proof.
  split; [reflexivity|]. split; [reflexivity|].
  intros first rest Hfirst.
  unfold stats.AggregateAnalyzer.rule_agreement_frequency.
  cbn [stats.AggregateAnalyzer.agreement_files].
  by rewrite (agreement_loop_incomplete first _ Hfirst).
Qed.

Lemma agreement_frequency_witness :
  sample_run ≠ [] ∧
  Forall complete (sample_run ++ concat [sample_run]) ∧
  stats.AggregateAnalyzer.rule_agreement_frequency fraction (0, 1)
    [sample_run; sample_run] =
    stats.Returned {[ "agree_any"%string := (6, 6);
                      "agree_all"%string := (4, 6) ]}.
Proof.
  split; [done|]. split; [by compute_done|].
  destruct (agreement_frequency fraction (0, 1) sample_run [sample_run])
    as [-> _]; [done|by compute_done|].
  by compute_done.
Defined.

Section Volatility.

Context {Timestamp float : Type} (truediv : Z → Z → float).
Implicit Types (rec : ProgressiveSimulator.StepRecord Timestamp).
Implicit Types (data : list (ProgressiveSimulator.StepRecord Timestamp)).
Implicit Types
  (files : list (list (ProgressiveSimulator.StepRecord Timestamp))).

(** The tuple of a complete record, and when two tuples are equal. *)
Lemma winners_tuple_complete rec :
  complete rec →
  ∃ t, stats.AggregateAnalyzer.winners_tuple rec = stats.Returned t ∧
       ∀ rec' t', complete rec' →
         stats.AggregateAnalyzer.winners_tuple rec' = stats.Returned t' →
         t' = t ↔ rule_winners rec' = rule_winners rec.
Proof.
  intros (p & b & i & c & Hp & Hb & Hi & Hc & Hvals)%complete_inv.
  exists [p; b; c; i]. unfold stats.AggregateAnalyzer.winners_tuple.
  cbn [mapM].
  rewrite (dict_getitem_Some _ _ _ Hp). go.
  rewrite (dict_getitem_Some _ _ _ Hb). go.
  rewrite (dict_getitem_Some _ _ _ Hc). go.
  rewrite (dict_getitem_Some _ _ _ Hi). go.
  split; [done|].
  intros rec' t' (p' & b' & i' & c' & Hp' & Hb' & Hi' & Hc' & Hvals')%complete_inv.
  rewrite (dict_getitem_Some _ _ _ Hp'). go.
  rewrite (dict_getitem_Some _ _ _ Hb'). go.
  rewrite (dict_getitem_Some _ _ _ Hc'). go.
  rewrite (dict_getitem_Some _ _ _ Hi'). go.
  intros [= <-]. rewrite Hvals, Hvals'. split; intros [= -> -> -> ->]; done.
Qed.

Lemma changes_in_cons rec next data :
  changes_in (rec :: next :: data) =
  (if decide (rule_winners next = rule_winners rec) then 0 else 1) +
  changes_in (next :: data).
Proof. reflexivity. Qed.

Lemma changes_in_bounds data :
  0 ≤ changes_in data ∧
  changes_in data + (if data is [] then 0 else 1) ≤ Z.of_nat (length data).
Proof.
  induction data as [|rec data IH]; [done|].
  destruct data as [|next data]; [cbn; lia|].
  rewrite changes_in_cons. cbn [length] in *.
  destruct (decide (rule_winners next = rule_winners rec)); lia.
Qed.

Lemma volatility_step_eq st prev rec :
  stats.AggregateAnalyzer.volatility_step (st, prev) rec =
  curr ← stats.AggregateAnalyzer.winners_tuple rec;
  mret (stats.AggregateAnalyzer.mkVolatility
          match prev with
          | Some p =>
              if decide (curr ≠ p)
              then stats.AggregateAnalyzer.changes st + 1
              else stats.AggregateAnalyzer.changes st
          | None => stats.AggregateAnalyzer.changes st
          end
          (stats.AggregateAnalyzer.total_transitions st + 1),
        Some curr).
Proof. reflexivity. Qed.

(** The loop over the records of a file, entered with [prev] being
    the tuple of [before], if there is a record before. *)
Lemma volatility_loop data : ∀ st (before : option _) prev,
  Forall complete data → from_option complete True before →
  match before with
  | Some rec => ∃ t, stats.AggregateAnalyzer.winners_tuple rec =
                       stats.Returned t ∧ prev = Some t
  | None => prev = None
  end →
  ∃ prev',
    stats.for_each stats.AggregateAnalyzer.volatility_step (st, prev) data =
      stats.Returned
        (stats.AggregateAnalyzer.mkVolatility
           (stats.AggregateAnalyzer.changes st +
            match before with
            | Some rec => changes_in (rec :: data)
            | None => changes_in data
            end)
           (stats.AggregateAnalyzer.total_transitions st +
            Z.of_nat (length data)),
         prev').
Proof.
  induction data as [|next data IH]; intros st before prev Hall Hbefore Hprev.
  { exists prev. cbn [stats.for_each length].
    rewrite !Z.add_0_r.
    assert (match before with
            | Some rec => changes_in [rec]
            | None => changes_in []
            end = 0) as -> by by destruct before.
    rewrite Z.add_0_r. by destruct st. }
  apply Forall_cons in Hall as [Hnext Hall].
  destruct (winners_tuple_complete next Hnext) as (t & Ht & Hsame).
  cbn [stats.for_each]. rewrite volatility_step_eq, Ht. go.
  match goal with
  | |- context [stats.for_each _ (?s, _) data] =>
      destruct (IH s (Some next) (Some t) Hall Hnext) as [prev' ->];
        [by exists t|]
  end.
  exists prev'. do 2 f_equal.
  cbn [stats.AggregateAnalyzer.changes
    stats.AggregateAnalyzer.total_transitions length].
  f_equal; [|lia].
  destruct before as [rec|].
  - destruct Hprev as (t0 & Ht0 & ->). rewrite changes_in_cons.
    cbn [from_option] in Hbefore.
    destruct (winners_tuple_complete rec Hbefore) as (t0' & Ht0' & Hsame0).
    rewrite Ht0 in Ht0'. injection Ht0' as <-.
    pose proof (Hsame0 next t Hnext Ht) as Hiff.
    destruct (decide (t ≠ t0)) as [Hne|Heq%dec_stable].
    + rewrite decide_False by (by rewrite <- Hiff). lia.
    + rewrite decide_True by (by rewrite <- Hiff). lia.
  - subst prev. lia.
Qed.

Lemma volatility_file_complete st data :
  Forall complete data →
  stats.AggregateAnalyzer.volatility_file st data =
    stats.Returned
      (stats.AggregateAnalyzer.mkVolatility
         (stats.AggregateAnalyzer.changes st + changes_in data)
         (stats.AggregateAnalyzer.total_transitions st +
          Z.of_nat (length data))).
Proof.
  intros Hall. unfold stats.AggregateAnalyzer.volatility_file.
  by destruct (volatility_loop data st None None Hall I eq_refl) as [prev' ->].
Qed.

Lemma volatility_files_complete files : ∀ st,
  Forall (Forall complete) files →
  stats.for_each stats.AggregateAnalyzer.volatility_file st files =
    stats.Returned
      (stats.AggregateAnalyzer.mkVolatility
         (stats.AggregateAnalyzer.changes st + np.sum (changes_in <$> files))
         (stats.AggregateAnalyzer.total_transitions st +
          Z.of_nat (length (concat files)))).
Proof.
  induction files as [|data files IH]; intros st Hall.
  - cbn. rewrite !Z.add_0_r. by destruct st.
  - apply Forall_cons in Hall as [Hdata Hall]. cbn [stats.for_each].
    rewrite (volatility_file_complete st data Hdata). go.
    rewrite (IH _ Hall).
    cbn [stats.AggregateAnalyzer.changes
      stats.AggregateAnalyzer.total_transitions concat].
    rewrite length_app, fmap_cons. unfold np.sum. cbn [foldr].
    do 2 f_equal; lia.
Qed.

Lemma changes_total files :
  0 ≤ np.sum (changes_in <$> files) ≤ Z.of_nat (length (concat files)).
Proof.
  induction files as [|data files IH]; [done|].
  rewrite fmap_cons. cbn [concat]. rewrite length_app.
  unfold np.sum in *. cbn [foldr].
  destruct (changes_in_bounds data) as [? ?].
  destruct data; lia.
Qed.

End Volatility.

(** X15: on records that name a winner or null for each rule,
    [winner_volatility] never raises, also without files or records: it
    returns the number of steps whose winners differ from those of the
    step before in the same file, divided by the number of records (by
    one when there is none).  A change from one file to the next is not
    counted, and the changes are at most the records. *)
Theorem winner_volatility_spec {Timestamp float : Type}
    (truediv : Z → Z → float)
    (files : list (list (ProgressiveSimulator.StepRecord Timestamp))) :
  Forall (Forall complete) files →
  let changes := np.sum (changes_in <$> files) in
  let records := Z.of_nat (length (concat files)) in
  stats.AggregateAnalyzer.winner_volatility truediv files =
    stats.Returned
      {[ "avg_changes_per_run"%string := truediv changes (records `max` 1) ]} ∧
  0 ≤ changes ≤ records.
Proof.
  intros Hall changes records. split; [|apply changes_total].
  unfold stats.AggregateAnalyzer.winner_volatility.
  rewrite (volatility_files_complete files _ Hall). go.
  cbn [stats.AggregateAnalyzer.changes
    stats.AggregateAnalyzer.total_transitions].
  by rewrite !Z.add_0_l.
Qed.

Lemma winner_volatility_spec_witness :
  Forall (Forall complete) [sample_run; []; sample_run] ∧
  stats.AggregateAnalyzer.winner_volatility fraction
    [sample_run; []; sample_run] =
    stats.Returned {[ "avg_changes_per_run"%string := (4, 6) ]}.
Proof.
  split; [by compute_done|].
  destruct (winner_volatility_spec fraction [sample_run; []; sample_run])
    as [-> _]; [by compute_done|].
  by compute_done.
Defined.

Section CondorcetRate.

Context {Timestamp float : Type} (truediv : Z → Z → float) (zero : float).
Implicit Types (rec : ProgressiveSimulator.StepRecord Timestamp).
Implicit Types (recs : list (ProgressiveSimulator.StepRecord Timestamp)).
Implicit Types
  (files : list (list (ProgressiveSimulator.StepRecord Timestamp))).

Lemma for_each_app {S A} (body : S → A → stats.outcome S) (l1 l2 : list A) :
  ∀ s, stats.for_each body s (l1 ++ l2) =
       s' ← stats.for_each body s l1; stats.for_each body s' l2.
Proof.
  induction l1 as [|x l1 IH]; intros s; [done|].
  cbn [app stats.for_each]. destruct (body s x); cbn; [by rewrite IH|done].
Qed.

(** A loop over the files with a loop over the records inside is one
    loop over all the records. *)
Lemma for_each_concat {S A} (body : S → A → stats.outcome S)
    (ls : list (list A)) : ∀ s,
  stats.for_each (stats.for_each body) s ls =
  stats.for_each body s (concat ls).
Proof.
  induction ls as [|l ls IH]; intros s; [done|].
  cbn [concat stats.for_each]. rewrite for_each_app.
  destruct (stats.for_each body s l); cbn; [by rewrite IH|done].
Qed.

Lemma max_step_final files : ∀ m,
  0 ≤ m →
  foldl stats.AggregateAnalyzer.last_step m files =
  m `max` Z.of_nat (max_list (final_steps files)).
Proof.
  induction files as [|data files IH]; intros m Hm; [cbn; lia|].
  cbn [foldl]. unfold final_steps. cbn [omap list_omap].
  unfold stats.AggregateAnalyzer.last_step at 2.
  destruct (last data) as [rec|]; cbn [fmap option_fmap option_map].
  - rewrite IH by lia.
    change (max_list (?x :: ?l)) with (x `max` max_list l)%nat.
    unfold final_steps. lia.
  - by rewrite IH.
Qed.

Lemma increment_Returned (a : list Z) (i : Z) :
  (0 < length a)%nat → -1 ≤ i < Z.of_nat (length a) →
  ∃ j, stats.increment a i = stats.Returned (alter Z.succ j a) ∧
       (0 ≤ i → j = Z.to_nat i).
Proof.
  intros Hlen Hi. unfold stats.increment, stats.np_index.
  destruct (decide (0 ≤ i < Z.of_nat (length a))).
  - go. eexists. split; [done|]. done.
  - rewrite decide_True by lia. go. eexists. split; [done|]. lia.
Qed.

Lemma rate_step_eq max_step counts totals rec :
  stats.AggregateAnalyzer.rate_step max_step (counts, totals) rec =
  let step := Z.of_nat (ProgressiveSimulator.step rec) - 1 in
  if decide (max_step ≤ step) then mret (counts, totals)
  else
    totals ← stats.increment totals step;
    counts ← (if recorded rec "condorcet" is Some _
              then stats.increment counts step else mret counts);
    mret (counts, totals).
Proof. reflexivity. Qed.

Lemma alter_succ_lookup (a : list Z) j i :
  alter Z.succ j a !! i =
  (λ z, z + (if decide (j = i) then 1 else 0)) <$> a !! i.
Proof.
  rewrite list_lookup_alter. destruct (decide (j = i)) as [->|?].
  - apply option_fmap_ext. intros z. lia.
  - rewrite <- (option_fmap_id (a !! i)) at 1.
    apply option_fmap_ext. intros z. cbn. lia.
Qed.

Lemma rate_step_Returned max_step counts totals rec :
  1 ≤ max_step →
  length counts = Z.to_nat max_step → length totals = Z.to_nat max_step →
  ∃ counts' totals',
    stats.AggregateAnalyzer.rate_step max_step (counts, totals) rec =
      stats.Returned (counts', totals') ∧
    length counts' = length counts ∧ length totals' = length totals ∧
    ((1 ≤ ProgressiveSimulator.step rec)%nat →
     ∀ i,
       totals' !! i =
         (λ z, z + (if decide (Z.of_nat (ProgressiveSimulator.step rec) =
                               Z.of_nat i + 1)
                    then 1 else 0)) <$> totals !! i ∧
       counts' !! i =
         (λ z, z + (if decide (Z.of_nat (ProgressiveSimulator.step rec) =
                               Z.of_nat i + 1 ∧ has_condorcet rec)
                    then 1 else 0)) <$> counts !! i).
Proof.
  intros Hmax Hcounts Htotals. rewrite rate_step_eq. cbv zeta.
  unfold has_condorcet.
  destruct (decide (max_step ≤ Z.of_nat (ProgressiveSimulator.step rec) - 1))
    as [Hskip|Hin].
  { exists counts, totals. split; [done|]. split; [done|]. split; [done|].
    intros _ i.
    destruct (decide (i < Z.to_nat max_step)%nat) as [Hi|Hi].
    - rewrite !decide_False by lia.
      destruct (totals !! i), (counts !! i); cbn; split; f_equal; lia.
    - rewrite !lookup_ge_None_2 by lia. done. }
  destruct (increment_Returned totals
              (Z.of_nat (ProgressiveSimulator.step rec) - 1))
    as (jt & -> & Hjt); [lia..|].
  go.
  destruct (recorded rec "condorcet") as [cd|] eqn:Hcd.
  - destruct (increment_Returned counts
                (Z.of_nat (ProgressiveSimulator.step rec) - 1))
      as (jc & -> & Hjc); [lia..|].
    go. eexists _, _. split; [done|]. rewrite !length_alter.
    split; [done|]. split; [done|]. intros Hstep i.
    rewrite !alter_succ_lookup, (Hjt ltac:(lia)), (Hjc ltac:(lia)).
    split; apply option_fmap_ext; intros z.
    + destruct (decide (Z.to_nat (Z.of_nat (ProgressiveSimulator.step rec) - 1) = i)).
      * rewrite decide_True by lia. done.
      * rewrite decide_False by lia. done.
    + destruct (decide (Z.to_nat (Z.of_nat (ProgressiveSimulator.step rec) - 1) = i)).
      * rewrite decide_True by (split; [lia|by eexists]). done.
      * rewrite decide_False by lia. done.
  - go. eexists _, _. split; [done|]. rewrite !length_alter.
    split; [done|]. split; [done|]. intros Hstep i.
    rewrite !alter_succ_lookup, (Hjt ltac:(lia)).
    split.
    + apply option_fmap_ext; intros z.
      destruct (decide (Z.to_nat (Z.of_nat (ProgressiveSimulator.step rec) - 1) = i)).
      * rewrite decide_True by lia. done.
      * rewrite decide_False by lia. done.
    + rewrite decide_False by (intros [_ [? ?]]; done).
      destruct (counts !! i); cbn; f_equal; lia.
Qed.

Lemma at_step_cons k rec recs :
  at_step k (rec :: recs) =
  if decide (Z.of_nat (ProgressiveSimulator.step rec) = k)
  then rec :: at_step k recs else at_step k recs.
Proof. unfold at_step. by rewrite filter_cons. Qed.

Lemma rate_loop max_step recs : ∀ counts totals,
  1 ≤ max_step →
  length counts = Z.to_nat max_step → length totals = Z.to_nat max_step →
  ∃ counts' totals',
    stats.for_each (stats.AggregateAnalyzer.rate_step max_step)
      (counts, totals) recs = stats.Returned (counts', totals') ∧
    length counts' = length counts ∧ length totals' = length totals ∧
    (Forall (λ rec, 1 ≤ ProgressiveSimulator.step rec)%nat recs →
     ∀ i,
       totals' !! i =
         (λ z, z + Z.of_nat (length (at_step (Z.of_nat i + 1) recs)))
           <$> totals !! i ∧
       counts' !! i =
         (λ z, z + Z.of_nat (length (filter has_condorcet
                                       (at_step (Z.of_nat i + 1) recs))))
           <$> counts !! i).
Proof.
  induction recs as [|rec recs IH]; intros counts totals Hmax Hcounts Htotals.
  { exists counts, totals. split; [done|]. split; [done|]. split; [done|].
    intros _ i. unfold at_step. rewrite !filter_nil. cbn [length].
    destruct (totals !! i), (counts !! i); cbn; split; f_equal; lia. }
  destruct (rate_step_Returned max_step counts totals rec Hmax Hcounts Htotals)
    as (counts1 & totals1 & Hstep & Hcounts1 & Htotals1 & Hcells1).
  destruct (IH counts1 totals1 Hmax) as
    (counts' & totals' & Hloop & Hcounts' & Htotals' & Hcells');
    [congruence..|].
  exists counts', totals'. cbn [stats.for_each]. rewrite Hstep. go.
  split; [done|]. split; [congruence|]. split; [congruence|].
  intros [Hrec Hrecs]%Forall_cons i.
  destruct (Hcells' Hrecs i) as [-> ->].
  destruct (Hcells1 Hrec i) as [-> ->].
  rewrite <- !option_fmap_compose. unfold compose.
  rewrite at_step_cons.
  split; apply option_fmap_ext; intros z.
  - destruct (decide (Z.of_nat (ProgressiveSimulator.step rec) = Z.of_nat i + 1)).
    + cbn [length]. lia.
    + lia.
  - destruct (decide (Z.of_nat (ProgressiveSimulator.step rec) = Z.of_nat i + 1)).
    + rewrite filter_cons.
      destruct (decide (has_condorcet rec)).
      * rewrite decide_True by done. cbn [length]. lia.
      * rewrite decide_False by (by intros [_ ?]). lia.
    + rewrite decide_False by (by intros [? _]). lia.
Qed.

(** The dictionary built at the end: one entry per step. *)
Lemma rate_map_lookup {V} (v : nat → V) (n : nat) (k : Z) :
  (list_to_map ((λ i, (Z.of_nat i + 1, v i)) <$> seq 0 n) : gmap Z V) !! k =
  if decide (1 ≤ k ≤ Z.of_nat n) then Some (v (Z.to_nat (k - 1))) else None.
Proof.
  case_decide as Hk.
  - apply elem_of_list_to_map.
    + rewrite <- list_fmap_compose. apply NoDup_fmap_2; [|apply NoDup_seq].
      intros i j Hij. cbn in Hij. lia.
    + apply list_elem_of_fmap. exists (Z.to_nat (k - 1)). split.
      * f_equal. lia.
      * apply elem_of_seq. lia.
  - apply not_elem_of_list_to_map. rewrite <- list_fmap_compose.
    intros (i & Hi & Hin%elem_of_seq)%list_elem_of_fmap. cbn in Hi. lia.
Qed.

End CondorcetRate.

(** X16: [condorcet_rate_by_step] never raises.  The dictionary it
    returns has one entry for each step from 1 to the largest step
    number ending a file (none without files or records).  When the
    step numbers start at 1, the entry of step [k] is the number of
    records of step [k] that name a Condorcet winner divided by the
    number of records of step [k], and [0.0] when no record has that
    step. *)
Theorem condorcet_rate_spec {Timestamp float : Type}
    (truediv : Z → Z → float) (zero : float)
    (files : list (list (ProgressiveSimulator.StepRecord Timestamp))) :
  let recs := concat files in
  let max_step := Z.of_nat (max_list (final_steps files)) in
  ∃ m,
    stats.AggregateAnalyzer.condorcet_rate_by_step truediv zero files =
      stats.Returned m ∧
    (∀ k, is_Some (m !! k) ↔ 1 ≤ k ≤ max_step) ∧
    (Forall (λ rec, 1 ≤ ProgressiveSimulator.step rec)%nat recs →
     ∀ k, 1 ≤ k ≤ max_step →
       m !! k =
         Some (if decide (at_step k recs = []) then zero
               else truediv
                      (Z.of_nat (length (filter has_condorcet (at_step k recs))))
                      (Z.of_nat (length (at_step k recs))))).
Proof.
  intros recs max_step.
  unfold stats.AggregateAnalyzer.condorcet_rate_by_step.
  destruct files as [|data files'] eqn:Hfiles.
  { exists ∅. split; [done|]. split.
    - intros k. rewrite lookup_empty. split; [by intros [? ?]|].
      unfold max_step. cbn. lia.
    - intros _ k Hk. unfold max_step in Hk. cbn in Hk. lia. }
  rewrite <- Hfiles. cbv zeta.
  rewrite max_step_final by done. rewrite Z.max_r by lia.
  fold recs in max_step |- *. subst files. fold max_step.
  destruct (decide (max_step = 0)) as [Hzero|Hpos].
  { exists ∅. split; [done|]. split.
    - intros k. rewrite lookup_empty. split; [by intros [? ?]|lia].
    - intros _ k Hk. lia. }
  rewrite for_each_concat. fold recs.
  destruct (rate_loop max_step recs (np.zeros (Z.to_nat max_step))
              (np.zeros (Z.to_nat max_step)))
    as (counts & totals & -> & Hcounts & Htotals & Hcells);
    [unfold max_step; lia
    |unfold np.zeros; by rewrite length_replicate..|].
  go. eexists. split; [reflexivity|]. split.
  - intros k. rewrite rate_map_lookup. case_decide as Hk.
    + split; [lia|by eexists].
    + split; [by intros [? ?]|lia].
  - intros Hsteps k Hk. rewrite rate_map_lookup, decide_True by lia.
    destruct (Hcells Hsteps (Z.to_nat (k - 1))) as [Ht Hc].
    replace (Z.of_nat (Z.to_nat (k - 1)) + 1) with k in Ht, Hc by lia.
    unfold np.zeros in Ht, Hc.
    rewrite lookup_replicate_2 in Ht, Hc by lia.
    cbn [fmap option_fmap option_map] in Ht, Hc.
    rewrite (list_lookup_total_correct _ _ _ Ht),
            (list_lookup_total_correct _ _ _ Hc), !Z.add_0_l.
    f_equal. destruct (at_step k recs) as [|rec rest] eqn:Hat.
    + by rewrite decide_True.
    + rewrite decide_False by (cbn [length]; lia). by rewrite decide_False.
Qed.

Lemma condorcet_rate_spec_witness :
  Forall (λ rec, 1 ≤ ProgressiveSimulator.step rec)%nat
    (concat [sample_run; take 2 sample_run]) ∧
  ∃ m,
    stats.AggregateAnalyzer.condorcet_rate_by_step fraction (0, 1)
      [sample_run; take 2 sample_run] = stats.Returned m ∧
    m !! 1 = Some (2, 2) ∧ m !! 2 = Some (0, 2) ∧ m !! 3 = Some (1, 1) ∧
    m !! 4 = None.
Proof.
  split; [by compute_done|].
  destruct (condorcet_rate_spec fraction (0, 1)
              [sample_run; take 2 sample_run])
    as (m & Hm & Hdom & Hval).
  exists m. split; [exact Hm|].
  rewrite !(Hval ltac:(by compute_done)) by by compute_done.
  split; [by compute_done|]. split; [by compute_done|].
  split; [by compute_done|].
  apply eq_None_not_Some. rewrite Hdom. by compute_done.
Defined.

(** * Properties of the randomness validation *)

Section Validator.

Context {Rng float : Type}.
Context (integers : Rng → nat → nat → list nat * Rng).
Context (truediv : Z → Z → float).
Implicit Types (gen : PreferenceGenerator.t Rng).

(** The sum of an array lies between its length times a lower bound
    and its length times an upper bound of its cells. *)
Lemma sum_bounds (a : list Z) lo hi :
  (∀ x, x ∈ a → lo ≤ x ≤ hi) →
  lo * Z.of_nat (length a) ≤ np.sum a ≤ hi * Z.of_nat (length a).
Proof.
  unfold np.sum. induction a as [|x a IH]; intros Hall; [cbn; lia|].
  cbn [foldr length].
  pose proof (Hall x ltac:(by left)).
  assert (∀ y, y ∈ a → lo ≤ y ≤ hi) as Hrest
    by (intros y Hy; apply Hall; by right).
  specialize (IH Hrest). lia.
Qed.

Lemma bincount_nonneg x m y : y ∈ np.bincount x m → 0 ≤ y.
Proof.
  intros [c Hc]%list_elem_of_lookup. unfold np.bincount in Hc.
  rewrite tally_lookup in Hc. unfold np.zeros in Hc.
  destruct (replicate _ 0 !! c) as [z|] eqn:Hz; [|done].
  apply lookup_replicate in Hz as [-> _]. injection Hc as <-.
  unfold occurrences. lia.
Qed.

Lemma balance_step_Returned ranks total_samples a balance b :
  total_samples ≠ 0%nat →
  stats.RandomnessValidator.balance_step truediv ranks total_samples a
    balance b =
  stats.Returned
    (<[(pretty a +:+ "-" +:+ pretty b)%string :=
         stats.RandomnessValidator.mkBalance
           (CondorcetRule.count_less ranks a b)
           (Z.of_nat total_samples - CondorcetRule.count_less ranks a b)
           (truediv (CondorcetRule.count_less ranks a b)
                    (Z.of_nat total_samples))]> balance).
Proof.
  intros Hne. unfold stats.RandomnessValidator.balance_step. cbv zeta.
  by rewrite decide_False.
Qed.

End Validator.

(** X17: when the draws are in range and [chisquare] returns,
    [uniform_distribution_test] returns its report and leaves the
    generator with the random state after the draw: [total_samples] is
    echoed, [expected] is [total_samples / 120.0], [min] is the
    smallest and [max] the largest of the 120 counts (count [i] being
    the number of draws equal to [i]), so that [0 <= min <= max] and
    [120 * min <= total_samples <= 120 * max]. *)
Theorem uniform_distribution_report {Rng float : Type}
    (integers : Rng → nat → nat → list nat * Rng) (truediv : Z → Z → float)
    (chisquare : list Z → list float → result (float * float))
    (gen : PreferenceGenerator.t Rng) (total_samples : nat) (chi p : float) :
  draws_in_range integers →
  let draw := integers (PreferenceGenerator.rng gen) 120%nat total_samples in
  let expected := truediv (Z.of_nat total_samples) 120 in
  chisquare (np.bincount draw.1 120) (replicate 120 expected) = Ok (chi, p) →
  ∃ min max,
    stats.RandomnessValidator.uniform_distribution_test integers truediv
      chisquare gen total_samples =
      Ok ({[ "total_samples"%string :=
               stats.RandomnessValidator.RInt (Z.of_nat total_samples);
             "min"%string := stats.RandomnessValidator.RInt min;
             "max"%string := stats.RandomnessValidator.RInt max;
             "expected"%string := stats.RandomnessValidator.RFloat expected;
             "p_value"%string := stats.RandomnessValidator.RFloat p ]},
          PreferenceGenerator.mk (PreferenceGenerator.candidates gen) draw.2
            (PreferenceGenerator._perms gen)) ∧
    (∃ i, (i < 120)%nat ∧ occurrences i draw.1 = min) ∧
    (∃ i, (i < 120)%nat ∧ occurrences i draw.1 = max) ∧
    (∀ i, (i < 120)%nat → min ≤ occurrences i draw.1 ≤ max) ∧
    0 ≤ min ≤ max ∧
    120 * min ≤ Z.of_nat total_samples ≤ 120 * max.
Proof.
  intros Hdraws draw expected Hchi.
  unfold stats.RandomnessValidator.uniform_distribution_test.
  destruct (Hdraws (PreferenceGenerator.rng gen) 120%nat total_samples)
    as [Hlen Hlt]; [lia|].
  fold draw in Hlen, Hlt |- *. destruct draw as [idx rng'] eqn:Hdraw.
  cbn [fst snd] in *. fold expected. rewrite Hchi. run.
  pose proof (bincount_length idx 120 Hlt) as Hbins.
  pose proof (bincount_sum idx 120) as Hsum. rewrite Hlen in Hsum.
  assert (np.bincount idx 120 ≠ []) as Hne
    by (intros Hnil; by rewrite Hnil in Hbins).
  destruct (amin_total _ Hne) as [mn Hmn].
  destruct (amax_total _ Hne) as [mx Hmx].
  rewrite Hmn. run. rewrite Hmx. run.
  destruct (amin_Ok _ _ Hmn) as [Hmn_in Hmn_le].
  destruct (amax_Ok _ _ Hmx) as [Hmx_in Hmx_le].
  exists mn, mx. split; [done|].
  assert (∀ v, v ∈ np.bincount idx 120 →
               ∃ i, (i < 120)%nat ∧ occurrences i idx = v) as Hbin.
  { intros v (i & Hi)%list_elem_of_lookup.
    pose proof (lookup_lt_Some _ _ _ Hi) as Hi120. rewrite Hbins in Hi120.
    rewrite bincount_lookup in Hi by done. injection Hi as <-. eauto. }
  assert (∀ i, (i < 120)%nat → occurrences i idx ∈ np.bincount idx 120)
    as Hocc.
  { intros i Hi. apply list_elem_of_lookup. exists i.
    by rewrite bincount_lookup. }
  split; [by apply Hbin|]. split; [by apply Hbin|].
  split; [intros i Hi; split; [apply Hmn_le|apply Hmx_le]; by apply Hocc|].
  pose proof (bincount_nonneg idx 120 mn Hmn_in).
  pose proof (Hmn_le mx Hmx_in).
  pose proof (sum_bounds (np.bincount idx 120) mn mx) as Hbounds.
  rewrite Hbins, Hsum in Hbounds.
  specialize (Hbounds ltac:(intros x Hx; split; [by apply Hmn_le|by apply Hmx_le])).
  lia.
Qed.

Lemma uniform_distribution_report_witness :
  draws_in_range counting_integers ∧
  ∃ min max report gen',
    stats.RandomnessValidator.uniform_distribution_test counting_integers
      fraction (λ _ _, Ok ((0, 1), (1, 1)))
      (ProgressiveSimulator.pref_gen example_simulator) 240 =
      Ok (report, gen') ∧
    report !! "min"%string = Some (stats.RandomnessValidator.RInt min) ∧
    report !! "max"%string = Some (stats.RandomnessValidator.RInt max) ∧
    120 * min ≤ 240 ≤ 120 * max.
Proof.
  split; [apply counting_integers_in_range|].
  destruct (uniform_distribution_report counting_integers fraction
              (λ _ _, Ok ((0, 1), (1, 1)))
              (ProgressiveSimulator.pref_gen example_simulator) 240
              (0, 1) (1, 1) counting_integers_in_range eq_refl)
    as (min & max & Hrun & _ & _ & _ & _ & Hbounds).
  exists min, max. eexists _, _. split; [exact Hrun|].
  split; [reflexivity|]. split; [reflexivity|]. exact Hbounds.
Defined.

Section PairwiseBalance.

Context {Rng float : Type}.
Context (integers : Rng → nat → nat → list nat * Rng).
Context (truediv : Z → Z → float).

(** The ten pairs [a < b] of candidates, as the keys spell them. *)
Lemma pair_cases (a b : nat) :
  (a < b < 5)%nat →
  (a, b) ∈ [(0, 1); (0, 2); (0, 3); (0, 4); (1, 2); (1, 3); (1, 4);
            (2, 3); (2, 4); (3, 4)]%nat.
Proof.
  intros Hab.
  do 5 (destruct a as [|a];
        [do 5 (destruct b as [|b]; [(lia || by compute_done)|]); lia|]).
  lia.
Qed.

(** The loops over the pairs, for a number of samples that is not
    zero: one entry per pair. *)
Lemma balance_loops ranks total_samples :
  total_samples ≠ 0%nat →
  stats.for_each
    (λ balance a,
       stats.for_each
         (stats.RandomnessValidator.balance_step truediv ranks
            total_samples a)
         balance (seq (a + 1) (5 - (a + 1))))
    ∅ (seq 0 5) =
  stats.Returned
    (list_to_map
       ((λ ab : nat * nat,
           ((pretty ab.1 +:+ "-" +:+ pretty ab.2)%string,
            stats.RandomnessValidator.mkBalance
              (CondorcetRule.count_less ranks ab.1 ab.2)
              (Z.of_nat total_samples -
               CondorcetRule.count_less ranks ab.1 ab.2)
              (truediv (CondorcetRule.count_less ranks ab.1 ab.2)
                       (Z.of_nat total_samples))))
          <$> reverse [(0, 1); (0, 2); (0, 3); (0, 4); (1, 2); (1, 3);
                       (1, 4); (2, 3); (2, 4); (3, 4)]%nat)).
Proof.
  intros Hne.
  cbn [seq Nat.add Nat.sub stats.for_each].
  repeat (rewrite (balance_step_Returned truediv ranks total_samples
                     _ _ _ Hne); go).
  reflexivity.
Qed.

Lemma pair_cases_inv (a b : nat) :
  (a, b) ∈ [(0, 1); (0, 2); (0, 3); (0, 4); (1, 2); (1, 3); (1, 4);
            (2, 3); (2, 4); (3, 4)]%nat →
  (a < b < 5)%nat.
Proof.
  intros H.
  repeat (apply elem_of_cons in H as [[= -> ->]|H]; [lia|]).
  by apply elem_of_nil in H.
Qed.

End PairwiseBalance.

(** X18: [pairwise_balance_test] on a ready generator whose draws are
    in range divides by zero when asked for no sample.  Otherwise it
    returns exactly one entry for each of the ten pairs [a < b], under
    the key ["a-b"]: [a_over_b] is the number of sampled ballots that
    rank [a] above [b], [b_over_a] the number that rank [b] above [a],
    and [ratio_a] is [a_over_b / total_samples]; what the memory of
    [ranks] held before does not matter. *)
Theorem pairwise_balance_report {Rng float : Type}
    (integers : Rng → nat → nat → list nat * Rng) (truediv : Z → Z → float)
    (uninitialised : nat → nat → Z)
    (gen : PreferenceGenerator.t Rng) (total_samples : nat) :
  draws_in_range integers → generator_ready gen →
  ∃ rows gen',
    PreferenceGenerator.sample integers gen total_samples = Ok (rows, gen') ∧
    if decide (total_samples = 0%nat)
    then stats.RandomnessValidator.pairwise_balance_test integers truediv
           uninitialised gen total_samples =
           Ok (stats.Raised stats.ZeroDivisionError, gen')
    else
      ∃ balance,
        stats.RandomnessValidator.pairwise_balance_test integers truediv
          uninitialised gen total_samples = Ok (stats.Returned balance, gen') ∧
        (∀ a b, (a < b < 5)%nat →
           balance !! (pretty a +:+ "-" +:+ pretty b)%string =
             Some (stats.RandomnessValidator.mkBalance
                     (preferring rows a b) (preferring rows b a)
                     (truediv (preferring rows a b)
                              (Z.of_nat total_samples)))) ∧
        (∀ key, is_Some (balance !! key) →
           ∃ a b, (a < b < 5)%nat ∧
                  key = (pretty a +:+ "-" +:+ pretty b)%string).
Proof.
  intros Hdraws Hgen.
  destruct (sample_Ok integers gen total_samples Hdraws Hgen)
    as (rows & Hsample & Hlen & Hdom & _).
  eexists rows, _. split; [exact Hsample|].
  unfold stats.RandomnessValidator.pairwise_balance_test.
  rewrite Hsample. run.
  destruct (build_ranks_Ok uninitialised rows 0 Hdom) as (ranks & -> & Hranks).
  run. case_decide as Hzero.
  - rewrite Hzero. reflexivity.
  - rewrite (balance_loops truediv ranks total_samples Hzero).
    eexists. split; [reflexivity|]. split.
    + intros a b Hab. apply elem_of_list_to_map.
      * rewrite <- list_fmap_compose. by compute_done.
      * apply list_elem_of_fmap. exists (a, b). cbn [fst snd]. split.
        -- rewrite (count_less_preferring rows ranks a b Hranks) by lia.
           do 3 f_equal.
           pose proof (preferring_complement rows a b Hdom) as Hsum.
           rewrite Hlen in Hsum. specialize (Hsum ltac:(lia) ltac:(lia) ltac:(lia)).
           lia.
        -- apply elem_of_reverse. by apply pair_cases.
    + intros key [entry Hentry].
      apply elem_of_list_to_map_2 in Hentry.
      apply list_elem_of_fmap in Hentry as ([a b] & [= -> _] & Hin).
      apply elem_of_reverse in Hin. exists a, b. cbn [fst snd].
      split; [by apply pair_cases_inv|done].
Qed.

Lemma pairwise_balance_report_witness :
  draws_in_range counting_integers ∧
  generator_ready (ProgressiveSimulator.pref_gen example_simulator) ∧
  ∃ rows balance gen',
    stats.RandomnessValidator.pairwise_balance_test counting_integers
      fraction stale_memory
      (ProgressiveSimulator.pref_gen example_simulator) 3 =
      Ok (stats.Returned balance, gen') ∧
    balance !! "0-1"%string =
      Some (stats.RandomnessValidator.mkBalance
              (preferring rows 0 1) (preferring rows 1 0)
              (preferring rows 0 1, 3)).
Proof.
  split; [apply counting_integers_in_range|]. split; [reflexivity|].
  destruct (pairwise_balance_report counting_integers fraction stale_memory
              (ProgressiveSimulator.pref_gen example_simulator) 3
              counting_integers_in_range eq_refl)
    as (rows & gen' & _ & Hrun).
  rewrite decide_False in Hrun by done.
  destruct Hrun as (balance & Hrun & Hcells & _).
  exists rows, balance, gen'. split; [exact Hrun|].
  exact (Hcells 0%nat 1%nat ltac:(lia)).
Defined.

(** * The uniformity report of the generator *)

(** X23: when the draws are in range and [chisquare] returns,
    [validate_uniformity] on a ready generator returns its report and
    leaves the generator with the random state after the draw:
    [num_samples] is echoed, [counts] has one entry for each of the 120
    rows of the table, entry [i] being the number of draws equal to
    [i], the entries add up to [num_samples], and [expected_per_perm]
    is [num_samples / 120]. *)
Theorem uniformity_report {Rng float : Type}
    (integers : Rng → nat → nat → list nat * Rng) (truediv : Z → Z → float)
    (chisquare : list Z → list float → result (float * float))
    (self : PreferenceGenerator.t Rng) (num_samples : nat) (chi p : float) :
  draws_in_range integers → generator_ready self →
  let draw := integers (PreferenceGenerator.rng self) 120%nat num_samples in
  let expected := truediv (Z.of_nat num_samples) 120 in
  chisquare (np.bincount draw.1 120) (replicate 120 expected) = Ok (chi, p) →
  ∃ counts,
    UniformityReport.validate_uniformity integers truediv chisquare self
      num_samples =
      Ok ({[ "num_samples"%string :=
               UniformityReport.VInt (Z.of_nat num_samples);
             "counts"%string := UniformityReport.VInts counts;
             "expected_per_perm"%string := UniformityReport.VFloat expected;
             "chi_square_stat"%string := UniformityReport.VFloat chi;
             "p_value"%string := UniformityReport.VFloat p ]},
          PreferenceGenerator.mk (PreferenceGenerator.candidates self) draw.2
            (PreferenceGenerator._perms self)) ∧
    length counts = 120%nat ∧
    np.sum counts = Z.of_nat num_samples ∧
    ∀ i, (i < 120)%nat → counts !! i = Some (occurrences i draw.1).
Proof.
  intros Hdraws Hgen draw expected Hchi. unfold generator_ready in Hgen.
  unfold UniformityReport.validate_uniformity.
  rewrite Hgen, permutations_length. cbv zeta.
  rewrite decide_False by done.
  destruct (Hdraws (PreferenceGenerator.rng self) 120%nat num_samples)
    as [Hlen Hlt]; [lia|].
  fold draw in Hlen, Hlt |- *. destruct draw as [idx rng'] eqn:Hdraw.
  cbn [fst snd] in *.
  change (Z.of_nat 120) with 120. fold expected. rewrite Hchi. run.
  exists (np.bincount idx 120). split; [done|].
  split; [by apply bincount_length|].
  split; [by rewrite bincount_sum, Hlen|].
  intros i Hi. by apply bincount_lookup.
Qed.

Lemma uniformity_report_witness :
  draws_in_range counting_integers ∧
  generator_ready (ProgressiveSimulator.pref_gen example_simulator) ∧
  ∃ counts report gen',
    UniformityReport.validate_uniformity counting_integers fraction
      (λ _ _, Ok ((0, 1), (1, 1)))
      (ProgressiveSimulator.pref_gen example_simulator) 240 =
      Ok (report, gen') ∧
    report !! "counts"%string = Some (UniformityReport.VInts counts) ∧
    np.sum counts = 240.
Proof.
  split; [apply counting_integers_in_range|]. split; [reflexivity|].
  destruct (uniformity_report counting_integers fraction
              (λ _ _, Ok ((0, 1), (1, 1)))
              (ProgressiveSimulator.pref_gen example_simulator) 240
              (0, 1) (1, 1) counting_integers_in_range eq_refl eq_refl)
    as (counts & Hrun & _ & Hsum & _).
  exists counts. eexists _, _. split; [exact Hrun|].
  split; [reflexivity|exact Hsum].
Defined.
